(** * TalkStudio: the generation-task life cycle and the credit ledger

    A shallow embedding of the part of the Django application that tracks a
    voice-generation task through its states and charges credits for it:

    - [accounts/models.py]: [User.deduct_credits], [User.add_credits],
      the [CreditTransaction] and [Notification] rows;
    - [accounts/serializers.py]: [UserRegistrationSerializer.create];
    - [voices/models.py]: the [GeneratedAudio] row;
    - [voices/progress_tracker.py]: [VoiceGenerationTracker];
    - [tts_engine/views.py]: [generate_speech] and
      [_generate_in_background];
    - [tts_engine/tts_api_service.py]: [TTSAPIService.generate];
    - [accounts/views.py]: [admin_add_credits]; [accounts/admin.py]: the
      admin actions on the balance; [accounts/models.py]: the plan checks
      of [User];
    - [payments/views.py]: [StripeWebhookView];
    - [voices/views.py]: [generate_audio_from_gradio] and
      [ClonedVoiceViewSet].

    Database tables keyed by a primary key are finite maps; tables that are
    only appended to are lists in insertion order.  Python integers are
    unbounded, so the integer columns are [Z].  A text is held as the bytes
    of its UTF-8 encoding; its length and its whitespace are counted and
    recognised by code point, as Python does.  Timestamps are seconds on
    an integer clock that the caller supplies wherever the source calls
    [timezone.now()]. *)

From Stdlib Require Import ZArith String Ascii List Lia.
From stdpp Require Import gmap strings list fin_maps pretty.

Local Open Scope string_scope.
Local Open Scope Z_scope.

(** ** Python helpers *)

(** [str(n)] for an integer. *)
Definition str_of_Z (z : Z) : string := pretty z.

(** A Python [str] is a sequence of code points.  It is held here as the
    bytes of its UTF-8 encoding, which is also what a string literal of
    this file holds for a text that is not ASCII.  A byte of the form
    [10xxxxxx] continues a code point; every other byte starts one. *)
Definition is_continuation (c : ascii) : bool :=
  match c with
  | Ascii _ _ _ _ _ _ b6 b7 => b7 && negb b6
  end.

(** The characters of a text, in order: each is a starting byte with the
    continuation bytes that follow it.  [chars_from] also returns the
    continuation bytes at the front that no starting byte precedes. *)
Fixpoint chars_from (s : string) : string * list string :=
  match s with
  | EmptyString => (EmptyString, [])
  | String c s' =>
      let (continuation, rest) := chars_from s' in
      if is_continuation c then (String c continuation, rest)
      else (EmptyString, String c continuation :: rest)
  end.

Definition chars (s : string) : list string :=
  let (continuation, rest) := chars_from s in
  match continuation with
  | EmptyString => rest
  | _ => continuation :: rest
  end.

(** [''.join(cs)] *)
Definition join (cs : list string) : string := foldr String.append "" cs.

(** [len(s)]: the number of code points. *)
Definition len (s : string) : Z := Z.of_nat (length (chars s)).

(** [ord(ch)] of one character: the code point that its bytes encode, if
    they are the UTF-8 encoding of one. *)
Definition code_point (ch : string) : option N :=
  match ch with
  | EmptyString => None
  | String c continuation =>
      let n := N_of_ascii c in
      let low (b : ascii) := (N_of_ascii b - 128)%N in
      match continuation with
      | EmptyString => if (n <? 128)%N then Some n else None
      | String b1 EmptyString =>
          let cp := ((n - 192) * 64 + low b1)%N in
          if (192 <=? n)%N && (n <? 224)%N && (128 <=? cp)%N
          then Some cp else None
      | String b1 (String b2 EmptyString) =>
          let cp := (((n - 224) * 64 + low b1) * 64 + low b2)%N in
          if (224 <=? n)%N && (n <? 240)%N && (2048 <=? cp)%N
          then Some cp else None
      | String b1 (String b2 (String b3 EmptyString)) =>
          let cp :=
            ((((n - 240) * 64 + low b1) * 64 + low b2) * 64 + low b3)%N in
          if (240 <=? n)%N && (n <? 248)%N && (65536 <=? cp)%N
          then Some cp else None
      | _ => None
      end
  end.

(** The code points that Python takes for whitespace: TAB, LF, VT, FF, CR,
    the separators FS..US and the blank; then U+0085, U+00A0, U+1680,
    U+2000..U+200A, U+2028, U+2029, U+202F, U+205F and U+3000. *)
Definition is_whitespace (cp : N) : bool :=
  (((9 <=? cp) && (cp <=? 13)) || ((28 <=? cp) && (cp <=? 32))
   || (cp =? 133) || (cp =? 160) || (cp =? 5760)
   || ((8192 <=? cp) && (cp <=? 8202))
   || (cp =? 8232) || (cp =? 8233) || (cp =? 8239) || (cp =? 8287)
   || (cp =? 12288))%N.

(** [ch.isspace()] for one character. *)
Definition isspace (ch : string) : bool :=
  match code_point ch with
  | Some cp => is_whitespace cp
  | None => false
  end.

(** [lstrip] and [rstrip] on the characters of a text. *)
Fixpoint lstrip (cs : list string) : list string :=
  match cs with
  | ch :: cs' => if isspace ch then lstrip cs' else cs
  | [] => []
  end.

Definition rstrip (cs : list string) : list string :=
  reverse (lstrip (reverse cs)).

(** [s.strip()] *)
Definition strip (s : string) : string := join (rstrip (lstrip (chars s))).

(** [s[:n]]: the first [n] characters. *)
Definition take_chars (n : nat) (s : string) : string :=
  join (take n (chars s)).

(** The shape of what [chars] cuts: a starting byte followed by
    continuation bytes only. *)
Fixpoint continuation_only (k : string) : bool :=
  match k with
  | EmptyString => true
  | String c k' => is_continuation c && continuation_only k'
  end.

Definition is_char (ch : string) : bool :=
  match ch with
  | EmptyString => false
  | String c k => negb (is_continuation c) && continuation_only k
  end.

(** [d.get(key, default)] where the dictionary entry is an [option]. *)
Definition get_default {A} (entry : option A) (dflt : A) : A :=
  match entry with Some v => v | None => dflt end.

(** ** Models *)

(** [accounts.models.User]: the credit column and the two methods that
    change it.  Primary keys of this table are positive auto-increment
    integers, so a user id is never falsy in Python. *)
Module User.

Record t := mk { credits : Z }.

(** [credits = models.IntegerField(default=1000)] *)
Definition default : t := {| credits := 1000 |}.

(** [deduct_credits(self, amount)]: the instance after the call and the
    returned flag.  The caller's [save()] is [save] below. *)
Definition deduct_credits (self : t) (amount : Z) : t * bool :=
  if credits self >=? amount
  then ({| credits := credits self - amount |}, true)
  else (self, false).

(** [add_credits(self, amount)] *)
Definition add_credits (self : t) (amount : Z) : t :=
  {| credits := credits self + amount |}.

End User.

(** [accounts.models.CreditTransaction] *)
Module CreditTransaction.

Inductive kind := purchase | usage | refund | bonus.

#[global] Instance kind_eq_dec : EqDecision kind.
Proof. solve_decision. Defined.

Record t := mk {
  user : positive;
  amount : Z;
  transaction_type : kind;
  description : string;
  balance_after : Z
}.

End CreditTransaction.

(** [accounts.models.Notification]; the JSON [metadata] column is write-only
    for the code below and is left out. *)
Module Notification.

Record t := mk {
  user : positive;
  title : string;
  message : string;
  notification_type : string;
  link : string
}.

(** [Notification.create_notification] returns the row that is inserted. *)
Definition create_notification (user : positive) (title message : string)
    (notification_type link : string) : t :=
  mk user title message notification_type link.

(** [Notification.notify_credits_low] *)
Definition notify_credits_low (user : positive) (remaining_credits : Z) : t :=
  create_notification user "Low Credits Warning"
    ("You have only " +:+ str_of_Z remaining_credits +:+
     " credits remaining. Consider purchasing more to continue using our services.")
    "warning" "/pricing".

End Notification.

(** [voices.models.GeneratedAudio].  The columns the tracker and the worker
    never touch ([pitch], [tone], [library_voice], [cloned_voice], [speed],
    [generation_params]) keep their defaults and are left out; [duration] is
    a float that is only stored, kept here as the text of its value. *)
Module GeneratedAudio.

Inductive Status := pending | processing | completed | failed.

#[global] Instance Status_eq_dec : EqDecision Status.
Proof. solve_decision. Defined.

Record t := mk {
  user : option positive;
  text : string;
  voice_source : string;
  audio_file : option string;
  status : Status;
  progress : Z;
  estimated_time : option Z;
  started_at : option Z;
  completed_at : option Z;
  error_message : string;
  duration : option string;
  file_size : Z;
  characters_used : Z;
  credits_used : Z;
  created_at : Z
}.

(** The four [UPDATE ... SET] clauses of the tracker, one per row. *)

Definition set_processing (now : Z) (r : t) : t :=
  mk (user r) (text r) (voice_source r) (audio_file r)
     processing 10 (estimated_time r) (Some now) (completed_at r)
     (error_message r) (duration r) (file_size r)
     (characters_used r) (credits_used r) (created_at r).

Definition set_progress (p : Z) (r : t) : t :=
  mk (user r) (text r) (voice_source r) (audio_file r)
     (status r) p (estimated_time r) (started_at r) (completed_at r)
     (error_message r) (duration r) (file_size r)
     (characters_used r) (credits_used r) (created_at r).

Definition set_completed (now : Z) (file : string) (size : Z)
    (dur : string) (r : t) : t :=
  mk (user r) (text r) (voice_source r) (Some file)
     completed 100 (estimated_time r) (started_at r) (Some now)
     (error_message r) (Some dur) size
     (characters_used r) (credits_used r) (created_at r).

Definition set_failed (now : Z) (error : string) (r : t) : t :=
  mk (user r) (text r) (voice_source r) (audio_file r)
     failed (progress r) (estimated_time r) (started_at r) (Some now)
     error (duration r) (file_size r)
     (characters_used r) (credits_used r) (created_at r).

End GeneratedAudio.

Import GeneratedAudio.

(** ** [voices/progress_tracker.py] *)

Module VoiceGenerationTracker.

(** [int(30 + text_length * 5.4)]: 5.4 is 27/5, and for the lengths of a
    text the truncation of the float product is that of the exact one. *)
Definition estimate_time (text_length : Z) : Z :=
  30 + (text_length * 27) / 5.

(** [create_task]: [GeneratedAudio.objects.create(...)] with a fresh UUID
    [id] and [created_at = now]; the insert raises when the key exists. *)
Definition new_row (now : Z) (user : option positive)
    (text voice_source : string) : GeneratedAudio.t :=
  GeneratedAudio.mk user text voice_source None
    pending 0 (Some (estimate_time (len text))) None None
    "" None 0 (len text) (len text) now.

Definition create_task (id : N) (now : Z) (user : option positive)
    (text voice_source : string) (tbl : gmap N GeneratedAudio.t)
    : string + (GeneratedAudio.t * gmap N GeneratedAudio.t) :=
  match tbl !! id with
  | Some _ => inl "UNIQUE constraint failed"
  | None =>
      let row := new_row now user text voice_source in
      inr (row, <[id := row]> tbl)
  end.

(** [filter(id=task_id).update(status='processing', started_at=now,
    progress=10)] *)
Definition start_processing (now : Z) (task_id : N)
    (tbl : gmap N GeneratedAudio.t) : gmap N GeneratedAudio.t :=
  alter (set_processing now) task_id tbl.

(** [filter(id=task_id).update(progress=min(progress, 99))] *)
Definition update_progress (task_id : N) (progress : Z)
    (tbl : gmap N GeneratedAudio.t) : gmap N GeneratedAudio.t :=
  alter (set_progress (Z.min progress 99)) task_id tbl.

Definition mark_completed (now : Z) (task_id : N) (audio_file : string)
    (file_size : Z) (duration : string)
    (tbl : gmap N GeneratedAudio.t) : gmap N GeneratedAudio.t :=
  alter (set_completed now audio_file file_size duration) task_id tbl.

Definition mark_failed (now : Z) (task_id : N) (error : string)
    (tbl : gmap N GeneratedAudio.t) : gmap N GeneratedAudio.t :=
  alter (set_failed now error) task_id tbl.

(** [filter(status=s).count()] and
    [filter(status='pending', created_at__lt=t).count()] *)
Definition count_status (s : Status) (tbl : gmap N GeneratedAudio.t) : Z :=
  Z.of_nat (size (filter (λ kv, status kv.2 = s) tbl)).

Definition count_pending_before (t : Z) (tbl : gmap N GeneratedAudio.t) : Z :=
  Z.of_nat (size (filter (λ kv, status kv.2 = pending ∧ created_at kv.2 < t) tbl)).

(** [get_queue_position]: the lookup failure is caught and gives 0. *)
Definition get_queue_position (task_id : N)
    (tbl : gmap N GeneratedAudio.t) : Z :=
  match tbl !! task_id with
  | None => 0
  | Some task =>
      match status task with
      | processing | completed | failed => 0
      | pending =>
          let queue_position := count_pending_before (created_at task) tbl in
          let processing_count := count_status processing tbl in
          queue_position + processing_count
      end
  end.

(** The dictionary [get_status] returns on success. *)
Record StatusReport := {
  rep_status : Status;
  rep_progress : Z;
  rep_estimated_time : option Z;
  rep_remaining_time : option Z;
  rep_audio_url : option string;
  rep_queue_position : Z;
  rep_estimated_wait : Z
}.

(** Python truthiness of an optional integer: [None] and [0] are falsy. *)
Definition truthy (o : option Z) : bool :=
  match o with Some v => negb (v =? 0) | None => false end.

(** [get_status]: [None] is [{'success': False, 'error': 'Not found'}]. *)
Definition get_status (now : Z) (task_id : N)
    (tbl : gmap N GeneratedAudio.t) : option StatusReport :=
  match tbl !! task_id with
  | None => None
  | Some task =>
      let elapsed :=
        match started_at task with
        | Some t0 => Some (now - t0)
        | None => None
        end in
      let remaining :=
        if truthy (estimated_time task) && truthy elapsed
        then match estimated_time task, elapsed with
             | Some et, Some el => Some (Z.max 0 (et - el))
             | _, _ => estimated_time task
             end
        else estimated_time task in
      let queue_position := get_queue_position task_id tbl in
      let estimated_wait :=
        if 0 <? queue_position then queue_position * 30 else 0 in
      Some {| rep_status := status task;
              rep_progress := progress task;
              rep_estimated_time := estimated_time task;
              rep_remaining_time := remaining;
              rep_audio_url := audio_file task;
              rep_queue_position := queue_position;
              rep_estimated_wait := estimated_wait |}
  end.

End VoiceGenerationTracker.

(** ** The database and the exception monad *)

Record Db := {
  users : gmap positive User.t;
  audios : gmap N GeneratedAudio.t;
  transactions : list CreditTransaction.t;
  notifications : list Notification.t
}.

Definition on_users (f : gmap positive User.t → gmap positive User.t)
    (db : Db) : Db :=
  {| users := f (users db); audios := audios db;
     transactions := transactions db; notifications := notifications db |}.

Definition on_audios (f : gmap N GeneratedAudio.t → gmap N GeneratedAudio.t)
    (db : Db) : Db :=
  {| users := users db; audios := f (audios db);
     transactions := transactions db; notifications := notifications db |}.

(** [CreditTransaction.objects.create(...)] *)
Definition add_transaction (tx : CreditTransaction.t) (db : Db) : Db :=
  {| users := users db; audios := audios db;
     transactions := transactions db ++ [tx];
     notifications := notifications db |}.

(** [Notification.objects.create(...)] *)
Definition add_notification (n : Notification.t) (db : Db) : Db :=
  {| users := users db; audios := audios db;
     transactions := transactions db;
     notifications := notifications db ++ [n] |}.

(** [self.save()] on a user instance loaded under key [uid]. *)
Definition save (uid : positive) (self : User.t) : Db → Db :=
  on_users <[uid := self]>.

(** Code that changes the database and may raise: every statement is
    committed on its own (Django's autocommit), so the changes made before
    an exception stay.  The exception is carried as [str(e)]. *)
Module Exc.

Definition M (A : Type) : Type := Db → Db * (string + A).

Definition ret {A} (a : A) : M A := λ db, (db, inr a).

Definition bind {A B} (m : M A) (k : A → M B) : M B :=
  λ db, match m db with
        | (db', inr a) => k a db'
        | (db', inl e) => (db', inl e)
        end.

Definition modify (f : Db → Db) : M unit := λ db, (f db, inr tt).

(** The outcome of a call into a collaborator. *)
Definition outcome {A} (o : string + A) : M A := λ db, (db, o).

End Exc.

Notation "x <- m ;; k" := (Exc.bind m (λ x, k))
  (at level 100, m at next level, right associativity).
Notation "m ;; k" := (Exc.bind m (λ _, k))
  (at level 100, right associativity).

(** [get_user_model().objects.get(id=user_id)] *)
Definition get_user (user_id : positive) : Exc.M User.t :=
  λ db, match users db !! user_id with
        | Some u => (db, inr u)
        | None => (db, inl "User matching query does not exist.")
        end.

(** [user.deduct_credits(amount)] on an instance loaded under [uid]: the
    row is written only on the branch that calls [self.save()]. *)
Definition deduct_credits (uid : positive) (self : User.t) (amount : Z)
    : Exc.M (User.t * bool) :=
  let (self', ok) := User.deduct_credits self amount in
  if ok then (Exc.modify (save uid self') ;; Exc.ret (self', true))
  else Exc.ret (self', false).

(** [user.add_credits(amount)], which always saves. *)
Definition add_credits (uid : positive) (self : User.t) (amount : Z)
    : Exc.M User.t :=
  let self' := User.add_credits self amount in
  Exc.modify (save uid self') ;; Exc.ret self'.

(** [UserRegistrationSerializer.create]: the new row gets the free-trial
    credits of the platform settings; no ledger row is written. *)
Definition register (free_trial_credits : Z) (new_id : positive)
    (db : Db) : Db :=
  save new_id {| User.credits := free_trial_credits |} db.

(** ** [tts_engine/views.py]: the background worker *)

(** What [tts_service.generate(...)] returns: the success dictionary with
    its three entries that are read, or a dictionary with
    ['success': False] whose ['error'] entry may be absent. *)
Inductive GenResult :=
| GenSuccess (audio_path : string) (file_size : Z) (duration : string)
| GenFailure (error : option string).

(** The collaborators of one run of the worker: the synthesis call and the
    artifact store either return or raise ([inl (str e)]), and the clock is
    read at the start, at the marking of the result and in the handler. *)
Record WorkerEnv := {
  generate : string + GenResult;
  storage_save : string + string;
  t_start : Z;
  t_end : Z;
  t_except : Z
}.

Import VoiceGenerationTracker.

Section Worker.

Variable env : WorkerEnv.
Variables (task_id : N) (text : string) (credits : Z).
Variable user_id : option positive.

(** The three notifications of the success branch and the one of each
    failure branch. *)
Definition notice_complete (uid : positive) : Notification.t :=
  Notification.create_notification uid "Voice Generation Complete"
    ("Your voice has been generated successfully! Generated " +:+
     str_of_Z (len text) +:+ " characters using TalkStudio.")
    "success" "/dashboard".

Definition notice_deducted (uid : positive) (user : User.t) : Notification.t :=
  Notification.create_notification uid "Credits Deducted"
    (str_of_Z credits +:+
     " credits have been deducted from your account. Remaining balance: " +:+
     str_of_Z (User.credits user) +:+ " credits.")
    "info" "/dashboard".

Definition notice_failed (uid : positive) (error_msg : string) : Notification.t :=
  Notification.create_notification uid "Voice Generation Failed"
    ("Failed to generate voice: " +:+ error_msg) "error" "/clone".

Definition notice_error (uid : positive) (e : string) : Notification.t :=
  Notification.create_notification uid "Voice Generation Error"
    ("An error occurred during voice generation: " +:+ e) "error" "/clone".

(** Lines 95-134: the debit, the ledger row and the notifications. *)
Definition charge (uid : positive) : Exc.M unit :=
  user <- get_user uid ;;
  r <- deduct_credits uid user credits ;;
  let user := r.1 in
  Exc.modify (add_transaction
    (CreditTransaction.mk uid (- credits) CreditTransaction.usage
       ("TalkStudio: " +:+ str_of_Z (len text) +:+ " chars")
       (User.credits user))) ;;
  Exc.modify (add_notification (notice_complete uid)) ;;
  Exc.modify (add_notification (notice_deducted uid user)) ;;
  if User.credits user <? 100
  then Exc.modify (add_notification
         (Notification.notify_credits_low uid (User.credits user)))
  else Exc.ret tt.

(** The body of the [try] block of [_generate_in_background]. *)
Definition try_block : Exc.M unit :=
  Exc.modify (on_audios (start_processing (t_start env) task_id)) ;;
  Exc.modify (on_audios (update_progress task_id 20)) ;;
  result <- Exc.outcome (generate env) ;;
  Exc.modify (on_audios (update_progress task_id 80)) ;;
  match result with
  | GenSuccess audio_path file_size duration =>
      saved_path <- Exc.outcome (storage_save env) ;;
      Exc.modify (on_audios
        (mark_completed (t_end env) task_id saved_path file_size duration)) ;;
      match user_id with
      | Some uid => charge uid
      | None => Exc.ret tt
      end
  | GenFailure error =>
      let error_msg := get_default error "Unknown error" in
      Exc.modify (on_audios (mark_failed (t_end env) task_id error_msg)) ;;
      match user_id with
      | Some uid =>
          _ <- get_user uid ;;
          Exc.modify (add_notification (notice_failed uid error_msg))
      | None => Exc.ret tt
      end
  end.

(** The [except Exception as e] handler; a failure to notify is logged
    and dropped. *)
Definition except_block (e : string) (db : Db) : Db :=
  let db := on_audios (mark_failed (t_except env) task_id e) db in
  match user_id with
  | Some uid =>
      match get_user uid db with
      | (_, inr _) => add_notification (notice_error uid e) db
      | (_, inl _) => db
      end
  | None => db
  end.

(** [_generate_in_background(task_id, text, ..., credits, user_id)]; the
    reference audio, speed and sampling arguments only reach the
    synthesis call and the removal of temporary files. *)
Definition _generate_in_background (db : Db) : Db :=
  match try_block db with
  | (db', inr _) => db'
  | (db', inl e) => except_block e db'
  end.

End Worker.

(** ** [tts_engine/views.py]: the submission endpoint *)

(** [settings.MAX_TEXT_LENGTH] and [settings.CREDITS_PER_CHARACTER] are
    read from the project settings, which are not part of the sources at
    hand; they are taken as given. *)
Record Settings := {
  MAX_TEXT_LENGTH : Z;
  CREDITS_PER_CHARACTER : Z
}.

(** What [generate_speech] reads of the request: the authenticated user's
    key, the posted text, the first exception (if any) raised by the
    [float(...)] and [int(...)] conversions of [speed], [pitch],
    [emotion_method] and [emotion_weight], and whether a file was uploaded
    under ['reference_audio']. *)
Record Request := {
  req_user : option positive;
  post_text : option string;
  post_conversion_error : option string;
  has_reference_audio : bool
}.

(** The collaborators of one submission. *)
Record SubmitEnv := {
  is_available : bool;
  ref_save : string + string;
  new_task_id : N;
  now : Z
}.

(** The arguments handed to [_executor.submit]. *)
Record Job := {
  job_task_id : N;
  job_text : string;
  job_credits : Z;
  job_user_id : option positive
}.

Inductive Response :=
| JsonError (http_status : Z) (error : string)
| JsonQueued (task_id : N) (estimated_time : option Z)
    (character_count credits_needed : Z).

(** [request.user if request.user.is_authenticated else None]: the session
    names a user only while its row exists. *)
Definition request_user (req : Request) (db : Db)
    : option (positive * User.t) :=
  match req_user req with
  | Some uid =>
      match users db !! uid with
      | Some u => Some (uid, u)
      | None => None
      end
  | None => None
  end.

Definition generate_speech (cfg : Settings) (env : SubmitEnv)
    (req : Request) (db : Db) : Response * Db * option Job :=
  if negb (is_available env) then
    (JsonError 503
       "TTS API service not configured. Please contact administrator.",
     db, None)
  else
    let user := request_user req db in
    let text := strip (get_default (post_text req) "") in
    match post_conversion_error req with
    | Some e => (JsonError 500 e, db, None)
    | None =>
    if len text =? 0 then (JsonError 400 "Text required", db, None)
    else if len text >? MAX_TEXT_LENGTH cfg
    then (JsonError 400 "Text too long", db, None)
    else
      let credits := len text * CREDITS_PER_CHARACTER cfg in
      if match user with
         | Some (_, u) => User.credits u <? credits
         | None => false
         end
      then (JsonError 400 "Insufficient credits", db, None)
      else if negb (has_reference_audio req)
      then (JsonError 400 "Reference audio required", db, None)
      else
        match ref_save env with
        | inl e => (JsonError 500 e, db, None)
        | inr ref_saved =>
            match create_task (new_task_id env) (now env)
                    (fst <$> user) text "custom" (audios db) with
            | inl e => (JsonError 500 e, db, None)
            | inr (task, tbl) =>
                (JsonQueued (new_task_id env) (estimated_time task)
                   (len text) credits,
                 on_audios (λ _, tbl) db,
                 Some {| job_task_id := new_task_id env;
                         job_text := text;
                         job_credits := credits;
                         job_user_id := fst <$> user |})
            end
        end
    end.

(** The worker run that the executor performs for a submitted job. *)
Definition run_job (env : WorkerEnv) (job : Job) : Db → Db :=
  _generate_in_background env (job_task_id job) (job_text job)
    (job_credits job) (job_user_id job).

(** ** Histories of tracker calls *)

(** One call of a [VoiceGenerationTracker] method that writes. *)
Inductive TrackerCall :=
| CallCreate (id : N) (now : Z) (user : option positive)
    (text voice_source : string)
| CallStart (now : Z) (task_id : N)
| CallProgress (task_id : N) (progress : Z)
| CallCompleted (now : Z) (task_id : N) (audio_file : string)
    (file_size : Z) (duration : string)
| CallFailed (now : Z) (task_id : N) (error : string).

Definition call (tbl : gmap N GeneratedAudio.t) (c : TrackerCall)
    : gmap N GeneratedAudio.t :=
  match c with
  | CallCreate id now user text voice_source =>
      match create_task id now user text voice_source tbl with
      | inr (_, tbl') => tbl'
      | inl _ => tbl
      end
  | CallStart now task_id => start_processing now task_id tbl
  | CallProgress task_id progress => update_progress task_id progress tbl
  | CallCompleted now task_id audio_file file_size duration =>
      mark_completed now task_id audio_file file_size duration tbl
  | CallFailed now task_id error => mark_failed now task_id error tbl
  end.

Definition calls (cs : list TrackerCall) (tbl : gmap N GeneratedAudio.t)
    : gmap N GeneratedAudio.t :=
  foldl call tbl cs.

(** No poller sees a task at 100 percent that is still ['processing']. *)
Definition below_100_while_processing (t : GeneratedAudio.t) : Prop :=
  status t = processing → progress t < 100.

Definition never_full_while_processing (tbl : gmap N GeneratedAudio.t) : Prop :=
  map_Forall (λ _, below_100_while_processing) tbl.

(** ** The ledger of one account *)

(** One operation on an account's balance. *)
Inductive LedgerOp :=
| Credit (amount : Z)
| Debit (amount : Z).

Definition apply_op (self : User.t) (op : LedgerOp) : User.t :=
  match op with
  | Credit amount => User.add_credits self amount
  | Debit amount => (User.deduct_credits self amount).1
  end.

(** The balance after each operation of a history, in order. *)
Fixpoint balances (self : User.t) (ops : list LedgerOp) : list Z :=
  match ops with
  | [] => []
  | op :: ops' =>
      let self' := apply_op self op in
      User.credits self' :: balances self' ops'
  end.

Definition credits_not_negative (op : LedgerOp) : Prop :=
  match op with
  | Credit amount => 0 ≤ amount
  | Debit _ => True
  end.

(** The signed amounts of an account's ledger rows, summed. *)
Definition ledger_sum (uid : positive) (txs : list CreditTransaction.t) : Z :=
  foldr (λ tx acc,
           if decide (CreditTransaction.user tx = uid)
           then CreditTransaction.amount tx + acc else acc)
        0 txs.


Definition empty_db : Db :=
  {| users := ∅; audios := ∅; transactions := []; notifications := [] |}.

(** The user a run of the worker loads for charging, if the run gets that
    far: the synthesis and the artifact store succeed, the task has an
    owner, and the owner's row exists. *)
Definition charged_user (env : WorkerEnv) (user_id : option positive)
    (db : Db) : option (positive * User.t) :=
  match generate env, storage_save env, user_id with
  | inr (GenSuccess _ _ _), inr _, Some uid =>
      match users db !! uid with
      | Some u => Some (uid, u)
      | None => None
      end
  | _, _, _ => None
  end.

(** The ledger row [_generate_in_background] writes for a charged user. *)
Definition usage_row (uid : positive) (u : User.t) (text : string)
    (credits : Z) : CreditTransaction.t :=
  CreditTransaction.mk uid (- credits) CreditTransaction.usage
    ("TalkStudio: " +:+ str_of_Z (len text) +:+ " chars")
    (User.credits (User.deduct_credits u credits).1).

(** The error text a failed synthesis call hands to the worker: [str(e)]
    of the exception, or the ['error'] entry of the result with its
    default. *)
Definition failure_text (o : string + GenResult) : option string :=
  match o with
  | inl e => Some e
  | inr (GenFailure error) => Some (get_default error "Unknown error")
  | inr (GenSuccess _ _ _) => None
  end.

(** [tts_api_service.generate] on [requests.exceptions.Timeout]. *)
Definition timeout_result (api_timeout : Z) : GenResult :=
  GenFailure (Some ("API request timed out after " +:+ str_of_Z api_timeout
                    +:+ " seconds")).

(** ** Sample data *)

(** A row to run the tracker on. *)
Definition sample_task (s : Status) (p : Z) (created : Z) : GeneratedAudio.t :=
  GeneratedAudio.mk (Some 1%positive) "hi" "custom" None s p
    (Some 40) None None "" None 0 2 2 created.

(** A task table with three pending tasks, one in flight and one done. *)
Definition sample_queue : gmap N GeneratedAudio.t :=
  <[1%N := sample_task pending 0 10]>
  (<[2%N := sample_task pending 0 20]>
  (<[3%N := sample_task processing 20 5]>
  (<[4%N := sample_task completed 100 1]>
  {[ 5%N := sample_task pending 0 30 ]}))).

Definition sample_cfg : Settings :=
  {| MAX_TEXT_LENGTH := 5000; CREDITS_PER_CHARACTER := 1 |}.

Definition sample_submit_env : SubmitEnv :=
  {| is_available := true; ref_save := inr "references/ref.wav";
     new_task_id := 7; now := 0 |}.

(** A request by user 1 (or by nobody) for eleven characters, with or
    without a reference audio. *)
Definition sample_request (user : option positive) (with_audio : bool)
    : Request :=
  {| req_user := user; post_text := Some "  hello world ";
     post_conversion_error := None; has_reference_audio := with_audio |}.

Definition sample_success : WorkerEnv :=
  {| generate := inr (GenSuccess "/tmp/out.wav" 2048 "1.5");
     storage_save := inr "voices/out.wav";
     t_start := 1; t_end := 2; t_except := 3 |}.

(** A synthesis that answers ['success': False] with an empty error text. *)
Definition sample_silent_failure : WorkerEnv :=
  {| generate := inr (GenFailure (Some ""));
     storage_save := inr "voices/out.wav";
     t_start := 1; t_end := 2; t_except := 3 |}.

(** User 1 with 1000 credits and task 7, pending. *)
Definition sample_db : Db :=
  on_audios <[7%N := sample_task pending 0 0]> (register 1000 1 empty_db).

(** The job that [generate_speech] queues for [sample_request] by user 1. *)
Definition sample_job (credits : Z) : Job :=
  {| job_task_id := 7; job_text := "hello world"; job_credits := credits;
     job_user_id := Some 1%positive |}.


(** ** The worker seen from the task table *)

(** Whether the task has an owner whose row is gone. *)
Definition owner_missing (user_id : option positive) (db : Db) : bool :=
  match user_id with
  | Some uid =>
      match users db !! uid with
      | Some _ => false
      | None => true
      end
  | None => false
  end.

Definition owner_lookup_error : string :=
  "User matching query does not exist.".

(** The tracker calls one run of [_generate_in_background] makes, in order:
    the two of the start, the one after the synthesis returned, the marking
    of the result, and the handler's [mark_failed] when something raised
    (the synthesis, the artifact store or the lookup of the owner). *)
Definition worker_calls (env : WorkerEnv) (task_id : N)
    (user_id : option positive) (db : Db) : list TrackerCall :=
  let lost_owner :=
    if owner_missing user_id db
    then [CallFailed (t_except env) task_id owner_lookup_error]
    else [] in
  [CallStart (t_start env) task_id; CallProgress task_id 20] ++
  match generate env with
  | inl e => [CallFailed (t_except env) task_id e]
  | inr (GenSuccess _ file_size duration) =>
      CallProgress task_id 80 ::
      match storage_save env with
      | inl e => [CallFailed (t_except env) task_id e]
      | inr saved_path =>
          CallCompleted (t_end env) task_id saved_path file_size duration
          :: lost_owner
      end
  | inr (GenFailure error) =>
      CallProgress task_id 80
      :: CallFailed (t_end env) task_id (get_default error "Unknown error")
      :: lost_owner
  end.

(** Whether a run ends with the task marked ['completed']. *)
Definition run_completes (env : WorkerEnv) (user_id : option positive)
    (db : Db) : bool :=
  match generate env, storage_save env with
  | inr (GenSuccess _ _ _), inr _ => negb (owner_missing user_id db)
  | _, _ => false
  end.

(** A text of five characters, all whitespace: the blank, TAB, U+00A0
    (no-break space), U+3000 (ideographic space) and U+2003 (em space), as
    the bytes of their UTF-8 encoding. *)
Definition sample_blank_text : string :=
  string_of_list_ascii
    (ascii_of_N <$> [32; 9; 194; 160; 227; 128; 128; 226; 128; 131]%N).

(** A limit of eleven characters, and a request by user 1 for an accented
    text of eleven characters between whitespace, with a reference
    audio. *)
Definition sample_cfg_max_11 : Settings :=
  {| MAX_TEXT_LENGTH := 11; CREDITS_PER_CHARACTER := 1 |}.

Definition sample_accented_request : Request :=
  {| req_user := Some 1%positive;
     post_text := Some (sample_blank_text +:+ "héllo wörld" +:+ " ");
     post_conversion_error := None; has_reference_audio := true |}.

(** A second submission, a moment later, under task id 8. *)
Definition sample_submit_env_2 : SubmitEnv :=
  {| is_available := true; ref_save := inr "references/ref2.wav";
     new_task_id := 8; now := 1 |}.

(** ** [tts_engine/tts_api_service.py] *)

Module TTSAPIService.

(** The service object: [api_url], [api_key] and [api_timeout] (an integer
    number of seconds) as read from the settings at construction. *)
Record t := mk {
  api_url : string;
  api_key : string;
  api_timeout : Z
}.

(** [self.is_available = bool(self.api_url)] *)
Definition is_available (self : t) : bool :=
  negb (String.eqb (api_url self) "").

(** The entries of a JSON object that [generate] reads; the texts are
    taken to be JSON strings, ['success'] is the truthiness of
    [result.get('success', False)], and ['duration'] is the text of a
    duration that is present and not zero. *)
Record JsonBody := {
  j_error : option string;
  j_message : option string;
  j_success : bool;
  j_audio_data : option string;
  j_audio : option string;
  j_duration : option string
}.

(** What [response.json()] gives: an object, or a value that is not one.
    On such a value the membership tests of the error branch either raise
    (a number, [null], a string or list holding the key) or find no key,
    and [result.get] raises the given [AttributeError]. *)
Inductive Json :=
| JsonObject (o : JsonBody)
| JsonOther (membership_raises : bool) (get_raises : string).

Record HttpResponse := {
  status_code : Z;
  json : string + Json;
  resp_text : string
}.

(** What [requests.post] does. *)
Inductive PostOutcome :=
| PostTimeout
| PostConnectionError
| PostRaises (e : string)
| PostResponse (r : HttpResponse).

(** What one call observes of the file system and of the API. *)
Record World := {
  ref_exists : bool;
  ref_getsize : string + Z;
  ref_base64 : option string;
  post : PostOutcome;
  output_path : string;
  decode_ok : bool;
  out_getsize : string + Z;
  sf_duration : option string
}.

(** Python truthiness of an optional string. *)
Definition nonempty (o : option string) : option string :=
  match o with
  | Some s => if String.eqb s "" then None else Some s
  | None => None
  end.

(** The error message of a response whose status is not 200. *)
Definition error_of_response (r : HttpResponse) : string :=
  let error_msg := "API returned status " +:+ str_of_Z (status_code r) in
  let from_text :=
    if String.eqb (resp_text r) "" then error_msg
    else take_chars 200 (resp_text r) in
  match json r with
  | inl _ => from_text
  | inr (JsonOther true _) => from_text
  | inr (JsonOther false _) => error_msg
  | inr (JsonObject o) =>
      match j_error o with
      | Some e => e
      | None =>
          match j_message o with
          | Some m => m
          | None => error_msg
          end
      end
  end.

Definition fail (error : string) : GenResult := GenFailure (Some error).

(** [generate(self, text, reference_audio, ...)]; the synthesis parameters
    only go into the request payload. *)
Definition generate (self : t) (w : World) (reference_audio : string)
    : GenResult :=
  if negb (is_available self)
  then fail "TTS API not configured. Set TTS_API_URL in settings."
  else if negb (ref_exists w)
  then fail ("Reference audio not found: " +:+ reference_audio)
  else
    match ref_getsize w with
    | inl e => fail ("Cannot read reference audio: " +:+ e)
    | inr file_size =>
        if file_size =? 0 then fail "Reference audio file is empty"
        else if file_size <? 1000
        then fail "Reference audio file too small. Please upload a longer audio sample."
        else
          match nonempty (ref_base64 w) with
          | None => fail "Failed to encode reference audio"
          | Some _ =>
              match post w with
              | PostTimeout => timeout_result (api_timeout self)
              | PostConnectionError => fail "Cannot connect to TTS API server"
              | PostRaises e => fail e
              | PostResponse r =>
                  if negb (status_code r =? 200)
                  then fail (error_of_response r)
                  else
                    match json r with
                    | inl e => fail e
                    | inr (JsonOther _ e) => fail e
                    | inr (JsonObject result) =>
                        if negb (j_success result)
                        then fail (get_default (j_error result)
                                     "API returned unsuccessful response")
                        else
                          match
                            match nonempty (j_audio_data result) with
                            | Some a => Some a
                            | None => nonempty (j_audio result)
                            end
                          with
                          | None => fail "No audio data in API response"
                          | Some audio_data =>
                              if negb (decode_ok w)
                              then fail "Failed to decode audio from API response"
                              else
                                match out_getsize w with
                                | inl e => fail e
                                | inr size =>
                                    let duration :=
                                      match j_duration result with
                                      | Some d => d
                                      | None => get_default (sf_duration w) "0"
                                      end in
                                    GenSuccess (output_path w) size duration
                                end
                          end
                    end
              end
          end
    end.

End TTSAPIService.

(** A configured service, a reference file of 2000 bytes and an API that
    answers with the given response. *)
Definition sample_service : TTSAPIService.t :=
  {| TTSAPIService.api_url := "https://tts.example/generate";
     TTSAPIService.api_key := ""; TTSAPIService.api_timeout := 300 |}.

Definition sample_world (p : TTSAPIService.PostOutcome) : TTSAPIService.World :=
  {| TTSAPIService.ref_exists := true;
     TTSAPIService.ref_getsize := inr 2000;
     TTSAPIService.ref_base64 := Some "UklGRg==";
     TTSAPIService.post := p;
     TTSAPIService.output_path := "/tmp/tts_output.wav";
     TTSAPIService.decode_ok := true;
     TTSAPIService.out_getsize := inr 4096;
     TTSAPIService.sf_duration := Some "2.5" |}.

Definition sample_ok_body : TTSAPIService.JsonBody :=
  {| TTSAPIService.j_error := None; TTSAPIService.j_message := None;
     TTSAPIService.j_success := true;
     TTSAPIService.j_audio_data := None;
     TTSAPIService.j_audio := Some "UklGRg==";
     TTSAPIService.j_duration := None |}.

Definition sample_response (code : Z) (body : string + TTSAPIService.Json)
    (text : string) : TTSAPIService.HttpResponse :=
  {| TTSAPIService.status_code := code; TTSAPIService.json := body;
     TTSAPIService.resp_text := text |}.

(** A worker whose synthesis call is [sample_service] on a given world. *)
Definition sample_wired (w : TTSAPIService.World) : WorkerEnv :=
  {| generate := inr (TTSAPIService.generate sample_service w "/media/ref.wav");
     storage_save := inr "voices/out.wav";
     t_start := 1; t_end := 2; t_except := 3 |}.

(** ** [accounts/views.py], [accounts/admin.py]: credits given by an
    administrator *)

Module AdminCredits.

(** An integer as Python has it at run time: [bool] is a subclass of
    [int], so [True] and [False] pass [isinstance(v, int)] and compute as 1
    and 0, but print as their names. *)
Inductive PyInt :=
| PyBool (b : bool)
| PyZ (z : Z).

Definition int_of (i : PyInt) : Z :=
  match i with
  | PyBool b => if b then 1 else 0
  | PyZ z => z
  end.

(** [str(i)] *)
Definition str_of (i : PyInt) : string :=
  match i with
  | PyBool true => "True"
  | PyBool false => "False"
  | PyZ z => str_of_Z z
  end.

(** [request.data.get('amount')]: an instance of [int], or something else
    (the key is absent, or the value is [null], a float, a string, a list or
    an object). *)
Inductive JsonValue :=
| JInt (i : PyInt)
| JOther.

(** [not amount or not isinstance(amount, int) or amount <= 0] *)
Definition invalid_amount (amount : JsonValue) : bool :=
  match amount with
  | JInt i => (int_of i =? 0) || (int_of i <=? 0)
  | JOther => true
  end.

Inductive Response :=
| Ok (message : string) (new_balance : Z)
| Error (http_status : Z) (error : string).

(** The row [ActivityLog.log_activity] inserts, without its description
    text and the address and agent of the request. *)
Record ActivityEntry := {
  action : string;
  target_user : positive;
  severity : string;
  meta_amount : Z;
  meta_old_credits : Z;
  meta_new_credits : Z
}.

(** [admin_add_credits(request, user_id)] for a request that passed the
    permission classes; [admin_email] is [request.user.email]. *)
Definition admin_add_credits (admin_email : string) (amount : JsonValue)
    (user_id : positive) (db : Db) : Response * Db * option ActivityEntry :=
  match users db !! user_id with
  | None => (Error 404 "User not found", db, None)
  | Some user =>
      match amount with
      | JOther =>
          (Error 400 "Invalid amount. Must be a positive integer", db, None)
      | JInt i =>
          if invalid_amount amount
          then (Error 400 "Invalid amount. Must be a positive integer",
                db, None)
          else
            let old_credits := User.credits user in
            let user := User.add_credits user (int_of i) in
            let db := save user_id user db in
            let db := add_transaction
                        (CreditTransaction.mk user_id (int_of i)
                           CreditTransaction.bonus
                           ("Credits added by admin " +:+ admin_email)
                           (User.credits user)) db in
            (Ok (str_of i +:+ " credits added successfully")
                (User.credits user),
             db,
             Some {| action := "credits_added"; target_user := user_id;
                     severity := "low"; meta_amount := int_of i;
                     meta_old_credits := old_credits;
                     meta_new_credits := User.credits user |})
      end
  end.

(** [for user in queryset]: the queryset is given by the selected keys,
    each once; the rows are read once, when the loop starts, and a selected
    key without a row is not in the queryset. *)
Definition fetch (queryset : list positive) (db : Db)
    : list (positive * User.t) :=
  omap (λ uid, pair uid <$> users db !! uid) queryset.

(** [queryset.count()] *)
Definition count (queryset : list positive) (db : Db) : Z :=
  Z.of_nat (length (fetch queryset db)).

(** The admin actions [add_credits_100], [add_credits_500] and
    [add_credits_1000]: the database after the loop and the text handed to
    [message_user]. *)
Definition add_credits_100 (queryset : list positive) (db : Db)
    : Db * string :=
  let db := foldl (λ db '(uid, user),
                     save uid (User.add_credits user 100) db)
                  db (fetch queryset db) in
  (db, "Added 100 credits to " +:+ str_of_Z (count queryset db)
       +:+ " user(s).").

Definition add_credits_500 (queryset : list positive) (db : Db)
    : Db * string :=
  let db := foldl (λ db '(uid, user),
                     save uid (User.add_credits user 500) db)
                  db (fetch queryset db) in
  (db, "Added 500 credits to " +:+ str_of_Z (count queryset db)
       +:+ " user(s).").

Definition add_credits_1000 (queryset : list positive) (db : Db)
    : Db * string :=
  let db := foldl (λ db '(uid, user),
                     save uid (User.add_credits user 1000) db)
                  db (fetch queryset db) in
  (db, "Added 1000 credits to " +:+ str_of_Z (count queryset db)
       +:+ " user(s).").

(** The admin action [remove_credits_100]. *)
Definition remove_credits_100 (queryset : list positive) (db : Db)
    : Db * string :=
  let db := foldl (λ db '(uid, user),
                     if User.credits user >=? 100
                     then (deduct_credits uid user 100 db).1
                     else db)
                  db (fetch queryset db) in
  (db, "Removed 100 credits from " +:+ str_of_Z (count queryset db)
       +:+ " user(s).").

End AdminCredits.

(** Users 1, 2 and 3 with 1000, 40 and 100 credits. *)
Definition sample_accounts : Db :=
  register 100 3 (register 40 2 (register 1000 1 empty_db)).

(** ** [payments/views.py]: the Stripe webhook *)

(** [payments.models.Payment]: the columns the webhook reads or writes. *)
Module Payment.

Inductive Status := pending | processing | completed | failed | refunded.

#[global] Instance Status_eq_dec : EqDecision Status.
Proof. solve_decision. Defined.

Record t := mk {
  user : positive;
  payment_method : string;
  status : Status;
  credits_awarded : Z;
  completed_at : option Z
}.

End Payment.

Module StripeWebhookView.

(** The tables of the payments application beside the others: the
    payments that have a [transaction_id], keyed by this column (it is
    [unique=True], and a payment without one is not found by the lookup
    below), and the log of received events with its [payment_method] and
    [event_type] columns. *)
Record Shop := {
  db : Db;
  payments : gmap string Payment.t;
  webhooks : list (string * string)
}.

(** What the view reads of a verified event: [event['type']] and
    [event['data']['object']['id']]. *)
Record Event := {
  event_type : string;
  object_id : string
}.

(** [stripe.Webhook.construct_event(...)]: it raises [ValueError], raises
    something else, or returns the event. *)
Inductive Constructed :=
| InvalidPayload
| InvalidSignature
| Verified (event : Event).

Inductive Response :=
| Success
| BadRequest (error : string).

(** [_handle_successful_payment(payment_intent)]: [Payment.DoesNotExist] is
    caught; a payment whose user row is gone makes [payment.user] raise,
    which is not. *)
Definition _handle_successful_payment (now : Z) (payment_intent_id : string)
    (s : Shop) : Shop * (string + unit) :=
  match payments s !! payment_intent_id with
  | Some payment =>
      if decide (Payment.status payment = Payment.pending) then
        let payment' :=
          Payment.mk (Payment.user payment) (Payment.payment_method payment)
            Payment.completed (Payment.credits_awarded payment) (Some now) in
        let s := {| db := db s;
                    payments := <[payment_intent_id := payment']> (payments s);
                    webhooks := webhooks s |} in
        let uid := Payment.user payment' in
        match users (db s) !! uid with
        | None => (s, inl "Payment has no user.")
        | Some user =>
            let user := User.add_credits user (Payment.credits_awarded payment') in
            let db' :=
              add_transaction
                (CreditTransaction.mk uid (Payment.credits_awarded payment')
                   CreditTransaction.purchase
                   ("Credit purchase via " +:+ Payment.payment_method payment')
                   (User.credits user))
                (save uid user (db s)) in
            ({| db := db'; payments := payments s; webhooks := webhooks s |},
             inr tt)
        end
      else (s, inr tt)
  | None => (s, inr tt)
  end.

(** [StripeWebhookView.post]: the response, or the exception that leaves
    the view. *)
Definition post (now : Z) (constructed : Constructed) (s : Shop)
    : Shop * (string + Response) :=
  match constructed with
  | InvalidPayload => (s, inr (BadRequest "Invalid payload"))
  | InvalidSignature => (s, inr (BadRequest "Invalid signature"))
  | Verified event =>
      let s := {| db := db s; payments := payments s;
                  webhooks := webhooks s ++ [("stripe", event_type event)] |} in
      if String.eqb (event_type event) "payment_intent.succeeded" then
        match _handle_successful_payment now (object_id event) s with
        | (s, inr _) => (s, inr Success)
        | (s, inl e) => (s, inl e)
        end
      else (s, inr Success)
  end.

End StripeWebhookView.

(** User 1 with 1000 credits and a pending Stripe payment of 500 credits. *)
Definition sample_shop : StripeWebhookView.Shop :=
  {| StripeWebhookView.db := sample_db;
     StripeWebhookView.payments :=
       {[ "pi_1" := Payment.mk 1 "stripe" Payment.pending 500 None ]};
     StripeWebhookView.webhooks := [] |}.

Definition sample_event : StripeWebhookView.Event :=
  {| StripeWebhookView.event_type := "payment_intent.succeeded";
     StripeWebhookView.object_id := "pi_1" |}.

(** ** [voices/views.py]: recording an audio that was generated elsewhere *)

Module Gradio.

(** [c.isalpha()] on the ASCII range: the letters. *)
Definition isalpha (ch : string) : bool :=
  match code_point ch with
  | Some cp => (((65 <=? cp) && (cp <=? 90)) || ((97 <=? cp) && (cp <=? 122)))%N
  | None => false
  end.

(** [len(text.split())]: the number of maximal runs of characters that are
    not whitespace; [in_word] tells whether the character before was part
    of one. *)
Fixpoint count_words (in_word : bool) (cs : list string) : Z :=
  match cs with
  | [] => 0
  | ch :: cs' =>
      if isspace ch then count_words false cs'
      else (if in_word then 0 else 1) + count_words true cs'
  end.

(** [sum(c.isalpha() for c in text)] *)
Fixpoint count_letters (cs : list string) : Z :=
  match cs with
  | [] => 0
  | ch :: cs' => (if isalpha ch then 1 else 0) + count_letters cs'
  end.

(** The two columns of [PlatformSettings] that the endpoint reads. *)
Record PlatformSettings := {
  credit_calculation_type : string;
  credits_per_unit : Z
}.

(** [units_count] and [unit_name] *)
Definition units (platform_settings : PlatformSettings) (text : string)
    : Z * string :=
  if String.eqb (credit_calculation_type platform_settings) "per_character"
  then (len text, "characters")
  else if String.eqb (credit_calculation_type platform_settings) "per_word"
  then (count_words false (chars text), "words")
  else if String.eqb (credit_calculation_type platform_settings) "per_letter"
  then (count_letters (chars text), "letters")
  else (len text, "characters").

(** The [X-User-ID] header: absent or empty, a text that the lookup by
    [id] cannot convert to a number (it raises, with the given text), or a
    number. *)
Inductive UserIdHeader :=
| NoHeader
| NotANumber (error : string)
| HeaderId (id : Z).

Record Request := {
  session_user : option positive;
  x_user_id : UserIdHeader;
  data_text : option string;
  data_audio_file_path : option string
}.

(** The file system and the clock: whether the path exists, its size, the
    duration if it could be measured, the name under the media directory
    that the copy got (or the exception of [makedirs] or [copy2]), and the
    key and the creation time of the new row. *)
Record Env := {
  path_exists : bool;
  getsize : string + Z;
  measured_duration : option string;
  copied_to : string + string;
  new_audio_id : N;
  created : Z
}.

Inductive Response :=
| Created (audio_id : N) (credits_used credits_remaining units_used : Z)
    (unit_type : string)
| Refused (error : string) (credits_needed credits_available : Z)
| Error (http_status : Z) (error : string).

(** [Notification.notify_audio_generated(user, text_length)] *)
Definition notify_audio_generated (user : positive) (text_length : Z)
    : Notification.t :=
  Notification.create_notification user "Audio Generated"
    ("Your audio has been successfully generated (" +:+
     str_of_Z text_length +:+ " characters).")
    "success" "/my-audios".

(** The user of the request: the one of the session (which names a user
    only while its row exists), else the one the header names.  [inl] is an
    exception that leaves the view. *)
Definition find_user (req : Request) (db : Db)
    : string + (Response + positive * User.t) :=
  match uid ← session_user req; pair uid <$> users db !! uid with
  | Some (uid, user) => inr (inr (uid, user))
  | None =>
      match x_user_id req with
      | NoHeader => inr (inl (Error 401 "Not authenticated"))
      | NotANumber e => inl e
      | HeaderId (Zpos uid) =>
          match users db !! uid with
          | Some user => inr (inr (uid, user))
          | None => inr (inl (Error 404 "User not found"))
          end
      | HeaderId _ => inr (inl (Error 404 "User not found"))
      end
  end.

(** The body of the [try] block, from the check of the file to the
    response. *)
Definition record_audio (env : Env) (uid : positive) (user : User.t)
    (text : string) (units_count : Z) (unit_name : string)
    (credits_needed : Z) : Exc.M Response :=
  if negb (path_exists env)
  then Exc.ret (Error 404 "Audio file not found on server")
  else
    file_size <- Exc.outcome (getsize env) ;;
    audio_file <- Exc.outcome (copied_to env) ;;
    _ <- (λ db,
            match audios db !! new_audio_id env with
            | Some _ => (db, inl "UNIQUE constraint failed")
            | None =>
                (on_audios
                   <[new_audio_id env :=
                       GeneratedAudio.mk (Some uid) text "custom"
                         (Some audio_file) pending 0 None None None ""
                         (measured_duration env) file_size
                         units_count credits_needed (created env)]> db,
                 inr tt)
            end) ;;
    r <- deduct_credits uid user credits_needed ;;
    let user := r.1 in
    Exc.modify (add_transaction
      (CreditTransaction.mk uid (- credits_needed) CreditTransaction.usage
         ("Generated audio from Gradio (" +:+ str_of_Z units_count +:+ " "
          +:+ unit_name +:+ ", " +:+ str_of_Z credits_needed +:+ " credits)")
         (User.credits user))) ;;
    Exc.modify (add_notification (notify_audio_generated uid units_count)) ;;
    Exc.ret (Created (new_audio_id env) credits_needed (User.credits user)
               units_count unit_name).

(** [generate_audio_from_gradio(request)] *)
Definition generate_audio_from_gradio (platform_settings : PlatformSettings)
    (env : Env) (req : Request) (db : Db) : Db * (string + Response) :=
  match find_user req db with
  | inl e => (db, inl e)
  | inr (inl response) => (db, inr response)
  | inr (inr (uid, user)) =>
      let text := get_default (data_text req) "" in
      let audio_file_path := get_default (data_audio_file_path req) "" in
      if (len text =? 0) || (len audio_file_path =? 0)
      then (db, inr (Error 400
                       "Missing required fields: text and audio_file_path"))
      else
        let '(units_count, unit_name) := units platform_settings text in
        let credits_needed :=
          units_count * credits_per_unit platform_settings in
        if User.credits user <? credits_needed
        then (db, inr (Refused
                         ("Insufficient credits. You need " +:+
                          str_of_Z credits_needed +:+ " credits but have " +:+
                          str_of_Z (User.credits user) +:+ ".")
                         credits_needed (User.credits user)))
        else
          match record_audio env uid user text units_count unit_name
                  credits_needed db with
          | (db', inr response) => (db', inr response)
          | (db', inl e) =>
              (db', inr (Error 500 ("An error occurred: " +:+ e)))
          end
  end.

End Gradio.

Definition sample_per_word : Gradio.PlatformSettings :=
  {| Gradio.credit_calculation_type := "per_word";
     Gradio.credits_per_unit := 10 |}.

Definition sample_gradio_env : Gradio.Env :=
  {| Gradio.path_exists := true; Gradio.getsize := inr 2048;
     Gradio.measured_duration := Some "1.5";
     Gradio.copied_to := inr "generated_audio/2024/01/01/a.wav";
     Gradio.new_audio_id := 9; Gradio.created := 4 |}.

Definition sample_gradio_request : Gradio.Request :=
  {| Gradio.session_user := None; Gradio.x_user_id := Gradio.HeaderId 1;
     Gradio.data_text := Some "  hello   wide world ";
     Gradio.data_audio_file_path := Some "/tmp/gradio/out.wav" |}.

(** ** [accounts/models.py]: the plan of an account *)

(** The columns of [accounts.models.User] that describe the plan, beside
    the credit column of [User.t]; [subscription_plan] holds the
    [max_voice_clones] of the plan row it points to. *)
Module Account.

Record t := mk {
  is_staff : bool;
  is_superuser : bool;
  subscription_type : string;
  subscription_plan : option Z;
  subscription_end_date : option Z;
  free_voice_clones_used : Z
}.

(** [has_active_subscription(self)] at the time [now]. *)
Definition has_active_subscription (now : Z) (self : t) : bool :=
  if String.eqb (subscription_type self) "free" then false
  else match subscription_end_date self with
       | Some end_date => end_date >? now
       | None => false
       end.

(** [can_clone_voice(self)]; [free_trial_voice_clones] is the column of the
    platform settings. *)
Definition can_clone_voice (free_trial_voice_clones : Z) (self : t) : bool :=
  if String.eqb (subscription_type self) "free"
  then free_voice_clones_used self <? free_trial_voice_clones
  else true.

(** [can_use_api(self)] *)
Definition can_use_api (self : t) : bool :=
  String.eqb (subscription_type self) "pro"
  || String.eqb (subscription_type self) "yearly".

(** [get_max_voice_clones(self)]; -1 stands for no limit. *)
Definition get_max_voice_clones (free_trial_voice_clones : Z) (self : t) : Z :=
  match subscription_plan self with
  | Some max_voice_clones => max_voice_clones
  | None =>
      if String.eqb (subscription_type self) "free"
      then free_trial_voice_clones
      else -1
  end.

End Account.

(** ** [voices/views.py]: cloning a voice *)

Module ClonedVoiceViewSet.

(** [voices.models.ClonedVoice], without its image column, which the
    model's [save] may replace by a compressed copy. *)
Record ClonedVoice := {
  voice_user : positive;
  voice_name : string;
  voice_audio_file : string;
  voice_duration : string;
  voice_file_size : Z;
  voice_is_active : bool
}.

Record Studio := {
  accounts : gmap positive Account.t;
  cloned_voices : gmap N ClonedVoice
}.

(** What one [create] request meets: the serializer's verdict (the name and
    whether an image was uploaded, or the validation error), the file names
    the audio and the image were written under (or the exception of the
    write), the measured duration and size (or the exception that leaves
    the measuring block), and the key of the new row. *)
Record CreateEnv := {
  validated : string + string * bool;
  audio_written : string + string;
  image_written : string + string;
  measured : string + string * Z;
  new_voice_id : N
}.

Inductive Response :=
| Created (voice_id : N)
| Deleted
| Forbidden (error : string)
| Invalid (error : string)
| NotFound.

(** [create(self, request)] for the authenticated user under key [uid];
    [inl] is an exception that leaves the view. *)
Definition create (free_trial_voice_clones : Z) (env : CreateEnv)
    (uid : positive) (user : Account.t) (s : Studio)
    : Studio * (string + Response) :=
  if negb (Account.is_staff user || Account.is_superuser user)
     && negb (Account.can_clone_voice free_trial_voice_clones user)
  then (s, inr (Forbidden
          "You have reached the maximum number of voice clones for your plan. Please upgrade."))
  else
    match validated env with
    | inl e => (s, inr (Invalid e))
    | inr (name, has_image) =>
        match audio_written env with
        | inl e => (s, inl e)
        | inr filename =>
            match (if has_image then image_written env else inr "") with
            | inl e => (s, inl e)
            | inr _ =>
                match measured env with
                | inl e => (s, inl e)
                | inr (duration, file_size) =>
                    match cloned_voices s !! new_voice_id env with
                    | Some _ => (s, inl "UNIQUE constraint failed")
                    | None =>
                        let voice :=
                          {| voice_user := uid; voice_name := name;
                             voice_audio_file := "cloned_voices/" +:+ filename;
                             voice_duration := duration;
                             voice_file_size := file_size;
                             voice_is_active := true |} in
                        let voices :=
                          <[new_voice_id env := voice]> (cloned_voices s) in
                        let accounts' :=
                          if String.eqb (Account.subscription_type user) "free"
                          then <[uid :=
                                   Account.mk (Account.is_staff user)
                                     (Account.is_superuser user)
                                     (Account.subscription_type user)
                                     (Account.subscription_plan user)
                                     (Account.subscription_end_date user)
                                     (Account.free_voice_clones_used user + 1)]>
                                 (accounts s)
                          else accounts s in
                        ({| accounts := accounts'; cloned_voices := voices |},
                         inr (Created (new_voice_id env)))
                    end
                end
            end
        end
    end.

(** [destroy(self, request, pk)]: [get_object()] looks the key up among the
    user's active voices. *)
Definition destroy (pk : N) (uid : positive) (s : Studio)
    : Studio * (string + Response) :=
  match cloned_voices s !! pk with
  | Some voice =>
      if bool_decide (voice_user voice = uid) && voice_is_active voice
      then ({| accounts := accounts s;
               cloned_voices :=
                 <[pk := {| voice_user := voice_user voice;
                            voice_name := voice_name voice;
                            voice_audio_file := voice_audio_file voice;
                            voice_duration := voice_duration voice;
                            voice_file_size := voice_file_size voice;
                            voice_is_active := false |}]>
                   (cloned_voices s) |},
            inr Deleted)
      else (s, inr NotFound)
  | None => (s, inr NotFound)
  end.

(** A request of the user under key [uid], and the requests of a session,
    served one after the other; a user whose row is gone is not
    authenticated and is turned away before the view. *)
Inductive Call :=
| CallCreate (env : CreateEnv)
| CallDestroy (pk : N).

Definition serve (free_trial_voice_clones : Z) (uid : positive)
    (call : Call) (s : Studio) : Studio * option (string + Response) :=
  match accounts s !! uid with
  | None => (s, None)
  | Some user =>
      let r := match call with
               | CallCreate env => create free_trial_voice_clones env uid user s
               | CallDestroy pk => destroy pk uid s
               end in
      (r.1, Some r.2)
  end.

Fixpoint serve_all (free_trial_voice_clones : Z) (uid : positive)
    (calls : list Call) (s : Studio)
    : Studio * list (option (string + Response)) :=
  match calls with
  | [] => (s, [])
  | call :: calls' =>
      let r := serve free_trial_voice_clones uid call s in
      let rs := serve_all free_trial_voice_clones uid calls' r.1 in
      (rs.1, r.2 :: rs.2)
  end.

(** The number of ['201'] answers among the answers of a session. *)
Definition is_created (answer : option (string + Response)) : bool :=
  match answer with
  | Some (inr (Created _)) => true
  | _ => false
  end.

Fixpoint created_count (answers : list (option (string + Response))) : Z :=
  match answers with
  | [] => 0
  | answer :: answers' =>
      (if is_created answer then 1 else 0) + created_count answers'
  end.

End ClonedVoiceViewSet.

(** A free account that has used none of its clones. *)
Definition sample_free_account : Account.t :=
  Account.mk false false "free" None None 0.

Definition sample_studio : ClonedVoiceViewSet.Studio :=
  {| ClonedVoiceViewSet.accounts := {[ 1%positive := sample_free_account ]};
     ClonedVoiceViewSet.cloned_voices := ∅ |}.

Definition sample_create_env (id : N) : ClonedVoiceViewSet.CreateEnv :=
  {| ClonedVoiceViewSet.validated := inr ("my voice", false);
     ClonedVoiceViewSet.audio_written := inr "a.wav";
     ClonedVoiceViewSet.image_written := inr "a.png";
     ClonedVoiceViewSet.measured := inr ("10.0", 4096);
     ClonedVoiceViewSet.new_voice_id := id |}.

(** ** Histories of requests that touch the credits *)

(** The four admin actions on the balance. *)
Inductive BulkAction := Add100 | Add500 | Add1000 | Remove100.

Definition bulk (action : BulkAction)
    : list positive → Db → Db * string :=
  match action with
  | Add100 => AdminCredits.add_credits_100
  | Add500 => AdminCredits.add_credits_500
  | Add1000 => AdminCredits.add_credits_1000
  | Remove100 => AdminCredits.remove_credits_100
  end.

(** One request or job, with what it meets. *)
Inductive Operation :=
| OpSubmit (cfg : Settings) (env : SubmitEnv) (req : Request)
| OpRun (env : WorkerEnv) (job : Job)
| OpRecord (platform_settings : Gradio.PlatformSettings) (env : Gradio.Env)
    (req : Gradio.Request)
| OpAdminAdd (admin_email : string) (amount : AdminCredits.JsonValue)
    (user_id : positive)
| OpBulk (action : BulkAction) (queryset : list positive).

(** The database after one operation, and after a history of them. *)
Definition perform (db : Db) (op : Operation) : Db :=
  match op with
  | OpSubmit cfg env req => (generate_speech cfg env req db).1.2
  | OpRun env job => run_job env job db
  | OpRecord platform_settings env req =>
      (Gradio.generate_audio_from_gradio platform_settings env req db).1
  | OpAdminAdd admin_email amount user_id =>
      (AdminCredits.admin_add_credits admin_email amount user_id db).1.2
  | OpBulk action queryset => (bulk action queryset db).1
  end.

Definition perform_all (ops : list Operation) (db : Db) : Db :=
  foldl perform db ops.

Definition no_negative_balance (db : Db) : Prop :=
  map_Forall (λ _ user, 0 ≤ User.credits user) (users db).

(** What the ledger does not explain of an account's balance: the balance
    minus the sum of the account's ledger rows. *)
Definition unexplained (db : Db) (uid : positive) : option Z :=
  (λ user, User.credits user - ledger_sum uid (transactions db))
    <$> users db !! uid.

(** An operation that writes down what it does to the balance, in the
    database it meets: a worker run whose debit, if it gets as far, is
    covered by the balance, and every operation other than a bulk action
    that selects an existing account. *)
Definition recorded (db : Db) (op : Operation) : Prop :=
  match op with
  | OpRun env job =>
      match charged_user env (job_user_id job) db with
      | Some (_, user) => job_credits job ≤ User.credits user
      | None => True
      end
  | OpBulk _ queryset => AdminCredits.fetch queryset db = []
  | _ => True
  end.

Fixpoint all_recorded (ops : list Operation) (db : Db) : Prop :=
  match ops with
  | [] => True
  | op :: ops' => recorded db op ∧ all_recorded ops' (perform db op)
  end.

(** ** [tts_engine/views.py]: the temporary files of a run *)






(** * Properties *)

(** Unfolds one run of the worker down to the case analysis on what its
    collaborators answered. *)
Ltac run_worker :=
  unfold _generate_in_background, try_block, except_block, charge,
    deduct_credits, get_user, Exc.bind, Exc.modify, Exc.outcome, Exc.ret;
  simpl.

(** Splits a run of the worker into its cases: what the synthesis and the
    store answered, whether there is an owner and whether its row exists,
    and the tests on the balance. *)
Ltac worker_cases :=
  repeat (simpl;
    match goal with
    | |- context [match generate ?e with _ => _ end] =>
        destruct (generate e) as [?|[? ? ?|?]] eqn:?
    | |- context [match storage_save ?e with _ => _ end] =>
        destruct (storage_save e) eqn:?
    | |- context [match users ?d !! ?i with _ => _ end] =>
        destruct (users d !! i) eqn:?
    | |- context [match ?o with Some _ => _ | None => _ end] =>
        is_var o; destruct o
    | |- context [if ?c then _ else _] => destruct c eqn:?
    end).

(** ** The tracker's updates, row by row *)

Section TrackerLemmas.

Implicit Types (tbl : gmap N GeneratedAudio.t) (tid : N).

Lemma lookup_start_processing now tid tbl :
  start_processing now tid tbl !! tid = set_processing now <$> tbl !! tid.
Proof. unfold start_processing. by rewrite lookup_alter_eq. Qed.

Lemma lookup_update_progress tid p tbl :
  update_progress tid p tbl !! tid
  = set_progress (Z.min p 99) <$> tbl !! tid.
Proof. unfold update_progress. by rewrite lookup_alter_eq. Qed.

Lemma lookup_mark_completed now tid file size dur tbl :
  mark_completed now tid file size dur tbl !! tid
  = set_completed now file size dur <$> tbl !! tid.
Proof. unfold mark_completed. by rewrite lookup_alter_eq. Qed.

Lemma lookup_mark_failed now tid error tbl :
  mark_failed now tid error tbl !! tid = set_failed now error <$> tbl !! tid.
Proof. unfold mark_failed. by rewrite lookup_alter_eq. Qed.

Lemma start_processing_missing now tid tbl :
  tbl !! tid = None → start_processing now tid tbl = tbl.
Proof.
  intros Hnone. apply map_eq. intros j. unfold start_processing.
  destruct (decide (tid = j)) as [<-|Hne].
  - by rewrite lookup_alter_eq, Hnone.
  - by rewrite lookup_alter_ne.
Qed.

End TrackerLemmas.

(** ** Claiming a task *)

(** C4, as stated, fails: a second claim on a task that is already
    ['processing'] overwrites its start timestamp, and a claim on a
    ['completed'] task moves it back to ['processing']. *)
Lemma C4_claim_is_not_guarded :
  let tbl : gmap N GeneratedAudio.t := {[ 7%N := sample_task pending 0 0 ]} in
  let once := start_processing 5 7 tbl in
  let twice := start_processing 9 7 once in
  started_at <$> once !! 7%N = Some (Some 5)
  ∧ started_at <$> twice !! 7%N = Some (Some 9)
  ∧ twice ≠ once
  ∧ status <$> start_processing 5 7 {[ 7%N := sample_task completed 100 0 ]} !! 7%N
    = Some processing.
Proof.
  cbv zeta. repeat split; by vm_compute.
Qed.

(** C4, amended: [start_processing] sets the status of the task with the
    given id to ['processing'], records the start timestamp and sets the
    progress to 10 whatever the current status is; a repeated claim applies
    the same update again, with the new timestamp. *)
Theorem C4_start_processing_overwrites
    (now now' : Z) (tid : N) (tbl : gmap N GeneratedAudio.t)
    (task : GeneratedAudio.t) :
  tbl !! tid = Some task →
  ∃ task',
    start_processing now tid tbl !! tid = Some task'
    ∧ status task' = processing
    ∧ started_at task' = Some now
    ∧ progress task' = 10
    ∧ start_processing now' tid (start_processing now tid tbl) !! tid
      = Some (set_processing now' task).
Proof.
  intros Hin. exists (set_processing now task).
  rewrite !lookup_start_processing, Hin. by repeat split.
Qed.

Lemma C4_start_processing_overwrites_witness :
  ∃ task',
    start_processing 5 7 {[ 7%N := sample_task failed 40 0 ]} !! 7%N = Some task'
    ∧ status task' = processing
    ∧ started_at task' = Some 5
    ∧ progress task' = 10
    ∧ start_processing 9 7
        (start_processing 5 7 {[ 7%N := sample_task failed 40 0 ]}) !! 7%N
      = Some (set_processing 9 (sample_task failed 40 0)).
Proof.
  apply (C4_start_processing_overwrites 5 9 7 _ (sample_task failed 40 0)).
  reflexivity.
Defined.

(** ** Terminal states *)

(** C5, as stated, fails: [mark_failed] turns a ['completed'] task into a
    ['failed'] one, [mark_completed] turns a ['failed'] task into a
    ['completed'] one, and [start_processing] reopens a ['completed'] task. *)
Lemma C5_terminal_status_is_overwritten :
  let done : gmap N GeneratedAudio.t := {[ 7%N := sample_task completed 100 0 ]} in
  let lost : gmap N GeneratedAudio.t := {[ 7%N := sample_task failed 20 0 ]} in
  status <$> mark_failed 9 7 "late" done !! 7%N = Some failed
  ∧ status <$> mark_completed 9 7 "a.wav" 1 "1.0" lost !! 7%N = Some completed
  ∧ status <$> start_processing 9 7 done !! 7%N = Some processing.
Proof. cbv zeta. repeat split; by vm_compute. Qed.

(** C5, amended: on a task in a terminal state, [update_progress] leaves
    the stored status as it is, while [start_processing], [mark_completed]
    and [mark_failed] overwrite it with ['processing'], ['completed'] and
    ['failed']. *)
Theorem C5_status_after_call_on_terminal_task
    (now : Z) (tid : N) (tbl : gmap N GeneratedAudio.t)
    (task : GeneratedAudio.t) (p : Z) (file : string) (size : Z)
    (dur error : string) :
  tbl !! tid = Some task →
  status task = completed ∨ status task = failed →
  status <$> update_progress tid p tbl !! tid = Some (status task)
  ∧ status <$> start_processing now tid tbl !! tid = Some processing
  ∧ status <$> mark_completed now tid file size dur tbl !! tid = Some completed
  ∧ status <$> mark_failed now tid error tbl !! tid = Some failed.
Proof.
  intros Hin _.
  rewrite lookup_update_progress, lookup_start_processing,
    lookup_mark_completed, lookup_mark_failed, Hin.
  by repeat split.
Qed.

Lemma C5_status_after_call_on_terminal_task_witness :
  let tbl : gmap N GeneratedAudio.t := {[ 7%N := sample_task completed 100 0 ]} in
  status <$> update_progress 7 50 tbl !! 7%N = Some completed
  ∧ status <$> start_processing 9 7 tbl !! 7%N = Some processing
  ∧ status <$> mark_completed 9 7 "a.wav" 1 "1.0" tbl !! 7%N = Some completed
  ∧ status <$> mark_failed 9 7 "late" tbl !! 7%N = Some failed.
Proof.
  cbv zeta.
  apply (C5_status_after_call_on_terminal_task 9 7 _
           (sample_task completed 100 0) 50 "a.wav" 1 "1.0" "late").
  - reflexivity.
  - left. reflexivity.
Defined.

(** ** Progress updates *)

Section ProgressInvariant.

Implicit Types (tbl : gmap N GeneratedAudio.t) (tid : N).

Lemma never_full_alter (f : GeneratedAudio.t → GeneratedAudio.t) tid tbl :
  (∀ t, below_100_while_processing t → below_100_while_processing (f t)) →
  never_full_while_processing tbl →
  never_full_while_processing (alter f tid tbl).
Proof.
  intros Hf Hinv j x Hj.
  destruct (decide (tid = j)) as [<-|Hne].
  - rewrite lookup_alter_eq in Hj.
    destruct (tbl !! tid) as [t|] eqn:Ht; simplify_eq/=.
    apply Hf. by apply (Hinv tid).
  - rewrite lookup_alter_ne in Hj by done. by apply (Hinv j).
Qed.

Lemma never_full_call (c : TrackerCall) tbl :
  never_full_while_processing tbl →
  never_full_while_processing (call tbl c).
Proof.
  intros Hinv. destruct c; simpl.
  - unfold create_task. destruct (tbl !! id) eqn:Hid; [done|].
    apply map_Forall_insert_2; [|done]. intros Hst. discriminate Hst.
  - apply never_full_alter; [|done]. intros t _ _. simpl. lia.
  - apply never_full_alter; [|done]. intros t _ _. simpl. lia.
  - apply never_full_alter; [|done]. intros t _ Hst. discriminate Hst.
  - apply never_full_alter; [|done]. intros t _ Hst. discriminate Hst.
Qed.

Lemma never_full_calls (cs : list TrackerCall) tbl :
  never_full_while_processing tbl →
  never_full_while_processing (calls cs tbl).
Proof.
  unfold calls. revert tbl.
  induction cs as [|c cs IH]; intros tbl Hinv; simpl; [done|].
  apply IH. by apply never_full_call.
Qed.

End ProgressInvariant.

(** C6, as stated, fails: on a task that is still ['pending'] the update is
    applied, and a negative percentage is stored as it is. *)
Lemma C6_update_progress_unguarded_and_unclamped_below :
  let tbl : gmap N GeneratedAudio.t := {[ 7%N := sample_task pending 0 0 ]} in
  status <$> tbl !! 7%N = Some pending
  ∧ progress <$> tbl !! 7%N = Some 0
  ∧ progress <$> update_progress 7 (-5) tbl !! 7%N = Some (-5)
  ∧ ¬ (0 ≤ -5 ≤ 99).
Proof. cbv zeta. repeat split; try by vm_compute. lia. Qed.

(** C6, amended: [update_progress] applies in every status, stores
    [min(percent, 99)] (at most 99, and within 0..99 for a percentage that
    is not negative) and leaves the status alone; and after any history of
    tracker calls no task is ['processing'] with progress 100. *)
Theorem C6_update_progress_caps_at_99
    (cs : list TrackerCall) (tid : N) (p : Z)
    (tbl : gmap N GeneratedAudio.t) (task : GeneratedAudio.t) :
  tbl !! tid = Some task →
  never_full_while_processing tbl →
  ∃ task',
    update_progress tid p tbl !! tid = Some task'
    ∧ progress task' = Z.min p 99
    ∧ progress task' ≤ 99
    ∧ (0 ≤ p → 0 ≤ progress task')
    ∧ status task' = status task
    ∧ never_full_while_processing (calls cs tbl).
Proof.
  intros Hin Hinv. exists (set_progress (Z.min p 99) task).
  rewrite lookup_update_progress, Hin. simpl.
  repeat split; try lia. by apply never_full_calls.
Qed.

Lemma C6_update_progress_caps_at_99_witness :
  ∃ task',
    update_progress 7 150 {[ 7%N := sample_task processing 10 0 ]} !! 7%N
    = Some task'
    ∧ progress task' = Z.min 150 99
    ∧ progress task' ≤ 99
    ∧ (0 ≤ 150 → 0 ≤ progress task')
    ∧ status task' = status (sample_task processing 10 0)
    ∧ never_full_while_processing
        (calls [CallProgress 7 100; CallCompleted 3 7 "a.wav" 1 "1.0"]
           {[ 7%N := sample_task processing 10 0 ]}).
Proof.
  apply (C6_update_progress_caps_at_99 _ 7 150 _ (sample_task processing 10 0)).
  - reflexivity.
  - apply map_Forall_singleton. intros _. simpl. lia.
Defined.

(** ** Queue position *)

(** C9: for a task that is still ['pending'] the reported queue position is
    the number of ['pending'] tasks created strictly before it plus the
    number of tasks that are ['processing']; for a task that is
    ['completed'] or ['failed'] it is 0 and the progress is reported as
    stored. *)
Theorem C9_queue_position
    (now : Z) (tid : N) (tbl : gmap N GeneratedAudio.t)
    (task : GeneratedAudio.t) :
  tbl !! tid = Some task →
  (status task = pending →
     get_queue_position tid tbl
     = Z.of_nat (size (filter
         (λ kv, status kv.2 = pending ∧ created_at kv.2 < created_at task) tbl))
       + Z.of_nat (size (filter (λ kv, status kv.2 = processing) tbl))
     ∧ rep_queue_position <$> get_status now tid tbl
       = Some (get_queue_position tid tbl))
  ∧ (status task = completed ∨ status task = failed →
     get_queue_position tid tbl = 0
     ∧ rep_queue_position <$> get_status now tid tbl = Some 0
     ∧ rep_progress <$> get_status now tid tbl = Some (progress task)
     ∧ rep_status <$> get_status now tid tbl = Some (status task)).
Proof.
  intros Hin. unfold get_status, get_queue_position. rewrite Hin. simpl.
  split.
  - intros ->. split; reflexivity.
  - intros [-> | ->]; repeat split; reflexivity.
Qed.

Lemma C9_queue_position_witness :
  get_queue_position 5 sample_queue = 3
  ∧ rep_queue_position <$> get_status 40 5 sample_queue = Some 3
  ∧ get_queue_position 4 sample_queue = 0
  ∧ rep_progress <$> get_status 40 4 sample_queue = Some 100.
Proof.
  destruct (C9_queue_position 40 5 sample_queue (sample_task pending 0 30))
    as [Hpending _]; [reflexivity|].
  destruct (C9_queue_position 40 4 sample_queue (sample_task completed 100 1))
    as [_ Hdone]; [reflexivity|].
  destruct (Hpending eq_refl) as [Hq Hr].
  destruct (Hdone (or_introl eq_refl)) as (Hz & _ & Hp & _).
  split; [|split; [|split]].
  - rewrite Hq. vm_compute. reflexivity.
  - rewrite Hr, Hq. vm_compute. reflexivity.
  - exact Hz.
  - exact Hp.
Defined.

(** ** What one run of the worker does to the users and the ledger *)

Section WorkerLemmas.

Variable env : WorkerEnv.
Variables (task_id : N) (text : string) (credits : Z).
Variable user_id : option positive.
Variable db : Db.

Lemma run_not_charged :
  charged_user env user_id db = None →
  users (_generate_in_background env task_id text credits user_id db)
  = users db
  ∧ transactions (_generate_in_background env task_id text credits user_id db)
    = transactions db.
Proof.
  unfold charged_user. run_worker.
  destruct (generate env) as [e|[ap fs d|err]]; simpl.
  - intros _. destruct user_id as [uid|]; simpl; [|done].
    by destruct (users db !! uid).
  - destruct (storage_save env) as [e|sp]; simpl.
    + intros _. destruct user_id as [uid|]; simpl; [|done].
      by destruct (users db !! uid).
    + destruct user_id as [uid|]; simpl; [|done].
      destruct (users db !! uid) as [u|]; simpl; [done|].
      intros _. by destruct (users db !! uid).
  - intros _. destruct user_id as [uid|]; simpl; [|done].
    destruct (users db !! uid) as [u|] eqn:Hu; simpl; [done|].
    by rewrite Hu.
Qed.

Lemma run_charged (uid : positive) (u : User.t) :
  charged_user env user_id db = Some (uid, u) →
  transactions (_generate_in_background env task_id text credits user_id db)
  = (transactions db ++ [usage_row uid u text credits])%list
  ∧ users (_generate_in_background env task_id text credits user_id db)
    = if User.credits u >=? credits
      then <[uid := {| User.credits := User.credits u - credits |}]> (users db)
      else users db.
Proof.
  unfold charged_user, usage_row. run_worker.
  destruct (generate env) as [e|[ap fs d|err]]; simpl; try done.
  destruct (storage_save env) as [e|sp]; simpl; try done.
  destruct user_id as [uid'|]; simpl; try done.
  destruct (users db !! uid') as [u'|]; simpl; try done.
  intros [= -> ->]. unfold User.deduct_credits.
  destruct (User.credits u >=? credits); simpl;
    by match goal with |- context [if ?c then _ else _] => destruct c end.
Qed.

End WorkerLemmas.

(** ** Balances *)

(** C2, as stated, fails: [add_credits] adds whatever integer it is given,
    so a credit of a negative amount takes the balance of a new account
    below zero. *)
Lemma C2_negative_credit_goes_below_zero :
  balances User.default [Credit (-1001)] = [-1]
  ∧ ¬ Forall (λ b, 0 ≤ b) (balances User.default [Credit (-1001)]).
Proof.
  split; [reflexivity|].
  intros Hall. apply Forall_cons in Hall as [Hneg _]. simpl in Hneg. lia.
Qed.

Lemma balances_not_negative (ops : list LedgerOp) :
  ∀ self : User.t,
    0 ≤ User.credits self →
    Forall credits_not_negative ops →
    Forall (λ b, 0 ≤ b) (balances self ops).
Proof.
  induction ops as [|op ops IH]; intros self Hself Hops; simpl; [constructor|].
  apply Forall_cons in Hops as [Hop Hops].
  assert (0 ≤ User.credits (apply_op self op)) as Hnext.
  { destruct op as [amount|amount]; simpl in *; [lia|].
    unfold User.deduct_credits.
    destruct (User.credits self >=? amount) eqn:Hge; simpl; lia. }
  constructor; [exact Hnext|]. by apply IH.
Qed.

(** C2, amended: from a balance that is not negative, after every operation
    of a sequence of credits of non-negative amounts and debits of any
    integer amounts the balance is not negative; a debit whose amount
    exceeds the balance is rejected, returns [False] and writes nothing. *)
Theorem C2_balance_never_negative
    (self : User.t) (ops : list LedgerOp) (uid : positive) (amount : Z)
    (db : Db) :
  0 ≤ User.credits self →
  Forall credits_not_negative ops →
  Forall (λ b, 0 ≤ b) (balances self ops)
  ∧ (User.credits self < amount →
     User.deduct_credits self amount = (self, false)
     ∧ deduct_credits uid self amount db = (db, inr (self, false))).
Proof.
  intros Hself Hops. split; [by apply balances_not_negative|].
  intros Hlt. unfold deduct_credits, User.deduct_credits.
  destruct (User.credits self >=? amount) eqn:Hge; [lia|done].
Qed.

Lemma C2_balance_never_negative_witness :
  Forall (λ b, 0 ≤ b)
    (balances User.default [Debit 400; Debit 700; Credit 50; Debit (-5)])
  ∧ (User.credits User.default < 1001 →
     User.deduct_credits User.default 1001 = (User.default, false)
     ∧ deduct_credits 1 User.default 1001 empty_db
       = (empty_db, inr (User.default, false))).
Proof.
  apply (C2_balance_never_negative User.default
           [Debit 400; Debit 700; Credit 50; Debit (-5)] 1 1001 empty_db).
  - simpl. lia.
  - repeat constructor. simpl. lia.
Defined.

(** ** Ledger replay *)

(** C3, as stated, fails: registration grants the free-trial credits
    without writing a ledger row, so a new account has a balance of 1000
    over an empty ledger. *)
Lemma C3_new_account_balance_not_in_ledger :
  let db := register 1000 1 empty_db in
  User.credits <$> users db !! 1%positive = Some 1000
  ∧ ledger_sum 1 (transactions db) = 0.
Proof. cbv zeta. split; by vm_compute. Qed.

Lemma ledger_sum_app (uid : positive) (txs : list CreditTransaction.t)
    (tx : CreditTransaction.t) :
  ledger_sum uid (txs ++ [tx])
  = ledger_sum uid txs
    + (if decide (CreditTransaction.user tx = uid)
       then CreditTransaction.amount tx else 0).
Proof.
  unfold ledger_sum. induction txs as [|t0 txs IH]; simpl.
  - destruct (decide _); lia.
  - rewrite IH. destruct (decide (CreditTransaction.user t0 = uid)); lia.
Qed.

(** ** What a submission that is queued has checked *)

Lemma generate_speech_queued (cfg : Settings) (senv : SubmitEnv)
    (req : Request) (db0 db : Db) (resp : Response) (job : Job) :
  generate_speech cfg senv req db0 = (resp, db, Some job) →
  let text := strip (get_default (post_text req) "") in
  let credits := len text * CREDITS_PER_CHARACTER cfg in
  let owner := fst <$> request_user req db0 in
  let row := new_row (now senv) owner text "custom" in
  job = {| job_task_id := new_task_id senv; job_text := text;
           job_credits := credits; job_user_id := owner |}
  ∧ resp = JsonQueued (new_task_id senv) (estimated_time row) (len text) credits
  ∧ db = on_audios (λ _, <[new_task_id senv := row]> (audios db0)) db0
  ∧ audios db0 !! new_task_id senv = None
  ∧ (∀ uid u, request_user req db0 = Some (uid, u) → credits ≤ User.credits u).
Proof.
  unfold generate_speech.
  destruct (is_available senv); simpl; [|done].
  destruct (post_conversion_error req); [done|].
  destruct (len _ =? 0); [done|].
  destruct (len _ >? MAX_TEXT_LENGTH cfg); [done|].
  destruct (request_user req db0) as [[uid u]|] eqn:Hu; simpl.
  - destruct (User.credits u <? _) eqn:Hlt; [done|].
    destruct (has_reference_audio req); simpl; [|done].
    destruct (ref_save senv); [done|].
    unfold create_task.
    destruct (audios db0 !! new_task_id senv) eqn:Hfresh; [done|].
    intros [= <- <- <-]. repeat split. intros ? ? [= <- <-]. lia.
  - destruct (has_reference_audio req); simpl; [|done].
    destruct (ref_save senv); [done|].
    unfold create_task.
    destruct (audios db0 !! new_task_id senv) eqn:Hfresh; [done|].
    intros [= <- <- <-]. repeat split. intros ? ? [=].
Qed.

(** A response that is an error leaves the database as it was and queues
    nothing. *)
Lemma generate_speech_rejected (cfg : Settings) (senv : SubmitEnv)
    (req : Request) (db0 db : Db) (code : Z) (error : string)
    (job : option Job) :
  generate_speech cfg senv req db0 = (JsonError code error, db, job) →
  db = db0 ∧ job = None.
Proof.
  unfold generate_speech.
  repeat match goal with
         | |- context [if ?c then _ else _] => destruct c; simpl
         | |- context [match ?x with _ => _ end] => destruct x; simpl
         end; by intros [=].
Qed.

(** ** Validation order of a submission *)

(** ** Texts *)

(** Cutting a text into its characters loses nothing. *)
Lemma join_chars (s : string) : join (chars s) = s.
Proof.
  assert (∀ s, (chars_from s).1 +:+ join (chars_from s).2 = s) as Hfrom.
  { clear s. induction s as [|c s IH]; [done|]. simpl.
    destruct (chars_from s) as [continuation rest]. simpl in IH.
    destruct (is_continuation c); simpl.
    - change (String c (continuation +:+ join rest) = String c s).
      by rewrite IH.
    - change (String c (continuation +:+ join rest) = String c s).
      by rewrite IH. }
  specialize (Hfrom s). unfold chars.
  destruct (chars_from s) as [[|c continuation] rest]; simpl in *; done.
Qed.

Lemma append_empty (s : string) : s +:+ "" = s.
Proof.
  induction s as [|c s IH]; [done|].
  change (String c (s +:+ "") = String c s). by rewrite IH.
Qed.

Lemma join_app (cs cs' : list string) :
  join (cs ++ cs') = join cs +:+ join cs'.
Proof.
  induction cs as [|ch cs IH]; [done|].
  change (ch +:+ join (cs ++ cs') = (ch +:+ join cs) +:+ join cs').
  rewrite IH. clear IH. induction ch as [|c ch IH]; [done|].
  change (String c (ch +:+ (join cs +:+ join cs'))
          = String c ((ch +:+ join cs) +:+ join cs')).
  by rewrite IH.
Qed.

Lemma chars_from_continuation (k r : string) :
  continuation_only k = true →
  chars_from (k +:+ r) = (k +:+ (chars_from r).1, (chars_from r).2).
Proof.
  induction k as [|c k IH]; intros Hk.
  - change ("" +:+ r) with r.
    change ("" +:+ (chars_from r).1) with (chars_from r).1.
    by destruct (chars_from r).
  - simpl in Hk. apply andb_true_iff in Hk as [Hc Hk].
    change (String c k +:+ r) with (String c (k +:+ r)).
    simpl. rewrite (IH Hk), Hc. done.
Qed.

Lemma chars_from_join (cs : list string) :
  Forall (λ ch, is_char ch = true) cs → chars_from (join cs) = ("", cs).
Proof.
  induction 1 as [|ch cs Hch _ IH]; [done|].
  destruct ch as [|c k]; [done|]. simpl in Hch.
  apply andb_true_iff in Hch as [Hc Hk]. apply negb_true_iff in Hc.
  change (join (String c k :: cs)) with (String c (k +:+ join cs)).
  simpl. rewrite (chars_from_continuation _ _ Hk), IH, Hc. simpl.
  by rewrite append_empty.
Qed.

Lemma chars_from_shape (s : string) :
  continuation_only (chars_from s).1 = true
  ∧ Forall (λ ch, is_char ch = true) (chars_from s).2.
Proof.
  induction s as [|c s [Hk Hrest]]; [done|]. simpl.
  destruct (chars_from s) as [k rest]. simpl in *.
  destruct (is_continuation c) eqn:Hc; simpl.
  - by rewrite Hc.
  - split; [done|]. constructor; [|done]. simpl. by rewrite Hc.
Qed.

(** The first [n] characters of a text are [n] characters at most, and the
    text begins with them. *)
Lemma take_chars_prefix (n : nat) (s : string) :
  len (take_chars n s) ≤ Z.of_nat n
  ∧ ∃ rest, s = take_chars n s +:+ rest.
Proof.
  split.
  - assert (chars (take_chars n s) = take n (chars s)) as Hcut.
    { unfold take_chars. unfold chars at 2 3.
      destruct (chars_from_shape s) as [Hk Hrest].
      destruct (chars_from s) as [[|c k] rest]; simpl in Hk, Hrest.
      - unfold chars. by rewrite chars_from_join; [|apply Forall_take].
      - destruct n as [|n]; [done|]. simpl take.
        change (join (String c k :: take n rest))
          with (String c k +:+ join (take n rest)).
        unfold chars.
        rewrite (chars_from_continuation (String c k)); [|done].
        rewrite chars_from_join; [|by apply Forall_take]. simpl.
        by rewrite append_empty. }
    unfold len. rewrite Hcut. pose proof (firstn_le_length n (chars s)). lia.
  - exists (join (drop n (chars s))). unfold take_chars.
    by rewrite <- join_app, take_drop, join_chars.
Qed.

(** The length in characters and the whitespace are those of Python also
    outside ASCII: an accented text of eleven characters (thirteen bytes),
    and five whitespace characters of which three are not ASCII. *)
Lemma text_examples :
  len "héllo wörld" = 11
  ∧ strip (sample_blank_text +:+ "héllo wörld" +:+ sample_blank_text)
    = "héllo wörld"
  ∧ len sample_blank_text = 5
  ∧ strip sample_blank_text = "".
Proof. repeat split; by vm_compute. Qed.

(** Only the empty text has no characters. *)
Lemma chars_nil (s : string) : chars s = [] ↔ s = "".
Proof.
  split; [|by intros ->].
  destruct s as [|c s]; [done|]. unfold chars. simpl.
  destruct (chars_from s) as [continuation rest].
  by destruct (is_continuation c).
Qed.

Lemma len_zero (s : string) : (len s =? 0) = true ↔ s = "".
Proof.
  rewrite <- chars_nil. unfold len.
  destruct (chars s); simpl; split; (done || lia).
Qed.

(** C8, as stated, fails: the balance is checked before the reference
    audio, so a request that lacks both the credits and the reference audio
    is answered with the credit error, not with the voice-reference one. *)
Lemma C8_credits_checked_before_reference_audio :
  let db := register 5 1 empty_db in
  let req := sample_request (Some 1%positive) false in
  has_reference_audio req = false
  ∧ generate_speech sample_cfg sample_submit_env req db
    = (JsonError 400 "Insufficient credits", db, None)
  ∧ generate_speech sample_cfg sample_submit_env req db
    ≠ (JsonError 400 "Reference audio required", db, None).
Proof. cbv zeta. repeat split; by vm_compute. Qed.

(** C8, amended: once the service is available and the numeric fields have
    been converted, [generate_speech] rejects with the first violation in
    this order: the stripped text is empty; the text is longer than the
    maximum; the credits needed, [len(text) * CREDITS_PER_CHARACTER], exceed
    the balance of the authenticated account; the reference audio is
    missing.  Every rejection leaves the task table as it was and queues no
    job. *)
Theorem C8_validation_order
    (cfg : Settings) (senv : SubmitEnv) (req : Request) (db : Db) :
  is_available senv = true →
  post_conversion_error req = None →
  let text := strip (get_default (post_text req) "") in
  let credits := len text * CREDITS_PER_CHARACTER cfg in
  let answer := generate_speech cfg senv req db in
  (text = "" → answer = (JsonError 400 "Text required", db, None))
  ∧ (text ≠ "" → MAX_TEXT_LENGTH cfg < len text →
     answer = (JsonError 400 "Text too long", db, None))
  ∧ (∀ uid u,
       text ≠ "" → len text ≤ MAX_TEXT_LENGTH cfg →
       request_user req db = Some (uid, u) → User.credits u < credits →
       answer = (JsonError 400 "Insufficient credits", db, None))
  ∧ (text ≠ "" → len text ≤ MAX_TEXT_LENGTH cfg →
     (∀ uid u, request_user req db = Some (uid, u) → credits ≤ User.credits u) →
     has_reference_audio req = false →
     answer = (JsonError 400 "Reference audio required", db, None))
  ∧ (∀ code error db' job,
       answer = (JsonError code error, db', job) →
       audios db' = audios db ∧ job = None).
Proof.
  intros Havail Hconv text credits answer.
  assert (answer = generate_speech cfg senv req db) as Hans by done.
  unfold generate_speech in Hans. rewrite Havail, Hconv in Hans. simpl in Hans.
  fold text in Hans. fold credits in Hans.
  split; [|split; [|split; [|split]]].
  - intros Hempty. apply len_zero in Hempty. by rewrite Hempty in Hans.
  - intros Hne Hlong.
    destruct (len text =? 0) eqn:Hz; [by apply len_zero in Hz|].
    assert ((len text >? MAX_TEXT_LENGTH cfg) = true) as Hgt by lia.
    by rewrite Hgt in Hans.
  - intros uid u Hne Hfit Hu Hshort.
    destruct (len text =? 0) eqn:Hz; [by apply len_zero in Hz|].
    assert ((len text >? MAX_TEXT_LENGTH cfg) = false) as Hgt by lia.
    assert ((User.credits u <? credits) = true) as Hlt by lia.
    by rewrite Hgt, Hu, Hlt in Hans.
  - intros Hne Hfit Hrich Hnoaudio.
    destruct (len text =? 0) eqn:Hz; [by apply len_zero in Hz|].
    assert ((len text >? MAX_TEXT_LENGTH cfg) = false) as Hgt by lia.
    rewrite Hgt, Hnoaudio in Hans. simpl in Hans.
    destruct (request_user req db) as [[uid u]|] eqn:Hu; [|done].
    assert ((User.credits u <? credits) = false) as Hlt.
    { specialize (Hrich uid u eq_refl). lia. }
    by rewrite Hlt in Hans.
  - intros code error db' job Hrej.
    apply generate_speech_rejected in Hrej as [-> ->]. done.
Qed.

Lemma C8_validation_order_witness :
  let db := register 5 1 empty_db in
  generate_speech sample_cfg sample_submit_env
    (sample_request (Some 1%positive) true) db
  = (JsonError 400 "Insufficient credits", db, None).
Proof.
  cbv zeta.
  destruct (C8_validation_order sample_cfg sample_submit_env
              (sample_request (Some 1%positive) true)
              (register 5 1 empty_db) eq_refl eq_refl)
    as (_ & _ & Hcredits & _).
  apply (Hcredits 1%positive {| User.credits := 5 |}).
  - vm_compute. discriminate.
  - vm_compute. discriminate.
  - reflexivity.
  - vm_compute. reflexivity.
Defined.

(** ** What one run of the worker does to the task *)

Lemma run_success_audios (env : WorkerEnv) (task_id : N) (text : string)
    (credits : Z) (user_id : option positive) (db : Db)
    (ap : string) (fs : Z) (d sp : string) :
  generate env = inr (GenSuccess ap fs d) →
  storage_save env = inr sp →
  match user_id with
  | Some uid => is_Some (users db !! uid)
  | None => True
  end →
  audios (_generate_in_background env task_id text credits user_id db)
  = mark_completed (t_end env) task_id sp fs d
      (update_progress task_id 80
         (update_progress task_id 20
            (start_processing (t_start env) task_id (audios db)))).
Proof.
  intros Hgen Hsave Howner. run_worker. rewrite Hgen, Hsave. simpl.
  destruct user_id as [uid|]; simpl; [|done].
  destruct Howner as [u Hu]. rewrite Hu. simpl.
  unfold User.deduct_credits.
  destruct (User.credits u >=? credits); simpl;
    by match goal with |- context [if ?c then _ else _] => destruct c end.
Qed.

Lemma completed_after_success (now : Z) (tid : N) (sp : string) (fs : Z)
    (d : string) (t0 : Z) (tbl : gmap N GeneratedAudio.t)
    (task : GeneratedAudio.t) :
  tbl !! tid = Some task →
  ∃ task',
    mark_completed now tid sp fs d
      (update_progress tid 80
         (update_progress tid 20 (start_processing t0 tid tbl))) !! tid
    = Some task'
    ∧ status task' = completed
    ∧ progress task' = 100
    ∧ credits_used task' = credits_used task
    ∧ GeneratedAudio.user task' = GeneratedAudio.user task.
Proof.
  intros Hin.
  rewrite lookup_mark_completed, !lookup_update_progress,
    lookup_start_processing, Hin. simpl.
  eexists; split; [reflexivity|]. by repeat split.
Qed.

Lemma run_anonymous (env : WorkerEnv) (task_id : N) (text : string)
    (credits : Z) (db : Db) :
  let db' := _generate_in_background env task_id text credits None db in
  users db' = users db
  ∧ transactions db' = transactions db
  ∧ notifications db' = notifications db.
Proof.
  run_worker.
  destruct (generate env) as [e|[ap fs d|err]]; simpl; [done| |done].
  by destruct (storage_save env).
Qed.

(** ** Anonymous submissions *)

(** C10: for a request without an authenticated account the balance check
    is skipped, so a text that is not empty and within the length limit is
    queued whatever the credits it needs (given the reference audio); and
    the worker run of a task without an owner debits no account and writes
    no ledger row and no notification, while a successful run leaves the
    task ['completed']. *)
Theorem C10_anonymous_is_not_charged
    (cfg : Settings) (senv : SubmitEnv) (req : Request) (db : Db)
    (env : WorkerEnv) (ref_saved ap : string) (fs : Z) (d sp : string) :
  request_user req db = None →
  is_available senv = true →
  post_conversion_error req = None →
  strip (get_default (post_text req) "") ≠ "" →
  len (strip (get_default (post_text req) "")) ≤ MAX_TEXT_LENGTH cfg →
  has_reference_audio req = true →
  ref_save senv = inr ref_saved →
  audios db !! new_task_id senv = None →
  generate env = inr (GenSuccess ap fs d) →
  storage_save env = inr sp →
  ∃ resp db1 job,
    generate_speech cfg senv req db = (resp, db1, Some job)
    ∧ job_user_id job = None
    ∧ job_credits job
      = len (strip (get_default (post_text req) ""))
        * CREDITS_PER_CHARACTER cfg
    ∧ status <$> audios db1 !! job_task_id job = Some pending
    ∧ users (run_job env job db1) = users db
    ∧ transactions (run_job env job db1) = transactions db
    ∧ notifications (run_job env job db1) = notifications db
    ∧ status <$> audios (run_job env job db1) !! job_task_id job
      = Some completed.
Proof.
  intros Huser Havail Hconv Hne Hfit Haudio Href Hfresh Hgen Hsave.
  unfold generate_speech.
  rewrite Havail, Hconv, Huser, Haudio, Href. simpl.
  destruct (len _ =? 0) eqn:Hz; [by apply len_zero in Hz|].
  assert ((len (strip (get_default (post_text req) ""))
           >? MAX_TEXT_LENGTH cfg) = false) as -> by lia.
  unfold create_task. rewrite Hfresh.
  do 3 eexists. split; [reflexivity|]. simpl.
  split; [done|]. split; [done|].
  split; [by rewrite lookup_insert_eq|].
  unfold run_job. simpl.
  match goal with
  | |- context [_generate_in_background env ?t ?x ?c None ?db1] =>
      destruct (run_anonymous env t x c db1) as (Hus & Htx & Hnt);
      pose proof (run_success_audios env t x c None db1 ap fs d sp
                    Hgen Hsave I) as Hau
  end.
  rewrite Hus, Htx, Hnt, Hau. simpl.
  repeat split.
  rewrite lookup_mark_completed, !lookup_update_progress,
    lookup_start_processing, lookup_insert_eq. done.
Qed.

Lemma C10_anonymous_is_not_charged_witness :
  ∃ resp db1 job,
    generate_speech sample_cfg sample_submit_env (sample_request None true)
      (register 0 1 empty_db)
    = (resp, db1, Some job)
    ∧ job_user_id job = None
    ∧ job_credits job
      = len (strip (get_default (post_text (sample_request None true)) ""))
        * CREDITS_PER_CHARACTER sample_cfg
    ∧ status <$> audios db1 !! job_task_id job = Some pending
    ∧ users (run_job sample_success job db1) = users (register 0 1 empty_db)
    ∧ transactions (run_job sample_success job db1)
      = transactions (register 0 1 empty_db)
    ∧ notifications (run_job sample_success job db1)
      = notifications (register 0 1 empty_db)
    ∧ status <$> audios (run_job sample_success job db1) !! job_task_id job
      = Some completed.
Proof.
  apply (C10_anonymous_is_not_charged sample_cfg sample_submit_env
           (sample_request None true) (register 0 1 empty_db) sample_success
           "references/ref.wav" "/tmp/out.wav" 2048 "1.5" "voices/out.wav");
    try reflexivity.
  - vm_compute. discriminate.
  - vm_compute. discriminate.
Defined.

(** ** Failed synthesis *)

(** C7, as stated, fails in its "non-empty error text": the worker stores
    the text the synthesis call reports, and when that text is empty the
    stored error text is empty. *)
Lemma C7_empty_error_text_is_stored :
  let db' := _generate_in_background sample_silent_failure 7 "hi" 2
               (Some 1%positive) sample_db in
  status <$> audios db' !! 7%N = Some failed
  ∧ error_message <$> audios db' !! 7%N = Some "".
Proof. cbv zeta. split; by vm_compute. Qed.

(** C7, amended: when the synthesis call returns an error or raises, the
    task ends ['failed'], no account balance changes and no ledger row is
    written; the stored error text is the text the call reported (the
    ['error'] entry, ["Unknown error"] when that entry is absent, or the
    text of the exception) or that of the failed lookup of the owner, so it
    is not empty whenever the reported text is not empty, as for a
    timeout. *)
Theorem C7_failed_synthesis_is_not_charged
    (env : WorkerEnv) (task_id : N) (text : string) (credits : Z)
    (user_id : option positive) (db : Db)
    (task : GeneratedAudio.t) (msg : string) :
  audios db !! task_id = Some task →
  failure_text (generate env) = Some msg →
  (∃ task',
     audios (_generate_in_background env task_id text credits user_id db)
       !! task_id = Some task'
     ∧ status task' = failed
     ∧ (error_message task' = msg
        ∨ error_message task' = "User matching query does not exist.")
     ∧ (msg ≠ "" → error_message task' ≠ ""))
  ∧ users (_generate_in_background env task_id text credits user_id db)
    = users db
  ∧ transactions (_generate_in_background env task_id text credits user_id db)
    = transactions db
  ∧ (∀ api_timeout,
       ∃ m, failure_text (inr (timeout_result api_timeout)) = Some m ∧ m ≠ "").
Proof.
  intros Hin Hfail.
  assert (charged_user env user_id db = None) as Hnc.
  { unfold charged_user. by destruct (generate env) as [e|[ap fs d|err]]. }
  destruct (run_not_charged env task_id text credits user_id db Hnc)
    as [Hus Htx].
  split; [|split; [done|split; [done|]]].
  - clear Hus Htx Hnc. revert Hfail. run_worker.
    destruct (generate env) as [e|[ap fs d|err]]; simpl; [| done |].
    + intros [= ->].
      exists (set_failed (t_except env) msg
                (set_progress (Z.min 20 99)
                   (set_processing (t_start env) task))).
      split; [|by repeat split; auto].
      destruct user_id as [uid|]; simpl;
        [destruct (users db !! uid); simpl|];
        by rewrite lookup_mark_failed, lookup_update_progress,
             lookup_start_processing, Hin.
    + intros [= <-].
      destruct user_id as [uid|]; simpl.
      * destruct (users db !! uid) as [u|] eqn:Hu; simpl.
        -- eexists. rewrite lookup_mark_failed, !lookup_update_progress,
             lookup_start_processing, Hin. simpl.
           split; [reflexivity|]. by repeat split; auto.
        -- rewrite Hu. simpl. eexists.
           rewrite !lookup_mark_failed, !lookup_update_progress,
             lookup_start_processing, Hin. simpl.
           split; [reflexivity|]. by repeat split; auto.
      * eexists. rewrite lookup_mark_failed, !lookup_update_progress,
          lookup_start_processing, Hin. simpl.
        split; [reflexivity|]. by repeat split; auto.
  - intros api_timeout. eexists. split; [reflexivity|]. done.
Qed.

Lemma C7_failed_synthesis_is_not_charged_witness :
  let env := {| generate := inr (timeout_result 300);
                storage_save := inr "voices/out.wav";
                t_start := 1; t_end := 2; t_except := 3 |} in
  (∃ task',
     audios (_generate_in_background env 7 "hi" 2 (Some 1%positive) sample_db)
       !! 7%N = Some task'
     ∧ status task' = failed
     ∧ (error_message task' = "API request timed out after 300 seconds"
        ∨ error_message task' = "User matching query does not exist.")
     ∧ ("API request timed out after 300 seconds" ≠ "" →
        error_message task' ≠ ""))
  ∧ users (_generate_in_background env 7 "hi" 2 (Some 1%positive) sample_db)
    = users sample_db
  ∧ transactions
      (_generate_in_background env 7 "hi" 2 (Some 1%positive) sample_db)
    = transactions sample_db
  ∧ (∀ api_timeout,
       ∃ m, failure_text (inr (timeout_result api_timeout)) = Some m ∧ m ≠ "").
Proof.
  cbv zeta.
  apply (C7_failed_synthesis_is_not_charged _ 7 "hi" 2 (Some 1%positive)
           sample_db (sample_task pending 0 0)
           "API request timed out after 300 seconds").
  - reflexivity.
  - vm_compute. reflexivity.
Defined.

(** ** Charging a completed task *)

Lemma charged_user_success (env : WorkerEnv) (uid : positive) (u : User.t)
    (db : Db) (ap : string) (fs : Z) (d sp : string) :
  generate env = inr (GenSuccess ap fs d) →
  storage_save env = inr sp →
  users db !! uid = Some u →
  charged_user env (Some uid) db = Some (uid, u).
Proof. intros Hgen Hsave Hu. unfold charged_user. by rewrite Hgen, Hsave, Hu. Qed.


(** * Further properties of the tracker *)

(** X1: the estimate grows with the text and, for a text of [n]
    characters, lies less than a second below [30 + 5.4 n]. *)
Theorem X1_estimate_time_bounds (n m : Z) :
  0 ≤ n → n ≤ m →
  30 ≤ estimate_time n
  ∧ estimate_time n ≤ estimate_time m
  ∧ 5 * estimate_time n ≤ 150 + 27 * n
  ∧ 150 + 27 * n < 5 * estimate_time n + 5.
Proof.
  intros Hn Hnm. unfold estimate_time.
  pose proof (Z.div_mod (n * 27) 5 ltac:(lia)) as Hdiv.
  pose proof (Z.mod_pos_bound (n * 27) 5 ltac:(lia)) as Hmod.
  assert ((n * 27) / 5 ≤ (m * 27) / 5) as Hmono
    by (apply Z.div_le_mono; lia).
  assert (0 ≤ (n * 27) / 5) by (apply Z.div_pos; lia).
  lia.
Qed.

Lemma X1_estimate_time_bounds_witness :
  30 ≤ estimate_time 40
  ∧ estimate_time 40 ≤ estimate_time 41
  ∧ 5 * estimate_time 40 ≤ 150 + 27 * 40
  ∧ 150 + 27 * 40 < 5 * estimate_time 40 + 5.
Proof. apply (X1_estimate_time_bounds 40 41); lia. Defined.

(** X2: creating a task under a fresh id stores a row that is ['pending']
    at progress 0, with [credits_used] and [characters_used] both the
    length of the text; the row is what the table then holds under that id
    and what [get_status] reports, every other row is as before, and the
    table has one row more. *)
Theorem X2_create_task_stores_pending_row
    (id : N) (now now' : Z) (user : option positive)
    (text voice_source : string) (tbl : gmap N GeneratedAudio.t) :
  tbl !! id = None →
  ∃ row tbl',
    create_task id now user text voice_source tbl = inr (row, tbl')
    ∧ tbl' !! id = Some row
    ∧ status row = pending ∧ progress row = 0
    ∧ credits_used row = len text ∧ characters_used row = len text
    ∧ GeneratedAudio.user row = user
    ∧ created_at row = now
    ∧ (∀ j, j ≠ id → tbl' !! j = tbl !! j)
    ∧ size tbl' = S (size tbl)
    ∧ rep_status <$> get_status now' id tbl' = Some pending
    ∧ rep_progress <$> get_status now' id tbl' = Some 0
    ∧ rep_estimated_time <$> get_status now' id tbl'
      = Some (Some (estimate_time (len text)))
    ∧ rep_audio_url <$> get_status now' id tbl' = Some None.
Proof.
  intros Hfresh. unfold create_task. rewrite Hfresh.
  do 2 eexists. split; [reflexivity|].
  split; [apply lookup_insert_eq|].
  do 6 (split; [reflexivity|]).
  split; [intros j Hj; by apply lookup_insert_ne|].
  split; [by apply map_size_insert_None|].
  unfold get_status. rewrite lookup_insert_eq. by repeat split.
Qed.

Lemma X2_create_task_stores_pending_row_witness :
  ∃ row tbl',
    create_task 9 50 None "hello" "custom" sample_queue = inr (row, tbl')
    ∧ tbl' !! 9%N = Some row
    ∧ status row = pending ∧ progress row = 0
    ∧ credits_used row = len "hello" ∧ characters_used row = len "hello"
    ∧ GeneratedAudio.user row = None
    ∧ created_at row = 50
    ∧ (∀ j, j ≠ 9%N → tbl' !! j = sample_queue !! j)
    ∧ size tbl' = S (size sample_queue)
    ∧ rep_status <$> get_status 60 9 tbl' = Some pending
    ∧ rep_progress <$> get_status 60 9 tbl' = Some 0
    ∧ rep_estimated_time <$> get_status 60 9 tbl'
      = Some (Some (estimate_time (len "hello")))
    ∧ rep_audio_url <$> get_status 60 9 tbl' = Some None.
Proof.
  apply (X2_create_task_stores_pending_row 9 50 60 None "hello" "custom"
           sample_queue).
  reflexivity.
Defined.

(** X3: of two ['pending'] tasks, the one created later has the strictly
    larger queue position. *)
Theorem X3_queue_position_grows_with_creation_time
    (a b : N) (tbl : gmap N GeneratedAudio.t) (ta tb : GeneratedAudio.t) :
  tbl !! a = Some ta →
  tbl !! b = Some tb →
  status ta = pending →
  status tb = pending →
  created_at ta < created_at tb →
  get_queue_position a tbl < get_queue_position b tbl.
Proof.
  intros Ha Hb Hsa Hsb Hlt. unfold get_queue_position.
  rewrite Ha, Hb, Hsa, Hsb. unfold count_pending_before.
  assert (filter (λ kv : N * GeneratedAudio.t,
                    status kv.2 = pending ∧ created_at kv.2 < created_at ta) tbl
          ⊂ filter (λ kv : N * GeneratedAudio.t,
                      status kv.2 = pending ∧ created_at kv.2 < created_at tb) tbl)
    as Hsub.
  { split.
    - apply map_filter_subseteq_ext. intros i x _ [Hp Hx]. simpl in *.
      split; [done|lia].
    - intros Hrev.
      assert (filter (λ kv : N * GeneratedAudio.t,
                status kv.2 = pending ∧ created_at kv.2 < created_at tb) tbl
              !! a = Some ta) as Hin.
      { apply map_lookup_filter_Some. by repeat split. }
      eapply lookup_weaken in Hin; [|exact Hrev].
      apply map_lookup_filter_Some in Hin as [_ [_ Hself]]. simpl in Hself.
      lia. }
  apply map_subset_size in Hsub. lia.
Qed.

Lemma X3_queue_position_grows_with_creation_time_witness :
  get_queue_position 2 sample_queue < get_queue_position 5 sample_queue.
Proof.
  apply (X3_queue_position_grows_with_creation_time 2 5 sample_queue
           (sample_task pending 0 20) (sample_task pending 0 30));
    reflexivity.
Defined.

(** X4: for a task that exists the status report gives a queue position
    that is not negative and an estimated wait of 30 seconds per position;
    the remaining time of a started task lies between 0 and the estimate,
    and that of a task not yet started is the estimate.  For an id that is
    not in the table the report is "not found" and the queue position 0. *)
Theorem X4_get_status_report
    (now : Z) (tid : N) (tbl : gmap N GeneratedAudio.t) :
  match tbl !! tid with
  | Some task =>
      ∃ r, get_status now tid tbl = Some r
        ∧ 0 ≤ rep_queue_position r
        ∧ rep_estimated_wait r = 30 * rep_queue_position r
        ∧ (started_at task = None →
           rep_remaining_time r = estimated_time task)
        ∧ (∀ et t0,
             estimated_time task = Some et → started_at task = Some t0 →
             0 ≤ et → t0 ≤ now →
             ∃ rem, rep_remaining_time r = Some rem ∧ 0 ≤ rem ≤ et)
  | None => get_status now tid tbl = None ∧ get_queue_position tid tbl = 0
  end.
Proof.
  destruct (tbl !! tid) as [task|] eqn:Hin.
  - unfold get_status. rewrite Hin. eexists. split; [reflexivity|]. simpl.
    assert (0 ≤ get_queue_position tid tbl) as Hq.
    { unfold get_queue_position, count_pending_before, count_status.
      rewrite Hin. destruct (status task); lia. }
    split; [done|]. split.
    { destruct (0 <? get_queue_position tid tbl) eqn:Hpos; lia. }
    split.
    { intros ->. unfold truthy. destruct (estimated_time task) as [et|]; [|done].
      simpl. by rewrite andb_false_r. }
    intros et t0 -> -> Het Ht0. unfold truthy.
    destruct (et =? 0) eqn:Hz0; simpl.
    { exists et. split; [done|lia]. }
    destruct (now - t0 =? 0) eqn:Hz1; simpl.
    { exists et. split; [done|lia]. }
    exists (Z.max 0 (et - (now - t0))). split; [done|lia].
  - unfold get_status, get_queue_position. by rewrite Hin.
Qed.

Lemma X4_get_status_report_witness :
  (∃ r, get_status 40 3 sample_queue = Some r
     ∧ 0 ≤ rep_queue_position r
     ∧ rep_estimated_wait r = 30 * rep_queue_position r)
  ∧ get_status 40 8 sample_queue = None.
Proof.
  split.
  - pose proof (X4_get_status_report 40 3 sample_queue) as H.
    change (sample_queue !! 3%N) with (Some (sample_task processing 20 5)) in H.
    destruct H as (r & Hr & Hq & Hw & _). by exists r.
  - pose proof (X4_get_status_report 40 8 sample_queue) as H.
    change (sample_queue !! 8%N) with (@None GeneratedAudio.t) in H.
    by destruct H.
Defined.

(** * Further properties of the worker *)

Lemma worker_trace (env : WorkerEnv) (task_id : N) (text : string)
    (credits : Z) (user_id : option positive) (db : Db) :
  audios (_generate_in_background env task_id text credits user_id db)
  = calls (worker_calls env task_id user_id db) (audios db).
Proof.
  run_worker. unfold worker_calls, calls, owner_missing, User.deduct_credits,
    owner_lookup_error.
  worker_cases; simpl; try reflexivity; try congruence.
Qed.

(** X5: what a run of the worker does to the task table is exactly its
    sequence of tracker calls: start, progress 20, then either the
    handler's [mark_failed] (the synthesis raised), or progress 80 followed
    by the marking of the result and, when something raised afterwards, the
    handler's [mark_failed].  In particular a run keeps the table free of
    tasks that are ['processing'] at progress 100. *)
Theorem X5_worker_is_a_sequence_of_tracker_calls
    (env : WorkerEnv) (task_id : N) (text : string) (credits : Z)
    (user_id : option positive) (db : Db) :
  audios (_generate_in_background env task_id text credits user_id db)
  = calls (worker_calls env task_id user_id db) (audios db)
  ∧ (never_full_while_processing (audios db) →
     never_full_while_processing
       (audios (_generate_in_background env task_id text credits user_id db))).
Proof.
  split; [apply worker_trace|].
  intros Hinv. rewrite worker_trace. by apply never_full_calls.
Qed.

Lemma X5_worker_is_a_sequence_of_tracker_calls_witness :
  audios (_generate_in_background sample_success 7 "hi" 2
            (Some 1%positive) sample_db)
  = calls [CallStart 1 7; CallProgress 7 20; CallProgress 7 80;
           CallCompleted 2 7 "voices/out.wav" 2048 "1.5"]
      (audios sample_db)
  ∧ never_full_while_processing
      (audios (_generate_in_background sample_success 7 "hi" 2
                 (Some 1%positive) sample_db)).
Proof.
  destruct (X5_worker_is_a_sequence_of_tracker_calls sample_success 7 "hi" 2
              (Some 1%positive) sample_db) as [Htrace Hkeep].
  split; [exact Htrace|]. apply Hkeep.
  apply map_Forall_insert_2; [|apply map_Forall_empty].
  intros Hst. discriminate Hst.
Defined.

Lemma worker_other_task (env : WorkerEnv) (task_id : N) (text : string)
    (credits : Z) (user_id : option positive) (db : Db) (j : N) :
  j ≠ task_id →
  audios (_generate_in_background env task_id text credits user_id db) !! j
  = audios db !! j.
Proof.
  intros Hj. rewrite worker_trace. unfold worker_calls, calls.
  worker_cases; simpl; unfold start_processing, update_progress,
    mark_completed, mark_failed; by rewrite !lookup_alter_ne.
Qed.

(** X6: a run of the worker touches nothing but its own task and its
    owner: every other task row and every other user row is as before, no
    task and no user is added or removed, and the ledger and the
    notifications only grow at the end. *)
Theorem X6_worker_leaves_the_rest_alone
    (env : WorkerEnv) (task_id : N) (text : string) (credits : Z)
    (user_id : option positive) (db : Db) :
  (∀ j, j ≠ task_id →
     audios (_generate_in_background env task_id text credits user_id db) !! j
     = audios db !! j)
  ∧ dom (audios (_generate_in_background env task_id text credits user_id db))
    = dom (audios db)
  ∧ (∀ j, user_id ≠ Some j →
       users (_generate_in_background env task_id text credits user_id db) !! j
       = users db !! j)
  ∧ dom (users (_generate_in_background env task_id text credits user_id db))
    = dom (users db)
  ∧ transactions db
    `prefix_of`
    transactions (_generate_in_background env task_id text credits user_id db)
  ∧ notifications db
    `prefix_of`
    notifications (_generate_in_background env task_id text credits user_id db).
Proof.
  split; [|split; [|split; [|split; [|split]]]].
  - intros j Hj. by apply worker_other_task.
  - destruct (X5_worker_is_a_sequence_of_tracker_calls env task_id text credits
                user_id db) as [-> _].
    unfold worker_calls, calls.
    worker_cases; simpl; unfold start_processing, update_progress,
      mark_completed, mark_failed; by rewrite !dom_alter_L.
  - intros j Hj. run_worker. unfold User.deduct_credits.
    worker_cases; simpl; try reflexivity; rewrite lookup_insert_ne; congruence.
  - run_worker. unfold User.deduct_credits.
    worker_cases; simpl; try reflexivity;
      apply dom_insert_lookup_L; by eexists.
  - run_worker. unfold User.deduct_credits.
    worker_cases; simpl; try reflexivity; by apply prefix_app_r.
  - run_worker. unfold User.deduct_credits.
    worker_cases; simpl; try reflexivity;
      rewrite <- ?(assoc_L (++)); by apply prefix_app_r.
Qed.

Lemma X6_worker_leaves_the_rest_alone_witness :
  audios (_generate_in_background sample_success 5 "hi" 2 (Some 1%positive)
            (on_audios (λ _, sample_queue) sample_db)) !! 2%N
  = sample_queue !! 2%N
  ∧ users (_generate_in_background sample_success 5 "hi" 2 (Some 1%positive)
             (on_audios (λ _, sample_queue) sample_db)) !! 4%positive
    = users sample_db !! 4%positive.
Proof.
  destruct (X6_worker_leaves_the_rest_alone sample_success 5 "hi" 2
              (Some 1%positive) (on_audios (λ _, sample_queue) sample_db))
    as (Htasks & _ & Husers & _).
  split.
  - apply Htasks. discriminate.
  - apply Husers. discriminate.
Defined.

Ltac read_task Hin :=
  repeat first [ rewrite lookup_mark_failed | rewrite lookup_mark_completed
               | rewrite lookup_update_progress
               | rewrite lookup_start_processing ];
  rewrite Hin; simpl.

(** X7: whatever the synthesis and the store answer, a run of the worker on
    an existing task leaves it in a terminal state: ['completed'] when the
    synthesis and the storing succeeded and the owner (if any) was found,
    ['failed'] in every other case.  The start and completion timestamps
    are set and the text, the owner, the creation time and the stored
    [credits_used] are unchanged. *)
Theorem X7_worker_ends_in_a_terminal_state
    (env : WorkerEnv) (task_id : N) (text : string) (credits : Z)
    (user_id : option positive) (db : Db) (task : GeneratedAudio.t) :
  audios db !! task_id = Some task →
  ∃ task',
    audios (_generate_in_background env task_id text credits user_id db)
      !! task_id = Some task'
    ∧ status task'
      = (if run_completes env user_id db then completed else failed)
    ∧ started_at task' = Some (t_start env)
    ∧ (completed_at task' = Some (t_end env)
       ∨ completed_at task' = Some (t_except env))
    ∧ GeneratedAudio.text task' = GeneratedAudio.text task
    ∧ GeneratedAudio.user task' = GeneratedAudio.user task
    ∧ created_at task' = created_at task
    ∧ credits_used task' = credits_used task
    ∧ characters_used task' = characters_used task.
Proof.
  intros Hin. rewrite worker_trace.
  unfold worker_calls, calls, run_completes.
  worker_cases; simpl; read_task Hin;
    (eexists; split; [reflexivity|]; simpl; repeat split; auto).
Qed.

Lemma X7_worker_ends_in_a_terminal_state_witness :
  ∃ task',
    audios (_generate_in_background sample_silent_failure 7 "hi" 2
              (Some 1%positive) sample_db) !! 7%N = Some task'
    ∧ status task'
      = (if run_completes sample_silent_failure (Some 1%positive) sample_db
         then completed else failed)
    ∧ started_at task' = Some (t_start sample_silent_failure)
    ∧ (completed_at task' = Some (t_end sample_silent_failure)
       ∨ completed_at task' = Some (t_except sample_silent_failure))
    ∧ GeneratedAudio.text task' = GeneratedAudio.text (sample_task pending 0 0)
    ∧ GeneratedAudio.user task' = GeneratedAudio.user (sample_task pending 0 0)
    ∧ created_at task' = created_at (sample_task pending 0 0)
    ∧ credits_used task' = credits_used (sample_task pending 0 0)
    ∧ characters_used task' = characters_used (sample_task pending 0 0).
Proof.
  apply (X7_worker_ends_in_a_terminal_state sample_silent_failure 7 "hi" 2
           (Some 1%positive) sample_db (sample_task pending 0 0)).
  reflexivity.
Defined.

(** X8: the worker does not look at what [deduct_credits] returns.  When
    the owner's balance is below the credits of the task, a run whose
    synthesis succeeded leaves the balance as it was and still appends the
    ['usage'] row of [-credits], with the unchanged balance as
    [balance_after], and still sends the "Credits Deducted" notification;
    so the ledger of the account then sums to [credits] less than before
    while the balance is the same. *)
Theorem X8_refused_debit_is_still_recorded
    (env : WorkerEnv) (task_id : N) (text : string) (credits : Z)
    (user_id : option positive) (db : Db) (uid : positive) (u : User.t) :
  charged_user env user_id db = Some (uid, u) →
  User.credits u < credits →
  users (_generate_in_background env task_id text credits user_id db)
  = users db
  ∧ (∃ tx,
       transactions (_generate_in_background env task_id text credits user_id db)
       = (transactions db ++ [tx])%list
       ∧ CreditTransaction.user tx = uid
       ∧ CreditTransaction.transaction_type tx = CreditTransaction.usage
       ∧ CreditTransaction.amount tx = - credits
       ∧ CreditTransaction.balance_after tx = User.credits u)
  ∧ ledger_sum uid
      (transactions (_generate_in_background env task_id text credits user_id db))
    = ledger_sum uid (transactions db) - credits
  ∧ notice_deducted credits uid u
    ∈ notifications (_generate_in_background env task_id text credits user_id db).
Proof.
  intros Hch Hlow.
  destruct (run_charged env task_id text credits user_id db uid u Hch)
    as [Htx Hus].
  assert ((User.credits u >=? credits) = false) as Hge by lia.
  rewrite Hge in Hus.
  split; [done|]. split; [|split].
  - eexists. split; [exact Htx|]. unfold usage_row, User.deduct_credits.
    rewrite Hge. by repeat split.
  - rewrite Htx, ledger_sum_app. unfold usage_row. simpl.
    destruct (decide (uid = uid)); [lia|done].
  - clear Htx Hus. revert Hch. unfold charged_user. run_worker.
    unfold User.deduct_credits.
    destruct (generate env) as [?|[? ? ?|?]]; try done.
    destruct (storage_save env); try done.
    destruct user_id as [uid'|]; try done.
    destruct (users db !! uid') as [u'|] eqn:Hu; try done.
    intros [= -> ->]. simpl. rewrite Hu. simpl. rewrite Hge. simpl.
    destruct (User.credits u <? 100); simpl;
      rewrite !elem_of_app, !list_elem_of_singleton; auto.
Qed.

Lemma X8_refused_debit_is_still_recorded_witness :
  let db := on_audios <[7%N := sample_task pending 0 0]>
              (register 1 1 empty_db) in
  users (_generate_in_background sample_success 7 "hi" 2 (Some 1%positive) db)
  = users db
  ∧ (∃ tx,
       transactions
         (_generate_in_background sample_success 7 "hi" 2 (Some 1%positive) db)
       = (transactions db ++ [tx])%list
       ∧ CreditTransaction.user tx = 1%positive
       ∧ CreditTransaction.transaction_type tx = CreditTransaction.usage
       ∧ CreditTransaction.amount tx = - 2
       ∧ CreditTransaction.balance_after tx = 1)
  ∧ ledger_sum 1
      (transactions
         (_generate_in_background sample_success 7 "hi" 2 (Some 1%positive) db))
    = ledger_sum 1 (transactions db) - 2
  ∧ notice_deducted 2 1 {| User.credits := 1 |}
    ∈ notifications
        (_generate_in_background sample_success 7 "hi" 2 (Some 1%positive) db).
Proof.
  cbv zeta.
  apply (X8_refused_debit_is_still_recorded sample_success 7 "hi" 2
           (Some 1%positive) _ 1 {| User.credits := 1 |}).
  - reflexivity.
  - simpl. lia.
Defined.



Lemma alter_missing {A} (f : A → A) (tid : N) (tbl : gmap N A) :
  tbl !! tid = None → alter f tid tbl = tbl.
Proof.
  intros Hnone. apply map_eq. intros j.
  destruct (decide (tid = j)) as [<-|Hne].
  - by rewrite lookup_alter_eq, Hnone.
  - by rewrite lookup_alter_ne.
Qed.

(** X10: the charge does not depend on the task row.  For a task id that
    is not in the table, a run whose synthesis and storing succeed changes
    no task and still debits the owner and appends the ['usage'] row. *)
Theorem X10_missing_task_is_still_charged
    (env : WorkerEnv) (task_id : N) (text : string) (credits : Z)
    (user_id : option positive) (db : Db) (uid : positive) (u : User.t) :
  audios db !! task_id = None →
  charged_user env user_id db = Some (uid, u) →
  credits ≤ User.credits u →
  audios (_generate_in_background env task_id text credits user_id db)
  = audios db
  ∧ User.credits <$>
      users (_generate_in_background env task_id text credits user_id db) !! uid
    = Some (User.credits u - credits)
  ∧ transactions (_generate_in_background env task_id text credits user_id db)
    = (transactions db ++ [usage_row uid u text credits])%list.
Proof.
  intros Hnone Hch Hcover.
  destruct (run_charged env task_id text credits user_id db uid u Hch)
    as [Htx Hus].
  assert ((User.credits u >=? credits) = true) as Hge by lia.
  rewrite Hge in Hus.
  split; [|split; [by rewrite Hus, lookup_insert_eq|done]].
  rewrite worker_trace. unfold worker_calls, calls.
  worker_cases; simpl;
    unfold start_processing, update_progress, mark_completed, mark_failed;
    by rewrite !(alter_missing _ _ _ Hnone).
Qed.

Lemma X10_missing_task_is_still_charged_witness :
  audios (_generate_in_background sample_success 8 "hi" 2 (Some 1%positive)
            sample_db)
  = audios sample_db
  ∧ User.credits <$>
      users (_generate_in_background sample_success 8 "hi" 2 (Some 1%positive)
               sample_db) !! 1%positive
    = Some (User.credits {| User.credits := 1000 |} - 2)
  ∧ transactions (_generate_in_background sample_success 8 "hi" 2
                    (Some 1%positive) sample_db)
    = (transactions sample_db
       ++ [usage_row 1 {| User.credits := 1000 |} "hi" 2])%list.
Proof.
  apply (X10_missing_task_is_still_charged sample_success 8 "hi" 2
           (Some 1%positive) sample_db 1 {| User.credits := 1000 |});
    [reflexivity | reflexivity | simpl; lia].
Defined.

(** X11: the notifications of a run.  A run that charges the owner sends
    "Voice Generation Complete" and "Credits Deducted", and after them the
    low-credits warning exactly when the balance it leaves is below 100.  A
    run that does not get that far sends an existing owner exactly one
    notification, of type ['error']; it sends nothing when the task has no
    owner or the owner's row is gone. *)
Theorem X11_notifications_of_a_run
    (env : WorkerEnv) (task_id : N) (text : string) (credits : Z)
    (user_id : option positive) (db : Db) :
  match charged_user env user_id db with
  | Some (uid, u) =>
      let left := User.credits (User.deduct_credits u credits).1 in
      notifications (_generate_in_background env task_id text credits user_id db)
      = (notifications db
         ++ [notice_complete text uid;
             notice_deducted credits uid (User.deduct_credits u credits).1]
         ++ (if left <? 100
             then [Notification.notify_credits_low uid left] else []))%list
  | None =>
      match user_id with
      | Some uid =>
          if owner_missing user_id db
          then notifications
                 (_generate_in_background env task_id text credits user_id db)
               = notifications db
          else ∃ n,
                 notifications
                   (_generate_in_background env task_id text credits user_id db)
                 = (notifications db ++ [n])%list
                 ∧ Notification.user n = uid
                 ∧ Notification.notification_type n = "error"
      | None =>
          notifications
            (_generate_in_background env task_id text credits user_id db)
          = notifications db
      end
  end.
Proof.
  unfold charged_user, owner_missing. run_worker. unfold User.deduct_credits.
  destruct (generate env) as [e|[ap fs d|err]]; simpl.
  - destruct user_id as [uid|]; simpl; [|done].
    destruct (users db !! uid) as [u|] eqn:Hu; simpl; [|done].
    eexists. by repeat split.
  - destruct (storage_save env) as [e|sp]; simpl.
    + destruct user_id as [uid|]; simpl; [|done].
      destruct (users db !! uid) as [u|] eqn:Hu; simpl; [|done].
      eexists. by repeat split.
    + destruct user_id as [uid|]; simpl; [|done].
      destruct (users db !! uid) as [u|] eqn:Hu; simpl; [|by rewrite Hu].
      destruct (User.credits u >=? credits); simpl;
        match goal with |- context [if ?c then _ else _] => destruct c end;
        simpl; by rewrite <- ?(assoc_L (++)).
  - destruct user_id as [uid|]; simpl; [|done].
    destruct (users db !! uid) as [u|] eqn:Hu; simpl; [|by rewrite Hu].
    eexists. by repeat split.
Qed.

Lemma X11_notifications_of_a_run_witness :
  notifications (_generate_in_background sample_success 7 "hi" 2
                   (Some 1%positive)
                   (on_audios <[7%N := sample_task pending 0 0]>
                      (register 50 1 empty_db)))
  = [notice_complete "hi" 1;
     notice_deducted 2 1 {| User.credits := 48 |};
     Notification.notify_credits_low 1 48].
Proof.
  pose proof (X11_notifications_of_a_run sample_success 7 "hi" 2
                (Some 1%positive)
                (on_audios <[7%N := sample_task pending 0 0]>
                   (register 50 1 empty_db))) as H.
  exact H.
Defined.

(** * Further properties of the submission *)

(** X12: [generate_speech] queues a job exactly when the service is
    available, the numeric fields convert, the stripped text is not empty
    and not longer than the maximum, the balance of the authenticated
    account (if any) covers [len(text) * CREDITS_PER_CHARACTER], a reference
    audio was uploaded and could be stored, and the fresh task id is not
    taken. *)
Theorem X12_submission_is_queued_exactly_when
    (cfg : Settings) (senv : SubmitEnv) (req : Request) (db : Db) :
  (∃ resp db' job, generate_speech cfg senv req db = (resp, db', Some job))
  ↔ (is_available senv = true
     ∧ post_conversion_error req = None
     ∧ strip (get_default (post_text req) "") ≠ ""
     ∧ len (strip (get_default (post_text req) "")) ≤ MAX_TEXT_LENGTH cfg
     ∧ (∀ uid u,
          request_user req db = Some (uid, u) →
          len (strip (get_default (post_text req) ""))
          * CREDITS_PER_CHARACTER cfg ≤ User.credits u)
     ∧ has_reference_audio req = true
     ∧ (∃ saved, ref_save senv = inr saved)
     ∧ audios db !! new_task_id senv = None).
Proof.
  unfold generate_speech. split.
  - intros (resp & db' & job & Hq). revert Hq.
    destruct (is_available senv); simpl; [|done].
    destruct (post_conversion_error req); [done|].
    destruct (len _ =? 0) eqn:Hz; [done|].
    destruct (len _ >? MAX_TEXT_LENGTH cfg) eqn:Hgt; [done|].
    destruct (match request_user req db with
              | Some (_, u) => _ | None => false end) eqn:Hbal; [done|].
    destruct (has_reference_audio req); simpl; [|done].
    destruct (ref_save senv) as [?|saved]; [done|].
    unfold create_task.
    destruct (audios db !! new_task_id senv) eqn:Hfresh; [done|].
    intros _. repeat split; try done.
    + intros Hempty. apply len_zero in Hempty. congruence.
    + lia.
    + intros uid u Hu. rewrite Hu in Hbal. lia.
    + by exists saved.
  - intros (-> & -> & Hne & Hfit & Hbal & -> & [saved ->] & Hfresh). simpl.
    destruct (len _ =? 0) eqn:Hz; [by apply len_zero in Hz|].
    assert ((len (strip (get_default (post_text req) ""))
             >? MAX_TEXT_LENGTH cfg) = false) as -> by lia.
    assert (match request_user req db with
            | Some (_, u) =>
                User.credits u
                <? len (strip (get_default (post_text req) ""))
                   * CREDITS_PER_CHARACTER cfg
            | None => false
            end = false) as ->.
    { destruct (request_user req db) as [[uid u]|] eqn:Hu; [|done].
      specialize (Hbal uid u eq_refl). lia. }
    unfold create_task. rewrite Hfresh. by do 3 eexists.
Qed.

Lemma X12_submission_is_queued_exactly_when_witness :
  ∃ resp db' job,
    generate_speech sample_cfg_max_11 sample_submit_env
      sample_accented_request (register 11 1 empty_db)
    = (resp, db', Some job).
Proof.
  apply (X12_submission_is_queued_exactly_when sample_cfg_max_11
           sample_submit_env sample_accented_request
           (register 11 1 empty_db)).
  split; [reflexivity|]. split; [reflexivity|].
  split; [vm_compute; discriminate|].
  split; [vm_compute; discriminate|].
  split; [|split; [reflexivity|split; [by eexists|reflexivity]]].
  intros uid u Hu. vm_compute in Hu. injection Hu as <- <-.
  vm_compute. discriminate.
Defined.

Lemma lstrip_blank (cs : list string) :
  Forall (λ ch, isspace ch = true) cs → lstrip cs = [].
Proof.
  induction 1 as [|ch cs Hch _ IH]; simpl; [done|]. by rewrite Hch.
Qed.

(** X13: a request whose text is missing, empty or made of whitespace only
    (the blank, TAB and the other ASCII blanks as well as U+00A0, U+3000 and
    the other Unicode whitespace) is answered with "Text required",
    whatever else it carries, and changes nothing. *)
Theorem X13_blank_text_is_rejected
    (cfg : Settings) (senv : SubmitEnv) (req : Request) (db : Db) :
  is_available senv = true →
  post_conversion_error req = None →
  (∀ text, post_text req = Some text →
           Forall (λ ch, isspace ch = true) (chars text)) →
  generate_speech cfg senv req db = (JsonError 400 "Text required", db, None).
Proof.
  intros Havail Hconv Hblank. unfold generate_speech.
  rewrite Havail, Hconv. simpl.
  assert (strip (get_default (post_text req) "") = "") as ->; [|done].
  unfold strip. destruct (post_text req) as [text|]; simpl; [|done].
  by rewrite (lstrip_blank _ (Hblank text eq_refl)).
Qed.

Lemma X13_blank_text_is_rejected_witness :
  generate_speech sample_cfg sample_submit_env
    {| req_user := Some 1%positive; post_text := Some sample_blank_text;
       post_conversion_error := None; has_reference_audio := true |}
    sample_db
  = (JsonError 400 "Text required", sample_db, None).
Proof.
  apply X13_blank_text_is_rejected; try reflexivity.
  intros text [= <-]. by apply (bool_decide_unpack _).
Defined.

Lemma request_user_Some (req : Request) (db : Db) (uid : positive)
    (u : User.t) :
  request_user req db = Some (uid, u) → users db !! uid = Some u.
Proof.
  unfold request_user. destruct (req_user req) as [r|]; [|done].
  destruct (users db !! r) eqn:Hr; [|done]. by intros [= <- <-].
Qed.

Lemma request_user_same_users (req : Request) (db db' : Db) :
  users db' = users db → request_user req db' = request_user req db.
Proof. intros Heq. unfold request_user. by rewrite Heq. Qed.

(** X14: a submission reserves nothing: it changes no balance and writes
    no ledger row, so a second submission of the same account is checked
    against the same balance.  When two submissions are both accepted
    although the balance does not cover the two together, and both runs
    succeed, both tasks end ['completed'], the account pays for the first
    only, and the ledger still gets a ['usage'] row for each. *)
Theorem X14_submissions_reserve_no_credits
    (cfg : Settings) (senv1 senv2 : SubmitEnv) (req1 req2 : Request)
    (db0 db1 db2 : Db) (resp1 resp2 : Response) (job1 job2 : Job)
    (env1 env2 : WorkerEnv) (uid : positive) (u : User.t)
    (ap1 ap2 : string) (fs1 fs2 : Z) (d1 d2 sp1 sp2 : string) :
  generate_speech cfg senv1 req1 db0 = (resp1, db1, Some job1) →
  generate_speech cfg senv2 req2 db1 = (resp2, db2, Some job2) →
  job_user_id job1 = Some uid →
  job_user_id job2 = Some uid →
  users db0 !! uid = Some u →
  User.credits u < job_credits job1 + job_credits job2 →
  generate env1 = inr (GenSuccess ap1 fs1 d1) →
  storage_save env1 = inr sp1 →
  generate env2 = inr (GenSuccess ap2 fs2 d2) →
  storage_save env2 = inr sp2 →
  users db2 = users db0
  ∧ transactions db2 = transactions db0
  ∧ job_credits job1 ≤ User.credits u
  ∧ job_credits job2 ≤ User.credits u
  ∧ User.credits <$> users (run_job env2 job2 (run_job env1 job1 db2)) !! uid
    = Some (User.credits u - job_credits job1)
  ∧ (∃ tx1 tx2,
       transactions (run_job env2 job2 (run_job env1 job1 db2))
       = (transactions db0 ++ [tx1; tx2])%list
       ∧ CreditTransaction.user tx1 = uid
       ∧ CreditTransaction.amount tx1 = - job_credits job1
       ∧ CreditTransaction.user tx2 = uid
       ∧ CreditTransaction.amount tx2 = - job_credits job2)
  ∧ status <$>
      audios (run_job env2 job2 (run_job env1 job1 db2)) !! job_task_id job1
    = Some completed
  ∧ status <$>
      audios (run_job env2 job2 (run_job env1 job1 db2)) !! job_task_id job2
    = Some completed.
Proof.
  intros Hq1 Hq2 Ho1 Ho2 Hu Hshort Hg1 Hs1 Hg2 Hs2.
  apply generate_speech_queued in Hq1 as (-> & _ & -> & Hfresh1 & Hcover1).
  apply generate_speech_queued in Hq2 as (-> & _ & -> & Hfresh2 & Hcover2).
  cbn [job_task_id job_text job_credits job_user_id] in *.
  rewrite (request_user_same_users req2 db0) in Ho2, Hcover2 |- * by done.
  destruct (request_user req1 db0) as [[uid1 u1]|] eqn:Hr1; [|done].
  destruct (request_user req2 db0) as [[uid2 u2]|] eqn:Hr2; [|done].
  change (fst <$> Some (uid1, u1)) with (Some uid1) in *.
  change (fst <$> Some (uid2, u2)) with (Some uid2) in *.
  injection Ho1 as ->. injection Ho2 as ->.
  apply request_user_Some in Hr1, Hr2.
  assert (u1 = u) as -> by congruence. assert (u2 = u) as -> by congruence.
  specialize (Hcover1 uid u eq_refl). specialize (Hcover2 uid u eq_refl).
  unfold run_job. cbn [job_task_id job_text job_credits job_user_id].
  set (text1 := strip (get_default (post_text req1) "")) in *.
  set (text2 := strip (get_default (post_text req2) "")) in *.
  set (c1 := len text1 * CREDITS_PER_CHARACTER cfg) in *.
  set (c2 := len text2 * CREDITS_PER_CHARACTER cfg) in *.
  set (tid1 := new_task_id senv1) in *. set (tid2 := new_task_id senv2) in *.
  set (row1 := new_row (now senv1) (Some uid) text1 "custom") in *.
  set (row2 := new_row (now senv2) (Some uid) text2 "custom") in *.
  set (db1 := on_audios (λ _, <[tid1 := row1]> (audios db0)) db0) in *.
  set (db2 := on_audios (λ _, <[tid2 := row2]> (audios db1)) db1) in *.
  set (db3 := _generate_in_background env1 tid1 text1 c1 (Some uid) db2).
  set (db4 := _generate_in_background env2 tid2 text2 c2 (Some uid) db3).
  assert (tid1 ≠ tid2) as Hne.
  { intros Heq. rewrite <- Heq in Hfresh2. subst db1. simpl in Hfresh2.
    by rewrite lookup_insert_eq in Hfresh2. }
  assert (audios db2 !! tid1 = Some row1) as Hrow1.
  { subst db2 db1. simpl. rewrite lookup_insert_ne by done.
    apply lookup_insert_eq. }
  assert (audios db2 !! tid2 = Some row2) as Hrow2
    by (subst db2; simpl; apply lookup_insert_eq).
  assert (users db2 !! uid = Some u) as Hu2 by done.
  destruct (run_charged env1 tid1 text1 c1 (Some uid) db2 uid u)
    as [Htx3 Hus3]; [by eapply charged_user_success|].
  fold db3 in Htx3, Hus3.
  assert ((User.credits u >=? c1) = true) as Hge1 by lia.
  rewrite Hge1 in Hus3.
  assert (users db3 !! uid = Some {| User.credits := User.credits u - c1 |})
    as Hu3 by (rewrite Hus3; apply lookup_insert_eq).
  destruct (run_charged env2 tid2 text2 c2 (Some uid) db3 uid
              {| User.credits := User.credits u - c1 |})
    as [Htx4 Hus4]; [by eapply charged_user_success|].
  fold db4 in Htx4, Hus4. simpl in Hus4.
  assert ((User.credits u - c1 >=? c2) = false) as Hge2 by lia.
  rewrite Hge2 in Hus4.
  split; [done|]. split; [done|]. split; [done|]. split; [done|].
  split; [by rewrite Hus4, Hu3|].
  split.
  { do 2 eexists. split.
    - rewrite Htx4, Htx3. rewrite <- (assoc_L (++)). reflexivity.
    - by repeat split. }
  assert (audios db3 !! tid1
          = Some (set_completed (t_end env1) sp1 fs1 d1
                    (set_progress (Z.min 80 99)
                       (set_progress (Z.min 20 99)
                          (set_processing (t_start env1) row1))))) as Hau1.
  { unfold db3. erewrite run_success_audios; [|done|done|by exists u].
    by read_task Hrow1. }
  split.
  - unfold db4. rewrite worker_other_task by done. by rewrite Hau1.
  - unfold db4.
    erewrite run_success_audios;
      [|done|done|by exists {| User.credits := User.credits u - c1 |}].
    assert (audios db3 !! tid2 = Some row2) as Hau2.
    { unfold db3. rewrite worker_other_task by done. done. }
    by read_task Hau2.
Qed.

Lemma X14_submissions_reserve_no_credits_witness :
  let req := sample_request (Some 1%positive) true in
  let db0 := register 15 1 empty_db in
  let first := generate_speech sample_cfg sample_submit_env req db0 in
  let second := generate_speech sample_cfg sample_submit_env_2 req first.1.2 in
  let job2 := {| job_task_id := 8; job_text := "hello world";
                 job_credits := 11; job_user_id := Some 1%positive |} in
  User.credits <$>
    users (run_job sample_success job2
             (run_job sample_success (sample_job 11) second.1.2)) !! 1%positive
  = Some 4
  ∧ ∃ tx1 tx2,
      transactions (run_job sample_success job2
                      (run_job sample_success (sample_job 11) second.1.2))
      = [tx1; tx2]
      ∧ CreditTransaction.amount tx1 = -11
      ∧ CreditTransaction.amount tx2 = -11.
Proof.
  cbv zeta.
  set (req := sample_request (Some 1%positive) true).
  set (db0 := register 15 1 empty_db).
  set (first := generate_speech sample_cfg sample_submit_env req db0).
  set (second := generate_speech sample_cfg sample_submit_env_2 req first.1.2).
  set (job2 := {| job_task_id := 8; job_text := "hello world";
                  job_credits := 11; job_user_id := Some 1%positive |}).
  destruct (X14_submissions_reserve_no_credits sample_cfg sample_submit_env
              sample_submit_env_2 req req db0 first.1.2 second.1.2
              first.1.1 second.1.1 (sample_job 11) job2
              sample_success sample_success 1 {| User.credits := 15 |}
              "/tmp/out.wav" "/tmp/out.wav" 2048 2048 "1.5" "1.5"
              "voices/out.wav" "voices/out.wav")
    as (_ & _ & _ & _ & Hbal & (tx1 & tx2 & Htx & _ & Ha1 & _ & Ha2) & _);
    try reflexivity.
  split; [exact Hbal|]. exists tx1, tx2. by repeat split.
Defined.

(** * Properties of the synthesis service *)

Section ServiceProperties.

Import TTSAPIService.

Lemma generate_result_cases (self : TTSAPIService.t) (w : World)
    (reference_audio : string) :
  (∃ p s d, generate self w reference_audio = GenSuccess p s d)
  ∨ (∃ e, generate self w reference_audio = GenFailure (Some e)).
Proof.
  unfold generate, fail, timeout_result.
  repeat match goal with
         | |- context [if ?c then _ else _] => destruct c; simpl
         | |- context [match ?x with _ => _ end] => destruct x; simpl
         end; eauto.
Qed.

(** X15: [generate] reports success exactly when the service is
    configured, the reference audio exists, is at least 1000 bytes long and
    could be encoded, the API answered with status 200 and a JSON object
    whose ['success'] is truthy and that holds audio data (under
    ['audio_data'] or else ['audio']), and the audio could be decoded and
    measured; the result then names the output file and its size.  In every
    other case the result is a failure that carries an error text. *)
Theorem X15_generate_succeeds_exactly_when
    (self : TTSAPIService.t) (w : World) (reference_audio : string)
    (path : string) (size : Z) (duration : string) :
  (generate self w reference_audio = GenSuccess path size duration
   ↔ is_available self = true
     ∧ ref_exists w = true
     ∧ (∃ ref_size, ref_getsize w = inr ref_size ∧ 1000 ≤ ref_size)
     ∧ is_Some (nonempty (ref_base64 w))
     ∧ (∃ r result,
          post w = PostResponse r
          ∧ status_code r = 200
          ∧ json r = inr (JsonObject result)
          ∧ j_success result = true
          ∧ (is_Some (nonempty (j_audio_data result))
             ∨ is_Some (nonempty (j_audio result)))
          ∧ duration = match j_duration result with
                       | Some d => d
                       | None => get_default (sf_duration w) "0"
                       end)
     ∧ decode_ok w = true
     ∧ out_getsize w = inr size
     ∧ path = output_path w)
  ∧ ((∃ p s d, generate self w reference_audio = GenSuccess p s d)
     ∨ (∃ e, generate self w reference_audio = GenFailure (Some e))).
Proof.
  unfold generate, fail, timeout_result. split; [split|].
  - destruct (is_available self); simpl; [|done].
    destruct (ref_exists w); simpl; [|done].
    destruct (ref_getsize w) as [e|ref_size]; [done|].
    destruct (ref_size =? 0) eqn:Hz; [done|].
    destruct (ref_size <? 1000) eqn:Hlt; [done|].
    destruct (nonempty (ref_base64 w)) eqn:Hb64; [|done].
    destruct (post w) as [| |e|r]; try done.
    destruct (status_code r =? 200) eqn:Hst; simpl; [|done].
    destruct (json r) as [e|[result|? ?]] eqn:Hjson; try done.
    destruct (j_success result) eqn:Hsucc; simpl; [|done].
    destruct (nonempty (j_audio_data result)) eqn:Ha1;
      [|destruct (nonempty (j_audio result)) eqn:Ha2; [|done]];
      (destruct (decode_ok w); simpl; [|done];
       destruct (out_getsize w) as [e|fs]; [done|];
       intros [= <- <- <-];
       repeat split; try done;
       [ exists ref_size; split; [done|lia]
       | exists r, result; repeat split; try done; try lia; eauto ]).
  - intros (-> & -> & (ref_size & -> & Hbig) & [b64 ->]
            & (r & result & -> & Hst & -> & -> & Haudio & ->)
            & -> & -> & ->). simpl.
    assert ((ref_size =? 0) = false) as -> by lia.
    assert ((ref_size <? 1000) = false) as -> by lia.
    rewrite Hst. simpl.
    destruct Haudio as [[a ->]|[a Ha]]; [done|].
    rewrite Ha. by destruct (nonempty (j_audio_data result)).
  - fold (fail "TTS API not configured. Set TTS_API_URL in settings.").
    apply generate_result_cases.
Qed.

End ServiceProperties.

Lemma X15_generate_succeeds_exactly_when_witness :
  TTSAPIService.generate sample_service
    (sample_world
       (TTSAPIService.PostResponse
          (sample_response 200
             (inr (TTSAPIService.JsonObject sample_ok_body)) "")))
    "/media/ref.wav"
  = GenSuccess "/tmp/tts_output.wav" 4096 "2.5".
Proof.
  apply (X15_generate_succeeds_exactly_when sample_service).
  repeat split; try reflexivity.
  - exists 2000. split; [reflexivity|lia].
  - by eexists.
  - eexists _, sample_ok_body. repeat split; try reflexivity.
    right. by eexists.
Defined.

Section ServiceErrors.

Import TTSAPIService.

(** X16: when the API answers with a status other than 200, the result is
    a failure whose error text is the ['error'] entry of the JSON body,
    else its ['message'] entry; when the body cannot be read as JSON it is
    the beginning of the raw body, cut at 200 characters, and for an empty
    body the text "API returned status N". *)
Theorem X16_error_text_of_a_refused_request
    (self : TTSAPIService.t) (w : World) (reference_audio : string)
    (r : HttpResponse) (ref_size : Z) :
  is_available self = true →
  ref_exists w = true →
  ref_getsize w = inr ref_size →
  1000 ≤ ref_size →
  is_Some (nonempty (ref_base64 w)) →
  post w = PostResponse r →
  status_code r ≠ 200 →
  ∃ msg,
    generate self w reference_audio = GenFailure (Some msg)
    ∧ (∀ o e, json r = inr (JsonObject o) → j_error o = Some e → msg = e)
    ∧ (∀ o m, json r = inr (JsonObject o) → j_error o = None →
              j_message o = Some m → msg = m)
    ∧ (∀ e, json r = inl e → resp_text r ≠ "" →
            len msg ≤ 200
            ∧ ∃ rest, resp_text r = msg +:+ rest)
    ∧ (∀ e, json r = inl e → resp_text r = "" →
            msg = "API returned status " +:+ str_of_Z (status_code r)).
Proof.
  intros Havail Hex Hsize Hbig [b64 Hb64] Hpost Hst.
  exists (error_of_response r). unfold generate, fail.
  rewrite Havail, Hex, Hsize, Hb64, Hpost. simpl.
  assert ((ref_size =? 0) = false) as -> by lia.
  assert ((ref_size <? 1000) = false) as -> by lia.
  assert ((status_code r =? 200) = false) as -> by lia. simpl.
  split; [done|]. unfold error_of_response.
  split; [by intros o e -> ->|]. split; [by intros o m -> -> ->|].
  split.
  - intros e -> Htext.
    destruct (String.eqb (resp_text r) "") eqn:Heq;
      [by apply String.eqb_eq in Heq|].
    apply (take_chars_prefix 200).
  - intros e -> ->. done.
Qed.

Lemma X16_error_text_of_a_refused_request_witness :
  ∃ msg,
    generate sample_service
      (sample_world
         (PostResponse
            (sample_response 503 (inl "Expecting value") "Service down")))
      "/media/ref.wav"
    = GenFailure (Some msg)
    ∧ len msg ≤ 200
    ∧ ∃ rest, "Service down" = msg +:+ rest.
Proof.
  destruct (X16_error_text_of_a_refused_request sample_service
              (sample_world
                 (PostResponse
                    (sample_response 503 (inl "Expecting value")
                       "Service down")))
              "/media/ref.wav"
              (sample_response 503 (inl "Expecting value") "Service down")
              2000)
    as (msg & Hres & _ & _ & Htext & _);
    [reflexivity | reflexivity | reflexivity | lia | by eexists
    | reflexivity | simpl; lia | ].
  exists msg. split; [exact Hres|].
  apply (Htext "Expecting value"); [reflexivity|discriminate].
Defined.

End ServiceErrors.

(** X17: the worker wired to this service.  Since [generate] catches every
    exception and every failure it returns carries an error text, a run of
    the worker never takes its "Unknown error" default: when the synthesis
    fails, the task (with no owner, or an owner whose row exists) ends
    ['failed'] at progress 80 with exactly the service's error text, marked
    at the time of the result; for a timeout of the API that is
    "API request timed out after N seconds". *)
Theorem X17_service_error_text_reaches_the_task
    (svc : TTSAPIService.t) (w : TTSAPIService.World)
    (reference_audio : string)
    (env : WorkerEnv) (task_id : N) (text : string) (credits : Z)
    (user_id : option positive) (db : Db) (task : GeneratedAudio.t) :
  audios db !! task_id = Some task →
  generate env = inr (TTSAPIService.generate svc w reference_audio) →
  owner_missing user_id db = false →
  match TTSAPIService.generate svc w reference_audio with
  | GenSuccess _ _ _ => True
  | GenFailure error =>
      ∃ e task',
        error = Some e
        ∧ audios (_generate_in_background env task_id text credits user_id db)
            !! task_id = Some task'
        ∧ status task' = failed
        ∧ error_message task' = e
        ∧ progress task' = 80
        ∧ completed_at task' = Some (t_end env)
        ∧ (TTSAPIService.generate svc w reference_audio
           = timeout_result (TTSAPIService.api_timeout svc) →
           e = "API request timed out after "
               +:+ str_of_Z (TTSAPIService.api_timeout svc) +:+ " seconds")
  end.
Proof.
  intros Hin Hgen Howner.
  destruct (generate_result_cases svc w reference_audio)
    as [(p & s & d & Hok)|(e & Hfail)].
  - by rewrite Hok.
  - rewrite Hfail. rewrite Hfail in Hgen.
    exists e. eexists. split; [done|].
    rewrite worker_trace. unfold worker_calls, calls.
    rewrite Hgen, Howner. simpl. read_task Hin.
    split; [reflexivity|]. simpl. repeat split.
    unfold timeout_result. by intros [= ->].
Qed.

Lemma X17_service_error_text_reaches_the_task_witness :
  ∃ task',
    audios (_generate_in_background
              (sample_wired (sample_world TTSAPIService.PostTimeout))
              7 "hi" 2 (Some 1%positive) sample_db) !! 7%N = Some task'
    ∧ status task' = failed
    ∧ error_message task' = "API request timed out after 300 seconds".
Proof.
  pose proof (X17_service_error_text_reaches_the_task sample_service
                (sample_world TTSAPIService.PostTimeout) "/media/ref.wav"
                (sample_wired (sample_world TTSAPIService.PostTimeout))
                7 "hi" 2 (Some 1%positive) sample_db
                (sample_task pending 0 0) eq_refl eq_refl eq_refl) as H.
  change (TTSAPIService.generate sample_service
            (sample_world TTSAPIService.PostTimeout) "/media/ref.wav")
    with (timeout_result 300) in H.
  destruct H as (e & task' & _ & Hrow & Hst & Herr & _ & _ & Htime).
  exists task'. split; [exact Hrow|]. split; [exact Hst|].
  rewrite Herr. by apply Htime.
Defined.

(** * Credits given by an administrator *)

Section AdminProperties.

Import AdminCredits.

(** X18: [admin_add_credits] accepts a request exactly when the user exists
    and the amount is an integer above zero (or [True], which counts as 1).
    An accepted request raises the balance by the amount and appends one
    ['bonus'] ledger row of that amount whose [balance_after] is the new
    balance, so the difference between the balance and the account's ledger
    sum is kept; the response reports the new balance.  A rejected request
    changes nothing and logs nothing. *)
Theorem X18_admin_add_credits_is_recorded
    (admin_email : string) (amount : JsonValue) (user_id : positive)
    (db db' : Db) (resp : Response) (log : option ActivityEntry) :
  admin_add_credits admin_email amount user_id db = (resp, db', log) →
  ((∃ msg balance, resp = Ok msg balance)
   ↔ is_Some (users db !! user_id)
     ∧ ∃ i, amount = JInt i ∧ 0 < int_of i)
  ∧ (∀ user i,
       users db !! user_id = Some user → amount = JInt i → 0 < int_of i →
       resp = Ok (str_of i +:+ " credits added successfully")
                 (User.credits user + int_of i)
       ∧ users db'
         = <[user_id := {| User.credits := User.credits user + int_of i |}]>
             (users db)
       ∧ transactions db'
         = (transactions db ++
            [CreditTransaction.mk user_id (int_of i) CreditTransaction.bonus
               ("Credits added by admin " +:+ admin_email)
               (User.credits user + int_of i)])%list
       ∧ (User.credits user + int_of i)
         - ledger_sum user_id (transactions db')
         = User.credits user - ledger_sum user_id (transactions db)
       ∧ audios db' = audios db
       ∧ notifications db' = notifications db
       ∧ ∃ entry, log = Some entry
                  ∧ meta_old_credits entry = User.credits user
                  ∧ meta_new_credits entry = User.credits user + int_of i)
  ∧ ((∃ code error, resp = Error code error) → db' = db ∧ log = None).
Proof.
  unfold admin_add_credits. intros Hrun.
  destruct (users db !! user_id) as [user|] eqn:Huser.
  - destruct amount as [i|].
    + unfold invalid_amount in Hrun.
      destruct ((int_of i =? 0) || (int_of i <=? 0)) eqn:Hbad.
      * injection Hrun as <- <- <-.
        split; [split|split].
        -- by intros (? & ? & ?).
        -- intros (_ & i' & [= <-] & Hpos). lia.
        -- intros u i' _ [= <-] Hpos. lia.
        -- done.
      * injection Hrun as <- <- <-.
        assert (0 < int_of i) as Hpos by lia.
        split; [split|split].
        -- intros _. split; [done|]. by exists i.
        -- intros _. by eexists _, _.
        -- intros u i' [= <-] [= <-] _. simpl.
           split; [done|]. split; [done|]. split; [done|].
           split; [|split; [done|split; [done|by eexists]]].
           rewrite ledger_sum_app. simpl.
           destruct (decide (user_id = user_id)); [lia|done].
        -- by intros (? & ? & ?).
    + injection Hrun as <- <- <-.
      split; [split|split].
      * by intros (? & ? & ?).
      * by intros (_ & i & ? & _).
      * by intros u i _ ?.
      * done.
  - injection Hrun as <- <- <-.
    split; [split|split].
    + by intros (? & ? & ?).
    + by intros ([? ?] & _).
    + by intros u i ?.
    + done.
Qed.

End AdminProperties.

Lemma X18_admin_add_credits_is_recorded_witness :
  (AdminCredits.admin_add_credits "root@example.com"
     (AdminCredits.JInt (AdminCredits.PyBool true)) 2 sample_accounts).1.1
  = AdminCredits.Ok "True credits added successfully" 41.
Proof.
  destruct (AdminCredits.admin_add_credits "root@example.com"
              (AdminCredits.JInt (AdminCredits.PyBool true)) 2
              sample_accounts) as [[resp db'] log] eqn:Hrun.
  destruct (X18_admin_add_credits_is_recorded _ _ _ _ _ _ _ Hrun)
    as (_ & Hok & _).
  destruct (Hok {| User.credits := 40 |} (AdminCredits.PyBool true))
    as (Hresp & _); [reflexivity | reflexivity | simpl; lia |].
  exact Hresp.
Defined.

Section BulkActions.

Import AdminCredits.

(** The rows a queryset yields. *)
Lemma elem_of_fetch (queryset : list positive) (db : Db) (uid : positive)
    (u : User.t) :
  (uid, u) ∈ fetch queryset db ↔ uid ∈ queryset ∧ users db !! uid = Some u.
Proof.
  unfold fetch. rewrite list_elem_of_omap. split.
  - intros (k & Hk & Hrow).
    destruct (users db !! k) as [u'|] eqn:Hu; simpl in Hrow; [|done].
    by injection Hrow as -> ->.
  - intros [Hin Hu]. exists uid. by rewrite Hu.
Qed.

Lemma fetch_keys (queryset : list positive) (db : Db) :
  NoDup queryset → NoDup (fetch queryset db).*1.
Proof.
  unfold fetch. induction 1 as [|k ks Hk _ IH]; simpl; [constructor|].
  destruct (users db !! k) as [u|] eqn:Hu; simpl; [|done].
  constructor; [|done].
  rewrite list_elem_of_fmap. intros ([k' u'] & -> & Hin).
  apply (elem_of_fetch ks db) in Hin as [Hin _]. done.
Qed.

Lemma fetch_same_keys (queryset : list positive) (db db' : Db) :
  (∀ uid, is_Some (users db' !! uid) ↔ is_Some (users db !! uid)) →
  count queryset db' = count queryset db.
Proof.
  intros Hdom. unfold count, fetch. apply (f_equal Z.of_nat).
  induction queryset as [|k ks IH]; simpl; [done|].
  specialize (Hdom k).
  destruct (users db !! k) as [u|], (users db' !! k) as [u'|]; simpl.
  - simpl in IH. by f_equal.
  - destruct Hdom as [_ H]. destruct H as [? ?]; [by eexists|done].
  - destruct Hdom as [H _]. destruct H as [? ?]; [by eexists|done].
  - done.
Qed.

(** A loop over fetched rows whose body rewrites the row it was handed. *)
Lemma for_each_row (body : Db → positive * User.t → Db)
    (h : User.t → User.t) :
  (∀ db uid u, users db !! uid = Some u →
               body db (uid, u) = save uid (h u) db) →
  ∀ (rows : list (positive * User.t)) (db : Db),
    NoDup rows.*1 →
    (∀ uid u, (uid, u) ∈ rows → users db !! uid = Some u) →
    transactions (foldl body db rows) = transactions db
    ∧ audios (foldl body db rows) = audios db
    ∧ notifications (foldl body db rows) = notifications db
    ∧ (∀ uid u, (uid, u) ∈ rows →
                users (foldl body db rows) !! uid = Some (h u))
    ∧ (∀ uid, uid ∉ rows.*1 →
              users (foldl body db rows) !! uid = users db !! uid).
Proof.
  intros Hbody rows. induction rows as [|[k u] rows IH]; intros db Hnd Hrows.
  - simpl. repeat split; try done. intros uid u Hin. by apply elem_of_nil in Hin.
  - simpl in *. apply NoDup_cons in Hnd as [Hk Hnd].
    assert (users db !! k = Some u) as Hu by (apply Hrows; left).
    rewrite (Hbody db k u Hu).
    destruct (IH (save k (h u) db) Hnd) as (Htx & Hau & Hno & Hin & Hout).
    { intros uid u' Hin'. simpl.
      rewrite lookup_insert_ne; [apply Hrows; by right|].
      intros ->. apply Hk. apply list_elem_of_fmap. by exists (uid, u'). }
    rewrite Htx, Hau, Hno. repeat split; try done.
    + intros uid u' Hin'. apply elem_of_cons in Hin' as [[= -> ->]|Hin'].
      * rewrite Hout; [|done]. simpl. by rewrite lookup_insert_eq.
      * by apply Hin.
    + intros uid Hnot. rewrite not_elem_of_cons in Hnot.
      destruct Hnot as [Hne Hnot]. rewrite Hout; [|done].
      simpl. by rewrite lookup_insert_ne.
Qed.

(** The same for a queryset. *)
Lemma for_each_user (body : Db → positive * User.t → Db)
    (h : User.t → User.t) (queryset : list positive) (db : Db) :
  (∀ db uid u, users db !! uid = Some u →
               body db (uid, u) = save uid (h u) db) →
  NoDup queryset →
  transactions (foldl body db (fetch queryset db)) = transactions db
  ∧ audios (foldl body db (fetch queryset db)) = audios db
  ∧ notifications (foldl body db (fetch queryset db)) = notifications db
  ∧ (∀ uid, users (foldl body db (fetch queryset db)) !! uid
            = if decide (uid ∈ queryset)
              then h <$> users db !! uid
              else users db !! uid).
Proof.
  intros Hbody Hnd.
  destruct (for_each_row body h Hbody (fetch queryset db) db)
    as (Htx & Hau & Hno & Hin & Hout).
  { by apply fetch_keys. }
  { intros uid u Hrow. by apply elem_of_fetch in Hrow as [_ ?]. }
  repeat split; try done. intros uid.
  destruct (users db !! uid) as [u|] eqn:Hu.
  - destruct (decide (uid ∈ queryset)) as [Hsel|Hsel].
    + apply Hin. by apply elem_of_fetch.
    + rewrite Hout, Hu; [done|].
      rewrite list_elem_of_fmap. intros ([k u'] & -> & Hrow).
      by apply elem_of_fetch in Hrow as [? _].
  - rewrite Hout, Hu; [by destruct (decide _)|].
    rewrite list_elem_of_fmap. intros ([k u'] & -> & Hrow).
    apply elem_of_fetch in Hrow as [_ Hrow]. simpl in Hu.
    rewrite Hu in Hrow. discriminate.
Qed.

(** X19: the admin actions that add 100, 500 or 1000 credits raise the
    balance of every selected user by exactly that number and of nobody
    else, and write no ledger row, no notification and no task: unlike
    [admin_add_credits], they move the balance away from the account's
    ledger sum.  The message counts the selected users. *)
Theorem X19_bulk_credits_leave_no_ledger_row
    (action : list positive → Db → Db * string) (n : Z)
    (queryset : list positive) (db : Db) :
  (action, n) ∈ [(add_credits_100, 100); (add_credits_500, 500);
                 (add_credits_1000, 1000)] →
  NoDup queryset →
  transactions (action queryset db).1 = transactions db
  ∧ notifications (action queryset db).1 = notifications db
  ∧ audios (action queryset db).1 = audios db
  ∧ (∀ uid, users (action queryset db).1 !! uid
            = if decide (uid ∈ queryset)
              then (λ u, User.add_credits u n) <$> users db !! uid
              else users db !! uid)
  ∧ (∀ uid u u', uid ∈ queryset → users db !! uid = Some u →
       users (action queryset db).1 !! uid = Some u' →
       User.credits u'
       - ledger_sum uid (transactions (action queryset db).1)
       = User.credits u - ledger_sum uid (transactions db) + n)
  ∧ (action queryset db).2
    = "Added " +:+ str_of_Z n +:+ " credits to "
      +:+ str_of_Z (count queryset db) +:+ " user(s).".
Proof.
  intros Hact Hnd.
  assert (∃ body,
            (∀ db uid u, users db !! uid = Some u →
               body db (uid, u) = save uid (User.add_credits u n) db)
            ∧ (action queryset db).1 = foldl body db (fetch queryset db)
            ∧ (action queryset db).2
              = "Added " +:+ str_of_Z n +:+ " credits to "
                +:+ str_of_Z (count queryset
                                (foldl body db (fetch queryset db)))
                +:+ " user(s).")
    as (body & Hbody & -> & ->).
  { rewrite !elem_of_cons in Hact.
    destruct Hact as [[= -> ->]|[[= -> ->]|[[= -> ->]|Hact]]];
      [| | |by apply elem_of_nil in Hact];
      (eexists; split; [|split; reflexivity]); done. }
  destruct (for_each_user body (λ u, User.add_credits u n) queryset db
              Hbody Hnd) as (Htx & Hau & Hno & Husers).
  rewrite Htx. repeat split; try done.
  - intros uid u u' Hsel Hu Hu'. rewrite Husers, Hu in Hu'.
    destruct (decide (uid ∈ queryset)); [|done].
    injection Hu' as <-. simpl. lia.
  - rewrite (fetch_same_keys queryset db); [done|].
    intros uid. rewrite Husers.
    destruct (decide _); [|done]. by rewrite fmap_is_Some.
Qed.

(** X20: the admin action [remove_credits_100] takes exactly 100 credits
    from every selected user who has at least 100 and leaves every other
    balance as it is, so no balance that was not negative becomes negative;
    it writes no ledger row.  The message counts every selected user, also
    those from whom nothing was taken. *)
Theorem X20_bulk_removal_never_overdraws
    (queryset : list positive) (db : Db) :
  NoDup queryset →
  transactions (remove_credits_100 queryset db).1 = transactions db
  ∧ (∀ uid, users (remove_credits_100 queryset db).1 !! uid
            = if decide (uid ∈ queryset)
              then (λ u, if User.credits u >=? 100
                         then {| User.credits := User.credits u - 100 |}
                         else u) <$> users db !! uid
              else users db !! uid)
  ∧ (∀ uid u u', users db !! uid = Some u →
       users (remove_credits_100 queryset db).1 !! uid = Some u' →
       (0 ≤ User.credits u → 0 ≤ User.credits u')
       ∧ User.credits u - 100 ≤ User.credits u' ≤ User.credits u)
  ∧ (remove_credits_100 queryset db).2
    = "Removed 100 credits from " +:+ str_of_Z (count queryset db)
      +:+ " user(s).".
Proof.
  intros Hnd. unfold remove_credits_100. simpl.
  set (body := λ (db : Db) '(uid, user),
                 if User.credits user >=? 100
                 then (deduct_credits uid user 100 db).1
                 else db).
  set (h := λ u, if User.credits u >=? 100
                 then {| User.credits := User.credits u - 100 |}
                 else u).
  assert (∀ db uid u, users db !! uid = Some u →
                      body db (uid, u) = save uid (h u) db) as Hbody.
  { intros db0 uid u Hu. unfold body, h, deduct_credits, User.deduct_credits.
    destruct (User.credits u >=? 100) eqn:Hge; simpl; [done|].
    unfold save, on_users. destruct db0 as [us au tx no]. simpl in *.
    f_equal. by rewrite insert_id. }
  destruct (for_each_user body h queryset db Hbody Hnd)
    as (Htx & Hau & Hno & Husers).
  split; [done|]. split; [done|]. split.
  - intros uid u u' Hu Hu'. rewrite Husers, Hu in Hu'.
    destruct (decide (uid ∈ queryset)).
    + injection Hu' as <-. unfold h.
      destruct (User.credits u >=? 100) eqn:Hge; simpl; lia.
    + injection Hu' as <-. lia.
  - rewrite (fetch_same_keys queryset db); [done|].
    intros uid. rewrite Husers.
    destruct (decide _); [|done]. by rewrite fmap_is_Some.
Qed.

End BulkActions.

Lemma X19_bulk_credits_leave_no_ledger_row_witness :
  users (AdminCredits.add_credits_500 [2; 3]%positive sample_accounts).1
    !! 2%positive
  = Some {| User.credits := 540 |}
  ∧ transactions
      (AdminCredits.add_credits_500 [2; 3]%positive sample_accounts).1 = [].
Proof.
  destruct (X19_bulk_credits_leave_no_ledger_row
              AdminCredits.add_credits_500 500 [2; 3]%positive
              sample_accounts)
    as (Htx & _ & _ & Husers & _).
  - rewrite !elem_of_cons. right. left. reflexivity.
  - by apply (bool_decide_unpack _).
  - split; [|exact Htx]. rewrite Husers. reflexivity.
Defined.

Lemma X20_bulk_removal_never_overdraws_witness :
  users (AdminCredits.remove_credits_100 [2; 3]%positive sample_accounts).1
    !! 2%positive
  = Some {| User.credits := 40 |}
  ∧ users (AdminCredits.remove_credits_100 [2; 3]%positive sample_accounts).1
      !! 3%positive
    = Some {| User.credits := 0 |}
  ∧ (AdminCredits.remove_credits_100 [2; 3]%positive sample_accounts).2
    = "Removed 100 credits from 2 user(s).".
Proof.
  destruct (X20_bulk_removal_never_overdraws [2; 3]%positive sample_accounts)
    as (_ & Husers & _ & Hmsg).
  - by apply (bool_decide_unpack _).
  - split; [|split].
    + rewrite Husers. reflexivity.
    + rewrite Husers. reflexivity.
    + rewrite Hmsg. reflexivity.
Defined.

(** * The Stripe webhook *)

Section WebhookProperties.

Import StripeWebhookView.

(** X21: a verified ['payment_intent.succeeded'] event whose payment is
    ['pending'] and whose user exists marks the payment ['completed'] at
    the time of the delivery, raises the user's balance by the payment's
    [credits_awarded] and appends one ['purchase'] ledger row of that
    amount with the new balance, so the difference between the balance and
    the account's ledger sum is kept; the event is logged and the answer is
    the success response. *)
Theorem X21_webhook_credits_a_pending_payment
    (now : Z) (event : Event) (s : Shop) (payment : Payment.t)
    (user : User.t) :
  event_type event = "payment_intent.succeeded" →
  payments s !! object_id event = Some payment →
  Payment.status payment = Payment.pending →
  users (db s) !! Payment.user payment = Some user →
  let s' := (post now (Verified event) s).1 in
  let balance := User.credits user + Payment.credits_awarded payment in
  (post now (Verified event) s).2 = inr Success
  ∧ payments s'
    = <[object_id event :=
          Payment.mk (Payment.user payment) (Payment.payment_method payment)
            Payment.completed (Payment.credits_awarded payment) (Some now)]>
        (payments s)
  ∧ users (db s')
    = <[Payment.user payment := {| User.credits := balance |}]>
        (users (db s))
  ∧ transactions (db s')
    = (transactions (db s) ++
       [CreditTransaction.mk (Payment.user payment)
          (Payment.credits_awarded payment) CreditTransaction.purchase
          ("Credit purchase via " +:+ Payment.payment_method payment)
          balance])%list
  ∧ balance - ledger_sum (Payment.user payment) (transactions (db s'))
    = User.credits user
      - ledger_sum (Payment.user payment) (transactions (db s))
  ∧ webhooks s'
    = (webhooks s ++ [("stripe", "payment_intent.succeeded")])%list.
Proof.
  intros Htype Hpay Hpending Huser. simpl.
  unfold post, _handle_successful_payment. rewrite Htype. simpl.
  rewrite Hpay. destruct (decide _) as [_|]; [|done]. simpl.
  rewrite Huser. simpl. repeat split.
  rewrite ledger_sum_app. simpl.
  destruct (decide (Payment.user payment = Payment.user payment)); [lia|done].
Qed.

(** X22: the webhook credits a payment at most once.  After a delivery of
    a ['payment_intent.succeeded'] event, whatever the state before, a
    second delivery of the same event changes no balance, no ledger row and
    no payment: it only adds its own entry to the event log and answers
    with the success response.  The same holds for every delivery whose
    payment is unknown or not ['pending'], and an event that failed the
    signature check changes nothing at all. *)
Theorem X22_webhook_replay_credits_nothing
    (now now' : Z) (event : Event) (s : Shop) :
  event_type event = "payment_intent.succeeded" →
  let s1 := (post now (Verified event) s).1 in
  let s2 := (post now' (Verified event) s1).1 in
  db s2 = db s1
  ∧ payments s2 = payments s1
  ∧ webhooks s2
    = (webhooks s1 ++ [("stripe", "payment_intent.succeeded")])%list
  ∧ (post now' (Verified event) s1).2 = inr Success
  ∧ (∀ payment,
       payments s !! object_id event = Some payment →
       Payment.status payment ≠ Payment.pending →
       db s1 = db s ∧ payments s1 = payments s)
  ∧ (payments s !! object_id event = None →
     db s1 = db s ∧ payments s1 = payments s)
  ∧ (post now InvalidPayload s).1 = s
  ∧ (post now InvalidSignature s).1 = s.
Proof.
  intros Htype. cbv zeta.
  assert (∀ t (s0 : Shop),
            match payments s0 !! object_id event with
            | Some p => Payment.status p ≠ Payment.pending
            | None => True
            end →
            post t (Verified event) s0
            = ({| db := db s0; payments := payments s0;
                  webhooks := webhooks s0
                              ++ [("stripe", "payment_intent.succeeded")] |},
               inr Success)) as Hidle.
  { intros t s0 Hs0. unfold post, _handle_successful_payment.
    rewrite Htype. simpl.
    destruct (payments s0 !! object_id event) as [p|]; [|done].
    by destruct (decide (Payment.status p = Payment.pending)). }
  assert (match payments (post now (Verified event) s).1 !! object_id event with
          | Some p => Payment.status p ≠ Payment.pending
          | None => True
          end) as Hdone.
  { unfold post, _handle_successful_payment. rewrite Htype. simpl.
    destruct (payments s !! object_id event) as [p|] eqn:Hp; simpl;
      [|by rewrite Hp].
    destruct (decide (Payment.status p = Payment.pending)) as [Hpend|Hpend];
      simpl; [|by rewrite Hp].
    destruct (users (db s) !! Payment.user p); simpl;
      by rewrite lookup_insert_eq. }
  rewrite (Hidle now' _ Hdone). cbn [fst snd db payments webhooks].
  split; [done|]. split; [done|]. split; [done|]. split; [done|].
  split; [|split; [|done]].
  - intros payment Hpay Hstatus. rewrite Hidle; [done|]. by rewrite Hpay.
  - intros Hpay. rewrite Hidle; [done|]. by rewrite Hpay.
Qed.

End WebhookProperties.

Lemma X21_webhook_credits_a_pending_payment_witness :
  users (StripeWebhookView.db
           (StripeWebhookView.post 5 (StripeWebhookView.Verified sample_event)
              sample_shop).1)
  = <[1%positive := {| User.credits := 1500 |}]> (users sample_db).
Proof.
  destruct (X21_webhook_credits_a_pending_payment 5 sample_event sample_shop
              (Payment.mk 1 "stripe" Payment.pending 500 None)
              {| User.credits := 1000 |}
              eq_refl eq_refl eq_refl eq_refl)
    as (_ & _ & Husers & _).
  exact Husers.
Defined.

Lemma X22_webhook_replay_credits_nothing_witness :
  users (StripeWebhookView.db
           (StripeWebhookView.post 9 (StripeWebhookView.Verified sample_event)
              (StripeWebhookView.post 5
                 (StripeWebhookView.Verified sample_event) sample_shop).1).1)
    !! 1%positive
  = Some {| User.credits := 1500 |}.
Proof.
  destruct (X22_webhook_replay_credits_nothing 5 9 sample_event sample_shop
              eq_refl) as (Hdb & _).
  rewrite Hdb. reflexivity.
Defined.

(** * Recording an audio that was generated elsewhere *)

Section GradioProperties.

Import Gradio.

Lemma count_words_bounds (in_word : bool) (cs : list string) :
  0 ≤ count_words in_word cs
  ∧ 2 * count_words in_word cs
    ≤ Z.of_nat (length cs) + (if in_word then 0 else 1).
Proof.
  revert in_word.
  induction cs as [|ch cs IH]; intros in_word; simpl length; simpl.
  - destruct in_word; lia.
  - destruct (isspace ch).
    + destruct (IH false). destruct in_word; lia.
    + destruct (IH true). destruct in_word; lia.
Qed.

Lemma count_letters_bounds (cs : list string) :
  0 ≤ count_letters cs ≤ Z.of_nat (length cs).
Proof.
  induction cs as [|ch cs IH]; simpl length; simpl; [lia|].
  destruct (isalpha ch); lia.
Qed.

(** X23: whatever the calculation type, the number of units charged for a
    text lies between 0 and its number of characters, so with a price per
    unit that is not negative no type charges more than ['per_character']
    does; a text of [n] characters has at most [(n + 1) / 2] words; and a
    calculation type that is none of the three known ones is charged by
    the character. *)
Theorem X23_units_never_exceed_the_characters
    (platform_settings : PlatformSettings) (text : string) :
  0 ≤ credits_per_unit platform_settings →
  0 ≤ (units platform_settings text).1 ≤ len text
  ∧ 0 ≤ (units platform_settings text).1 * credits_per_unit platform_settings
      ≤ len text * credits_per_unit platform_settings
  ∧ 2 * count_words false (chars text) ≤ len text + 1
  ∧ (credit_calculation_type platform_settings ≠ "per_word" →
     credit_calculation_type platform_settings ≠ "per_letter" →
     units platform_settings text = (len text, "characters")).
Proof.
  intros Hprice.
  assert (0 ≤ len text) as Hlen by (unfold len; lia).
  pose proof (count_words_bounds false (chars text)) as [Hw0 Hw].
  pose proof (count_letters_bounds (chars text)) as Hl.
  fold (len text) in Hw, Hl.
  assert (0 ≤ (units platform_settings text).1 ≤ len text) as Hunits.
  { unfold units.
    repeat match goal with
           | |- context [String.eqb ?a ?b] => destruct (String.eqb a b)
           end; simpl; lia. }
  split; [done|]. split; [nia|]. split; [done|].
  intros Hword Hletter. unfold units.
  destruct (String.eqb _ "per_character"); [done|].
  destruct (String.eqb _ "per_word") eqn:Hw'; [by apply String.eqb_eq in Hw'|].
  by destruct (String.eqb _ "per_letter") eqn:Hl';
    [apply String.eqb_eq in Hl'|].
Qed.

(** The rows the endpoint writes when it gets as far as the database. *)
Lemma record_audio_cases (env : Env) (uid : positive) (user : User.t)
    (text : string) (units_count : Z) (unit_name : string)
    (credits_needed : Z) (db : Db) :
  credits_needed ≤ User.credits user →
  let balance := User.credits user - credits_needed in
  let row := GeneratedAudio.mk (Some uid) text "custom"
               (Some (get_default
                        match copied_to env with
                        | inr f => Some f
                        | inl _ => None
                        end ""))
               pending 0 None None None "" (measured_duration env)
               (get_default
                  match getsize env with
                  | inr n => Some n
                  | inl _ => None
                  end 0)
               units_count credits_needed (created env) in
  (record_audio env uid user text units_count unit_name credits_needed db
   = ({| users := <[uid := {| User.credits := balance |}]> (users db);
         audios := <[new_audio_id env := row]> (audios db);
         transactions :=
           transactions db ++
           [CreditTransaction.mk uid (- credits_needed)
              CreditTransaction.usage
              ("Generated audio from Gradio (" +:+ str_of_Z units_count
               +:+ " " +:+ unit_name +:+ ", " +:+ str_of_Z credits_needed
               +:+ " credits)")
              balance];
         notifications :=
           notifications db ++ [notify_audio_generated uid units_count] |},
      inr (Created (new_audio_id env) credits_needed balance units_count
             unit_name))
   ∧ audios db !! new_audio_id env = None)
  ∨ (∃ out, record_audio env uid user text units_count unit_name
              credits_needed db = (db, out)
            ∧ ∀ id used remaining n name,
                out ≠ inr (Created id used remaining n name)).
Proof.
  intros Hcovers. simpl. unfold record_audio.
  destruct (path_exists env); simpl; [|right; by eexists].
  unfold Exc.bind, Exc.outcome, Exc.modify, Exc.ret.
  destruct (getsize env) as [e|file_size]; [right; by eexists|].
  destruct (copied_to env) as [e|audio_file]; [right; by eexists|].
  destruct (audios db !! new_audio_id env) eqn:Hid; [right; by eexists|].
  left. split; [|done].
  unfold deduct_credits, User.deduct_credits. simpl.
  assert ((User.credits user >=? credits_needed) = true) as -> by lia.
  reflexivity.
Qed.

(** X24: the endpoint charges exactly what it reports.  When it answers
    with the ['201'] response, the user's balance covered the credits
    needed ([units * credits_per_unit]) and falls by exactly that number,
    never below zero; one ['usage'] ledger row of minus that number with
    the new balance is appended, so the difference between the balance and
    the account's ledger sum is kept, and one notification is sent.  With
    every other answer, and when the lookup of the user raises, the
    database is unchanged. *)
Theorem X24_recorded_audio_is_charged_exactly
    (platform_settings : PlatformSettings) (env : Env) (req : Request)
    (db db' : Db) (out : string + Response) :
  generate_audio_from_gradio platform_settings env req db = (db', out) →
  match out with
  | inr (Created audio_id used remaining units_used unit_type) =>
      ∃ uid user text,
        find_user req db = inr (inr (uid, user))
        ∧ users db !! uid = Some user
        ∧ data_text req = Some text
        ∧ (units_used, unit_type) = units platform_settings text
        ∧ used = units_used * credits_per_unit platform_settings
        ∧ used ≤ User.credits user
        ∧ remaining = User.credits user - used
        ∧ 0 ≤ remaining
        ∧ users db' = <[uid := {| User.credits := remaining |}]> (users db)
        ∧ transactions db'
          = (transactions db ++
             [CreditTransaction.mk uid (- used) CreditTransaction.usage
                ("Generated audio from Gradio (" +:+ str_of_Z units_used
                 +:+ " " +:+ unit_type +:+ ", " +:+ str_of_Z used
                 +:+ " credits)")
                remaining])%list
        ∧ remaining - ledger_sum uid (transactions db')
          = User.credits user - ledger_sum uid (transactions db)
        ∧ notifications db'
          = (notifications db ++ [notify_audio_generated uid units_used])%list
  | _ => db' = db
  end.
Proof.
  unfold generate_audio_from_gradio. intros Hrun.
  destruct (find_user req db) as [e|[response|[uid user]]] eqn:Hfind.
  - by injection Hrun as <- <-.
  - injection Hrun as <- <-. revert Hfind. unfold find_user.
    destruct (session_user req ≫= _) as [[? ?]|]; [done|].
    destruct (x_user_id req) as [|?|[|p|p]]; try done;
      try (by intros [= <-]).
    destruct (users db !! p); [done|by intros [= <-]].
  - assert (users db !! uid = Some user) as Huser.
    { revert Hfind. unfold find_user.
      destruct (session_user req) as [sid|]; simpl.
      - destruct (users db !! sid) as [u|] eqn:Hsid; simpl.
        + by intros [= <- <-].
        + destruct (x_user_id req) as [|?|[|p|p]]; try done.
          destruct (users db !! p) eqn:Hp; [|done]. by intros [= <- <-].
      - destruct (x_user_id req) as [|?|[|p|p]]; try done.
        destruct (users db !! p) eqn:Hp; [|done]. by intros [= <- <-]. }
    destruct (data_text req) as [text|] eqn:Htext; simpl in Hrun;
      [|by injection Hrun as <- <-].
    destruct ((len text =? 0) || _) eqn:Hmissing;
      [by injection Hrun as <- <-|].
    destruct (units platform_settings text) as [units_count unit_name]
      eqn:Hunits.
    destruct (User.credits user <? _) eqn:Hlow;
      [by injection Hrun as <- <-|].
    assert (units_count * credits_per_unit platform_settings
            ≤ User.credits user) as Hcovers by lia.
    destruct (record_audio_cases env uid user text units_count unit_name _ db
                Hcovers) as [[Hrec Hfresh]|(out' & Hrec & Hnot)];
      rewrite Hrec in Hrun.
    + injection Hrun as <- <-.
      exists uid, user, text. simpl.
      split; [done|]. split; [done|]. split; [done|]. split; [done|].
      split; [done|]. split; [done|]. split; [done|]. split; [lia|].
      split; [done|]. split; [done|]. split; [|done].
      rewrite ledger_sum_app. simpl.
      destruct (decide (uid = uid)); [lia|done].
    + destruct out' as [e|response]; injection Hrun as <- <-; [done|].
      destruct response; try done. by edestruct Hnot.
Qed.

Lemma count_pending_before_insert (t : Z) (id : N) (row : GeneratedAudio.t)
    (tbl : gmap N GeneratedAudio.t) :
  tbl !! id = None → status row = pending → created_at row < t →
  count_pending_before t (<[id := row]> tbl) = count_pending_before t tbl + 1.
Proof.
  intros Hfresh Hpending Hbefore. unfold count_pending_before.
  rewrite map_filter_insert_True; [|done].
  rewrite map_size_insert_None; [lia|].
  by rewrite map_lookup_filter_None; left.
Qed.

Lemma count_status_insert_other (s : Status) (id : N)
    (row : GeneratedAudio.t) (tbl : gmap N GeneratedAudio.t) :
  tbl !! id = None → status row ≠ s →
  count_status s (<[id := row]> tbl) = count_status s tbl.
Proof.
  intros Hfresh Hother. unfold count_status.
  rewrite map_filter_insert_False; [|done].
  by rewrite delete_id.
Qed.

(** X25: the row the endpoint records is never started or completed by it:
    it is stored under the fresh key as ['pending'] at progress 0, with the
    copied audio file, the units as [characters_used] and the debit as
    [credits_used].  It therefore counts as waiting: the queue position of
    every ['pending'] task created after it grows by one, and [get_status]
    reports the row as ['pending'] together with its audio file. *)
Theorem X25_recorded_audio_stays_pending
    (platform_settings : PlatformSettings) (env : Env) (req : Request)
    (db db' : Db) (audio_id : N) (used remaining units_used : Z)
    (unit_type : string) :
  generate_audio_from_gradio platform_settings env req db
  = (db', inr (Created audio_id used remaining units_used unit_type)) →
  ∃ row file,
    audio_id = new_audio_id env
    ∧ audios db !! audio_id = None
    ∧ audios db' = <[audio_id := row]> (audios db)
    ∧ copied_to env = inr file
    ∧ audio_file row = Some file
    ∧ status row = pending
    ∧ progress row = 0
    ∧ started_at row = None
    ∧ characters_used row = units_used
    ∧ credits_used row = used
    ∧ created_at row = created env
    ∧ (∀ tid task,
         audios db !! tid = Some task → status task = pending →
         created env < created_at task →
         get_queue_position tid (audios db')
         = get_queue_position tid (audios db) + 1)
    ∧ (∀ now, ∃ report,
         get_status now audio_id (audios db') = Some report
         ∧ rep_status report = pending
         ∧ rep_audio_url report = Some file).
Proof.
  unfold generate_audio_from_gradio. intros Hrun.
  destruct (find_user req db) as [e|[response|[uid user]]] eqn:Hfind;
    [done| |].
  { injection Hrun as <- Hresp. revert Hfind. unfold find_user.
    destruct (session_user req ≫= _) as [[? ?]|]; [done|].
    destruct (x_user_id req) as [|?|[|p|p]]; try done;
      try (by intros [= <-]).
    destruct (users db !! p); [done|by intros [= <-]]. }
  destruct ((len _ =? 0) || _); [done|].
  destruct (units platform_settings _) as [units_count unit_name].
  destruct (User.credits user <? _) eqn:Hlow; [done|].
  assert (units_count * credits_per_unit platform_settings
          ≤ User.credits user) as Hcovers by lia.
  destruct (record_audio_cases env uid user
              (get_default (data_text req) "") units_count unit_name _ db
              Hcovers) as [[Hrec Hfresh]|(out' & Hrec & Hnot)];
    rewrite Hrec in Hrun.
  - assert (∃ file, copied_to env = inr file) as [file Hfile].
    { revert Hrec. unfold record_audio.
      destruct (path_exists env); simpl; [|done].
      unfold Exc.bind, Exc.outcome.
      destruct (getsize env); [done|].
      destruct (copied_to env); [done|by eexists]. }
    injection Hrun as <- <- <- <- <- <-. rewrite Hfile. simpl.
    eexists _, file. split; [done|]. split; [done|].
    split; [reflexivity|]. simpl.
    split; [done|]. split; [done|]. split; [done|]. split; [done|].
    split; [done|]. split; [done|]. split; [done|]. split; [done|].
    split.
    + intros tid task Htask Hpending Hlater.
      assert (tid ≠ new_audio_id env) as Hne by congruence.
      unfold get_queue_position.
      rewrite lookup_insert_ne, Htask, Hpending; [|done].
      rewrite count_pending_before_insert; [|done..].
      rewrite count_status_insert_other; [lia|done..].
    + intros now. unfold get_status. rewrite lookup_insert_eq. simpl.
      eexists. split; [reflexivity|]. done.
  - destruct out' as [e|response]; [done|].
    injection Hrun as _ ->. by edestruct Hnot.
Qed.

End GradioProperties.

Lemma X23_units_never_exceed_the_characters_witness :
  0 ≤ (Gradio.units sample_per_word "  hello   wide world ").1 * 10
    ≤ len "  hello   wide world " * 10.
Proof.
  destruct (X23_units_never_exceed_the_characters sample_per_word
              "  hello   wide world ") as (_ & Hcost & _).
  - simpl. lia.
  - exact Hcost.
Defined.

Lemma X24_recorded_audio_is_charged_exactly_witness :
  ∃ db',
    Gradio.generate_audio_from_gradio sample_per_word sample_gradio_env
      sample_gradio_request sample_db
    = (db', inr (Gradio.Created 9 30 970 3 "words"))
    ∧ users db' = <[1%positive := {| User.credits := 970 |}]> (users sample_db).
Proof.
  eexists. split; [reflexivity|].
  destruct (X24_recorded_audio_is_charged_exactly sample_per_word
              sample_gradio_env sample_gradio_request sample_db _
              (inr (Gradio.Created 9 30 970 3 "words")) eq_refl)
    as (uid & user & text & Hfind & _ & _ & _ & _ & _ & _ & _ & Husers & _).
  injection Hfind as <- <-. exact Husers.
Defined.

Lemma X25_recorded_audio_stays_pending_witness :
  ∃ db',
    Gradio.generate_audio_from_gradio sample_per_word sample_gradio_env
      sample_gradio_request
      (on_audios <[7%N := sample_task pending 0 6]> sample_db)
    = (db', inr (Gradio.Created 9 30 970 3 "words"))
    ∧ get_queue_position 7 (audios db') = 1.
Proof.
  eexists. split; [reflexivity|].
  match goal with
  | |- get_queue_position _ (audios ?d) = _ =>
      assert (Gradio.generate_audio_from_gradio sample_per_word
                sample_gradio_env sample_gradio_request
                (on_audios <[7%N := sample_task pending 0 6]> sample_db)
              = (d, inr (Gradio.Created 9 30 970 3 "words"))) as Hrun
        by reflexivity
  end.
  destruct (X25_recorded_audio_stays_pending _ _ _ _ _ _ _ _ _ _ Hrun)
    as (row & file & _ & _ & _ & _ & _ & _ & _ & _ & _ & _ & _ & Hqueue & _).
  rewrite (Hqueue 7%N (sample_task pending 0 6));
    [reflexivity | reflexivity | reflexivity | simpl; lia].
Defined.

(** * The plan of an account and the cloning of voices *)

Section PlanProperties.

Import Account.

(** X26: how the plan checks of an account relate.  An account with an
    active subscription, and one with API access, may always clone a voice;
    an account that is not on the free plan may clone whatever its end date
    and its plan's [max_voice_clones] say; a free account has neither an
    active subscription nor API access, and (having no plan row) may clone
    exactly while its used clones are below [get_max_voice_clones]. *)
Theorem X26_plan_checks (now free_trial_voice_clones : Z) (self : Account.t) :
  (has_active_subscription now self = true →
   can_clone_voice free_trial_voice_clones self = true)
  ∧ (can_use_api self = true →
     can_clone_voice free_trial_voice_clones self = true)
  ∧ (subscription_type self ≠ "free" →
     can_clone_voice free_trial_voice_clones self = true)
  ∧ (subscription_type self = "free" →
     has_active_subscription now self = false
     ∧ can_use_api self = false
     ∧ (subscription_plan self = None →
        can_clone_voice free_trial_voice_clones self
        = (free_voice_clones_used self
           <? get_max_voice_clones free_trial_voice_clones self)))
  ∧ (has_active_subscription now self = true
     ↔ subscription_type self ≠ "free"
       ∧ ∃ end_date, subscription_end_date self = Some end_date
                     ∧ now < end_date).
Proof.
  unfold has_active_subscription, can_clone_voice, can_use_api,
    get_max_voice_clones.
  destruct (String.eqb (subscription_type self) "free") eqn:Hfree.
  - apply String.eqb_eq in Hfree. rewrite Hfree. simpl.
    split; [done|]. split; [done|]. split; [done|].
    split; [|split; [done|by intros [? _]]].
    intros _. split; [done|]. split; [done|]. by intros ->.
  - apply String.eqb_neq in Hfree.
    split; [done|]. split; [done|]. split; [done|]. split; [done|].
    destruct (subscription_end_date self) as [end_date|].
    + split.
      * intros Hlater. split; [done|]. exists end_date. split; [done|lia].
      * intros (_ & e & [= <-] & Hlater). lia.
    + split; [done|]. by intros (_ & e & ? & _).
Qed.

End PlanProperties.

Section CloneProperties.

Import ClonedVoiceViewSet.

(** X27: [create] refuses with ['403'] exactly the accounts that are
    neither staff nor superuser, are on the free plan and have used up the
    free clones of the platform settings; a refused request changes
    nothing.  Every other account passes the check whatever the number of
    its voices and its plan's [max_voice_clones]. *)
Theorem X27_only_free_accounts_are_refused
    (free_trial_voice_clones : Z) (env : CreateEnv) (uid : positive)
    (user : Account.t) (s : Studio) :
  ((∃ error, (create free_trial_voice_clones env uid user s).2
             = inr (Forbidden error))
   ↔ Account.is_staff user = false
     ∧ Account.is_superuser user = false
     ∧ Account.subscription_type user = "free"
     ∧ free_trial_voice_clones ≤ Account.free_voice_clones_used user)
  ∧ (∀ error, (create free_trial_voice_clones env uid user s).2
              = inr (Forbidden error) →
              (create free_trial_voice_clones env uid user s).1 = s).
Proof.
  unfold create, Account.can_clone_voice.
  destruct (Account.is_staff user), (Account.is_superuser user); simpl;
    try (split; [split; [|by intros (? & ? & ?)]|];
         [intros [error Hresp]|intros error Hresp];
         repeat match type of Hresp with
                | context [match ?x with _ => _ end] => destruct x
                end; done).
  destruct (String.eqb (Account.subscription_type user) "free") eqn:Hfree;
    simpl.
  - apply String.eqb_eq in Hfree.
    destruct (Account.free_voice_clones_used user <? free_trial_voice_clones)
      eqn:Hused; simpl.
    + split; [split|].
      * intros [error Hresp].
        repeat match type of Hresp with
               | context [match ?x with _ => _ end] => destruct x
               end; done.
      * intros (_ & _ & _ & Hfull). lia.
      * intros error Hresp.
        repeat match type of Hresp with
               | context [match ?x with _ => _ end] => destruct x
               end; done.
    + split; [split|done].
      * intros _. repeat split; try done. lia.
      * intros _. by eexists.
  - apply String.eqb_neq in Hfree. split; [split|].
    + intros [error Hresp].
      repeat match type of Hresp with
             | context [match ?x with _ => _ end] => destruct x
             end; done.
    + by intros (_ & _ & ? & _).
    + intros error Hresp.
      repeat match type of Hresp with
             | context [match ?x with _ => _ end] => destruct x
             end; done.
Qed.

(** One request of a free account that is neither staff nor superuser. *)
Lemma serve_free_account (free_trial_voice_clones : Z) (uid : positive)
    (call : Call) (s : Studio) (plan end_date : option Z) (used : Z) :
  accounts s !! uid
  = Some (Account.mk false false "free" plan end_date used) →
  ∃ used',
    accounts (serve free_trial_voice_clones uid call s).1 !! uid
    = Some (Account.mk false false "free" plan end_date used')
    ∧ used' = used + (if is_created
                           (serve free_trial_voice_clones uid call s).2
                      then 1 else 0)
    ∧ (is_created (serve free_trial_voice_clones uid call s).2 = true →
       used < free_trial_voice_clones).
Proof.
  intros Huser. unfold serve. rewrite Huser.
  destruct call as [env|pk]; simpl.
  - unfold create, Account.can_clone_voice. simpl.
    destruct (used <? free_trial_voice_clones) eqn:Hused; simpl.
    + destruct (validated env) as [e|[name has_image]]; simpl;
        [exists used; split; [done|split; [lia|done]]|].
      destruct (audio_written env) as [e|filename]; simpl;
        [exists used; split; [done|split; [lia|done]]|].
      destruct (if has_image then _ else _) as [e|image_filename]; simpl;
        [exists used; split; [done|split; [lia|done]]|].
      destruct (measured env) as [e|[duration file_size]]; simpl;
        [exists used; split; [done|split; [lia|done]]|].
      destruct (cloned_voices s !! new_voice_id env); simpl;
        [exists used; split; [done|split; [lia|done]]|].
      exists (used + 1). rewrite lookup_insert_eq.
      split; [done|]. split; [done|]. intros _. lia.
    + exists used. split; [done|]. split; [lia|done].
  - unfold destroy.
    destruct (cloned_voices s !! pk) as [voice|]; simpl;
      [|exists used; split; [done|split; [lia|done]]].
    destruct (bool_decide _ && _); simpl;
      exists used; (split; [done|split; [lia|done]]).
Qed.

(** X28: the free clones are a lifetime allowance.  Over any sequence of
    [create] and [destroy] requests of a free account that is neither staff
    nor superuser, the used clones grow by exactly the number of ['201']
    answers and never fall, so deleting a voice gives nothing back; they
    never pass the larger of their starting value and the allowance, so
    the account gets at most [allowance - used] voices created. *)
Theorem X28_free_clones_are_a_lifetime_allowance
    (free_trial_voice_clones : Z) (uid : positive) (calls : list Call)
    (s : Studio) (plan end_date : option Z) (used : Z) :
  accounts s !! uid = Some (Account.mk false false "free" plan end_date used) →
  ∃ used',
    accounts (serve_all free_trial_voice_clones uid calls s).1 !! uid
    = Some (Account.mk false false "free" plan end_date used')
    ∧ used' = used
              + created_count (serve_all free_trial_voice_clones uid calls s).2
    ∧ 0 ≤ created_count (serve_all free_trial_voice_clones uid calls s).2
    ∧ used' ≤ Z.max used free_trial_voice_clones
    ∧ created_count (serve_all free_trial_voice_clones uid calls s).2
      ≤ Z.max 0 (free_trial_voice_clones - used).
Proof.
  revert s used. induction calls as [|call calls IH]; intros s used Huser.
  - exists used. simpl. split; [done|]. lia.
  - simpl.
    destruct (serve_free_account free_trial_voice_clones uid call s
                plan end_date used Huser)
      as (used1 & Huser1 & Hused1 & Hroom).
    destruct (IH _ used1 Huser1) as (used' & Huser' & Hused' & Hcount & Hmax & Hle).
    exists used'. split; [done|].
    destruct (is_created (serve free_trial_voice_clones uid call s).2);
      [specialize (Hroom eq_refl)|]; lia.
Qed.

End CloneProperties.

Lemma X27_only_free_accounts_are_refused_witness :
  ∃ error,
    (ClonedVoiceViewSet.create 0 (sample_create_env 1) 1 sample_free_account
       sample_studio).2
    = inr (ClonedVoiceViewSet.Forbidden error).
Proof.
  apply (X27_only_free_accounts_are_refused 0 (sample_create_env 1) 1
           sample_free_account sample_studio).
  split; [reflexivity|]. split; [reflexivity|]. split; [reflexivity|].
  simpl. lia.
Defined.

Lemma X28_free_clones_are_a_lifetime_allowance_witness :
  ClonedVoiceViewSet.created_count
    (ClonedVoiceViewSet.serve_all 1 1
       [ClonedVoiceViewSet.CallCreate (sample_create_env 1);
        ClonedVoiceViewSet.CallDestroy 1;
        ClonedVoiceViewSet.CallCreate (sample_create_env 2)]
       sample_studio).2
  ≤ 1.
Proof.
  destruct (X28_free_clones_are_a_lifetime_allowance 1 1
              [ClonedVoiceViewSet.CallCreate (sample_create_env 1);
               ClonedVoiceViewSet.CallDestroy 1;
               ClonedVoiceViewSet.CallCreate (sample_create_env 2)]
              sample_studio None None 0 eq_refl)
    as (used' & _ & _ & _ & _ & Hle).
  exact Hle.
Defined.

Lemma X26_plan_checks_witness :
  Account.has_active_subscription 10
    (Account.mk false false "pro" (Some 0) (Some 5) 7) = false
  ∧ Account.can_clone_voice 1
      (Account.mk false false "pro" (Some 0) (Some 5) 7) = true.
Proof.
  destruct (X26_plan_checks 10 1
              (Account.mk false false "pro" (Some 0) (Some 5) 7))
    as (_ & Hapi & _).
  split; [reflexivity|]. apply Hapi. reflexivity.
Defined.

(** * Balances over histories of requests *)

Section NoNegativeBalance.

Lemma no_negative_save (uid : positive) (user : User.t) (db : Db) :
  0 ≤ User.credits user →
  no_negative_balance db → no_negative_balance (save uid user db).
Proof. intros Huser Hdb. by apply map_Forall_insert_2. Qed.

Lemma no_negative_same_users (db db' : Db) :
  users db' = users db → no_negative_balance db → no_negative_balance db'.
Proof. unfold no_negative_balance. by intros ->. Qed.

Lemma submit_same_users (cfg : Settings) (env : SubmitEnv) (req : Request)
    (db : Db) :
  users (generate_speech cfg env req db).1.2 = users db.
Proof.
  unfold generate_speech.
  repeat match goal with
         | |- context [if ?c then _ else _] => destruct c; simpl; try done
         | |- context [match ?x with _ => _ end] =>
             destruct x; simpl; try done
         end.
Qed.

Lemma no_negative_run (env : WorkerEnv) (job : Job) (db : Db) :
  no_negative_balance db → no_negative_balance (run_job env job db).
Proof.
  intros Hdb. unfold run_job.
  destruct (charged_user env (job_user_id job) db) as [[uid u]|] eqn:Hc.
  - destruct (run_charged env (job_task_id job) (job_text job)
                (job_credits job) (job_user_id job) db uid u Hc)
      as [_ Husers].
    unfold no_negative_balance. rewrite Husers.
    destruct (User.credits u >=? job_credits job) eqn:Hge; [|done].
    apply map_Forall_insert_2; [simpl; lia|done].
  - destruct (run_not_charged env (job_task_id job) (job_text job)
                (job_credits job) (job_user_id job) db Hc) as [Husers _].
    by apply (no_negative_same_users db).
Qed.

Lemma no_negative_record (platform_settings : Gradio.PlatformSettings)
    (env : Gradio.Env) (req : Gradio.Request) (db : Db) :
  no_negative_balance db →
  no_negative_balance
    (Gradio.generate_audio_from_gradio platform_settings env req db).1.
Proof.
  intros Hdb. unfold Gradio.generate_audio_from_gradio.
  destruct (Gradio.find_user req db) as [e|[response|[uid user]]]; try done.
  destruct ((len _ =? 0) || _); [done|].
  destruct (Gradio.units platform_settings _) as [units_count unit_name].
  destruct (User.credits user <? _) eqn:Hlow; [done|].
  assert (units_count * Gradio.credits_per_unit platform_settings
          ≤ User.credits user) as Hcovers by lia.
  destruct (record_audio_cases env uid user
              (get_default (Gradio.data_text req) "") units_count unit_name
              _ db Hcovers) as [[-> _]|(out & -> & _)].
  - simpl. apply map_Forall_insert_2; [simpl; lia|done].
  - by destruct out.
Qed.

Lemma no_negative_admin_add (admin_email : string)
    (amount : AdminCredits.JsonValue) (user_id : positive) (db : Db) :
  no_negative_balance db →
  no_negative_balance
    (AdminCredits.admin_add_credits admin_email amount user_id db).1.2.
Proof.
  intros Hdb. unfold AdminCredits.admin_add_credits.
  destruct (users db !! user_id) as [user|] eqn:Huser; [|done].
  destruct amount as [i|]; [|done]. unfold AdminCredits.invalid_amount.
  destruct ((AdminCredits.int_of i =? 0) || _) eqn:Hbad; [done|].
  simpl. apply map_Forall_insert_2; [|done].
  pose proof (Hdb user_id user Huser). simpl in *. lia.
Qed.

Lemma no_negative_loop (body : Db → positive * User.t → Db)
    (rows : list (positive * User.t)) :
  (∀ db uid u, 0 ≤ User.credits u → no_negative_balance db →
               no_negative_balance (body db (uid, u))) →
  Forall (λ row, 0 ≤ User.credits row.2) rows →
  ∀ db, no_negative_balance db → no_negative_balance (foldl body db rows).
Proof.
  intros Hbody. induction 1 as [|[uid u] rows Hu _ IH]; intros db Hdb;
    [done|].
  simpl. apply IH. by apply Hbody.
Qed.

Lemma no_negative_fetch (queryset : list positive) (db : Db) :
  no_negative_balance db →
  Forall (λ row, 0 ≤ User.credits row.2) (AdminCredits.fetch queryset db).
Proof.
  intros Hdb. apply Forall_forall. intros [uid u] Hrow.
  apply elem_of_fetch in Hrow as [_ Hu]. exact (Hdb uid u Hu).
Qed.

Lemma no_negative_bulk (action : BulkAction) (queryset : list positive)
    (db : Db) :
  no_negative_balance db → no_negative_balance (bulk action queryset db).1.
Proof.
  intros Hdb.
  destruct action; simpl;
    (apply no_negative_loop; [|by apply no_negative_fetch|done]);
    intros db0 uid u Hu Hdb0.
  - apply no_negative_save; [simpl; lia|done].
  - apply no_negative_save; [simpl; lia|done].
  - apply no_negative_save; [simpl; lia|done].
  - unfold deduct_credits, User.deduct_credits.
    destruct (User.credits u >=? 100) eqn:Hge; simpl; [|done].
    apply no_negative_save; [simpl; lia|done].
Qed.

(** X29: no history of submissions, worker runs, recordings of audio
    generated elsewhere, credits added by an administrator and admin bulk
    actions, in any order and whatever the collaborators answer, takes a
    balance below zero: if no balance is negative before, none is after. *)
Theorem X29_no_history_overdraws (ops : list Operation) (db : Db) :
  no_negative_balance db → no_negative_balance (perform_all ops db).
Proof.
  unfold perform_all. revert db.
  induction ops as [|op ops IH]; intros db Hdb; [done|].
  simpl. apply IH. destruct op; simpl.
  - apply (no_negative_same_users db); [apply submit_same_users|done].
  - by apply no_negative_run.
  - by apply no_negative_record.
  - by apply no_negative_admin_add.
  - by apply no_negative_bulk.
Qed.

End NoNegativeBalance.

Lemma X29_no_history_overdraws_witness :
  no_negative_balance
    (perform_all
       [OpBulk Remove100 [2; 3]%positive;
        OpRecord sample_per_word sample_gradio_env sample_gradio_request;
        OpAdminAdd "root@example.com"
          (AdminCredits.JInt (AdminCredits.PyZ 5)) 2;
        OpRun sample_success (sample_job 2000)]
       sample_accounts).
Proof.
  apply X29_no_history_overdraws.
  unfold no_negative_balance, sample_accounts, register, save, empty_db.
  simpl. repeat (apply map_Forall_insert_2; [simpl; lia|]).
  apply map_Forall_empty.
Defined.

Section LedgerOverHistories.

Lemma unexplained_same (db db' : Db) (uid : positive) :
  users db' = users db → transactions db' = transactions db →
  unexplained db' uid = unexplained db uid.
Proof. unfold unexplained. by intros -> ->. Qed.

(** A change of one balance together with a ledger row of the same
    amount. *)
Lemma unexplained_recorded (db db' : Db) (uid : positive) (user : User.t)
    (tx : CreditTransaction.t) (k : positive) :
  users db !! uid = Some user →
  users db'
  = <[uid := {| User.credits := User.credits user
                                + CreditTransaction.amount tx |}]>
      (users db) →
  transactions db' = (transactions db ++ [tx])%list →
  CreditTransaction.user tx = uid →
  unexplained db' k = unexplained db k.
Proof.
  intros Huser Husers Htxs Hwho. unfold unexplained.
  rewrite Husers, Htxs, ledger_sum_app, Hwho.
  destruct (decide (uid = k)) as [->|Hne].
  - rewrite lookup_insert_eq, Huser. simpl. f_equal. lia.
  - rewrite lookup_insert_ne; [|done].
    destruct (users db !! k); simpl; [|done]. f_equal. lia.
Qed.

Lemma charged_user_row (env : WorkerEnv) (user_id : option positive)
    (db : Db) (uid : positive) (user : User.t) :
  charged_user env user_id db = Some (uid, user) →
  users db !! uid = Some user.
Proof.
  unfold charged_user.
  destruct (generate env) as [?|[? ? ?|?]]; try done.
  destruct (storage_save env); try done.
  destruct user_id as [k|]; [|done].
  destruct (users db !! k) eqn:Hk; [|done]. by intros [= <- <-].
Qed.

Lemma find_user_row (req : Gradio.Request) (db : Db) (uid : positive)
    (user : User.t) :
  Gradio.find_user req db = inr (inr (uid, user)) →
  users db !! uid = Some user.
Proof.
  unfold Gradio.find_user.
  destruct (Gradio.session_user req) as [sid|]; simpl.
  - destruct (users db !! sid) as [u|] eqn:Hsid; simpl.
    + by intros [= <- <-].
    + destruct (Gradio.x_user_id req) as [|?|[|p|p]]; try done.
      destruct (users db !! p) eqn:Hp; [|done]. by intros [= <- <-].
  - destruct (Gradio.x_user_id req) as [|?|[|p|p]]; try done.
    destruct (users db !! p) eqn:Hp; [|done]. by intros [= <- <-].
Qed.

Lemma submit_same_transactions (cfg : Settings) (env : SubmitEnv)
    (req : Request) (db : Db) :
  transactions (generate_speech cfg env req db).1.2 = transactions db.
Proof.
  unfold generate_speech.
  repeat match goal with
         | |- context [if ?c then _ else _] => destruct c; simpl; try done
         | |- context [match ?x with _ => _ end] =>
             destruct x; simpl; try done
         end.
Qed.

Lemma recorded_step (db : Db) (op : Operation) (k : positive) :
  recorded db op → unexplained (perform db op) k = unexplained db k.
Proof.
  destruct op as [cfg env req|env job|ps env req|email amount uid|action qs];
    simpl; intros Hrec.
  - apply unexplained_same;
      [apply submit_same_users|apply submit_same_transactions].
  - unfold run_job.
    destruct (charged_user env (job_user_id job) db) as [[uid u]|] eqn:Hc.
    + destruct (run_charged env (job_task_id job) (job_text job)
                  (job_credits job) (job_user_id job) db uid u Hc)
        as [Htxs Husers].
      assert ((User.credits u >=? job_credits job) = true) as Hge by lia.
      rewrite Hge in Husers.
      apply (unexplained_recorded db _ uid u
               (usage_row uid u (job_text job) (job_credits job)));
        [by apply (charged_user_row env (job_user_id job))| |done|done].
      rewrite Husers. simpl. do 2 f_equal; lia.
    + destruct (run_not_charged env (job_task_id job) (job_text job)
                  (job_credits job) (job_user_id job) db Hc).
      by apply unexplained_same.
  - unfold Gradio.generate_audio_from_gradio.
    destruct (Gradio.find_user req db) as [e|[response|[uid user]]] eqn:Hfind;
      try done.
    destruct ((len _ =? 0) || _); [done|].
    destruct (Gradio.units ps _) as [units_count unit_name].
    destruct (User.credits user <? _) eqn:Hlow; [done|].
    assert (units_count * Gradio.credits_per_unit ps ≤ User.credits user)
      as Hcovers by lia.
    destruct (record_audio_cases env uid user
                (get_default (Gradio.data_text req) "") units_count unit_name
                _ db Hcovers) as [[-> _]|(out & -> & _)].
    + simpl.
      eapply (unexplained_recorded db _ uid user);
        [by apply (find_user_row req)| |reflexivity|reflexivity].
      simpl. do 2 f_equal; lia.
    + by destruct out.
  - unfold AdminCredits.admin_add_credits.
    destruct (users db !! uid) as [user|] eqn:Huser; [|done].
    destruct amount as [i|]; [|done]. unfold AdminCredits.invalid_amount.
    destruct ((AdminCredits.int_of i =? 0) || _); [done|].
    simpl.
    eapply (unexplained_recorded db _ uid user
              (CreditTransaction.mk uid (AdminCredits.int_of i) _ _ _));
      [done|reflexivity|reflexivity|reflexivity].
  - destruct action; simpl; unfold AdminCredits.add_credits_100,
      AdminCredits.add_credits_500, AdminCredits.add_credits_1000,
      AdminCredits.remove_credits_100; rewrite Hrec; done.
Qed.

(** X30: the ledger explains every change of a balance over a history of
    submissions, recordings of audio generated elsewhere, credits added
    through [admin_add_credits] and worker runs whose debit is covered by
    the balance they meet: for every account, the balance minus the sum of
    its ledger rows is the same after the history as before.  (Bulk admin
    actions and worker runs with a refused debit are what breaks this.) *)
Theorem X30_recorded_histories_keep_the_ledger_offset
    (ops : list Operation) (db : Db) (uid : positive) :
  all_recorded ops db →
  unexplained (perform_all ops db) uid = unexplained db uid.
Proof.
  unfold perform_all. revert db.
  induction ops as [|op ops IH]; intros db Hall; [done|].
  destruct Hall as [Hop Hall]. simpl.
  rewrite (IH _ Hall). by apply recorded_step.
Qed.

End LedgerOverHistories.

Lemma X30_recorded_histories_keep_the_ledger_offset_witness :
  unexplained
    (perform_all
       [OpRecord sample_per_word sample_gradio_env sample_gradio_request;
        OpAdminAdd "root@example.com"
          (AdminCredits.JInt (AdminCredits.PyZ 5)) 1;
        OpRun sample_success (sample_job 11)]
       sample_db) 1
  = Some 1000.
Proof.
  rewrite X30_recorded_histories_keep_the_ledger_offset; [reflexivity|].
  simpl. split; [done|]. split; [done|]. split; [|done].
  vm_compute. discriminate.
Defined.

(** * Charging a completed task, and running the worker again *)

Section ChargeAndRerun.




End ChargeAndRerun.


(** * Ledger replay from registration *)

(** C3, amended.  Registration grants the free-trial credits without a
    ledger row, so from its creation on an account's balance is its ledger
    sum plus that grant, not the ledger sum: for an account registered with
    a grant and no earlier ledger row, the balance minus the sum of its
    ledger rows is the grant after every history of submissions, worker
    runs whose debit is covered by the balance they meet, recordings of
    audio generated elsewhere and credits added through
    [admin_add_credits].  (A bulk admin action on the account and a worker
    run whose debit is refused change one side only, and are excluded.) *)
Theorem C3_balance_minus_ledger_is_kept
    (free_trial_credits : Z) (account : positive) (db0 : Db)
    (ops : list Operation) :
  Forall (λ tx, CreditTransaction.user tx ≠ account) (transactions db0) →
  all_recorded ops (register free_trial_credits account db0) →
  users (register free_trial_credits account db0) !! account
  = Some {| User.credits := free_trial_credits |}
  ∧ ledger_sum account (transactions (register free_trial_credits account db0))
    = 0
  ∧ ∃ user,
      users (perform_all ops (register free_trial_credits account db0))
        !! account = Some user
      ∧ User.credits user
        - ledger_sum account
            (transactions
               (perform_all ops (register free_trial_credits account db0)))
        = free_trial_credits.
Proof.
  intros Hnew Hall.
  assert (ledger_sum account (transactions db0) = 0) as Hsum.
  { clear Hall. unfold ledger_sum.
    induction Hnew as [|tx txs Htx _ IH]; simpl; [done|].
    by destruct (decide (CreditTransaction.user tx = account)). }
  split; [apply lookup_insert_eq|]. split; [done|].
  assert (∀ ops db, all_recorded ops db →
                    unexplained (perform_all ops db) account
                    = unexplained db account) as Hkept.
  { clear. unfold perform_all.
    induction ops as [|op ops IH]; intros db Hall; [done|].
    destruct Hall as [Hop Hall]. simpl.
    rewrite (IH _ Hall). by apply recorded_step. }
  specialize (Hkept ops _ Hall). unfold unexplained in Hkept.
  change (users (register free_trial_credits account db0))
    with (<[account := {| User.credits := free_trial_credits |}]> (users db0))
    in Hkept.
  change (transactions (register free_trial_credits account db0))
    with (transactions db0) in Hkept.
  rewrite lookup_insert_eq, Hsum in Hkept. simpl in Hkept.
  destruct (users (perform_all ops _) !! account) as [user|]; [|done].
  exists user. split; [done|]. simpl in Hkept. injection Hkept as Hkept. lia.
Qed.

Lemma C3_balance_minus_ledger_is_kept_witness :
  let db :=
    perform_all
      [OpSubmit sample_cfg sample_submit_env
         (sample_request (Some 1%positive) true);
       OpRun sample_success (sample_job 11);
       OpAdminAdd "root@example.com"
         (AdminCredits.JInt (AdminCredits.PyZ 5)) 1;
       OpRecord sample_per_word sample_gradio_env sample_gradio_request]
      (register 1000 1 empty_db) in
  ∃ user,
    users db !! 1%positive = Some user
    ∧ User.credits user - ledger_sum 1 (transactions db) = 1000.
Proof.
  cbv zeta.
  destruct (C3_balance_minus_ledger_is_kept 1000 1 empty_db
              [OpSubmit sample_cfg sample_submit_env
                 (sample_request (Some 1%positive) true);
               OpRun sample_success (sample_job 11);
               OpAdminAdd "root@example.com"
                 (AdminCredits.JInt (AdminCredits.PyZ 5)) 1;
               OpRecord sample_per_word sample_gradio_env
                 sample_gradio_request])
    as (_ & _ & Hkept).
  - constructor.
  - simpl. split; [done|]. split; [vm_compute; discriminate|].
    split; [done|]. split; done.
  - exact Hkept.
Defined.
